(** * rant-multi-site.js: the insertion planner, the entry formatter and the
      synchronisation sequence

    A shallow embedding of [src/utils/rant-multi-site.js].  JavaScript
    strings are sequences of UTF-16 code units; regular expressions are
    terms of a small syntax interpreted by a backtracking matcher that
    follows the ECMAScript continuation semantics; the file system, the
    console and the child processes are an explicit world threaded through
    a state-and-exit monad.  Files hold bytes: reading decodes them as
    UTF-8 and writing encodes the text, as [fs.readFileSync(path, 'utf8')]
    and [fs.writeFileSync(path, text)] do. *)

From Stdlib Require Import NArith List String Ascii Lia DecimalString Bool.
From Stdlib Require Import DecimalN.
From stdpp Require Import base option list countable gmap.

Local Open Scope N_scope.

(** ** JavaScript strings *)

Module Js.

(** A code unit; a string is the list of its code units. *)
Abbreviation char := N.
Abbreviation jsstring := (list N).

(** The code units of an ASCII literal. *)
Definition str (s : string) : jsstring :=
  map N_of_ascii (list_ascii_of_string s).

Definition chr (a : ascii) : char := N_of_ascii a.

(** The code units of a markup literal: the source's double quote is
    written as an apostrophe here (no markup literal of the program holds
    an apostrophe of its own). *)
Definition html (s : string) : jsstring :=
  map (fun c => if c =? 39 then 34 else c) (str s).

Definition char_eqb (a b : char) : bool := N.eqb a b.

Fixpoint startsWith (s p : jsstring) {struct p} : bool :=
  match p, s with
  | [], _ => true
  | _ :: _, [] => false
  | a :: p', b :: s' => char_eqb a b && startsWith s' p'
  end.

(** [s.includes(p)] *)
Fixpoint includes (s p : jsstring) : bool :=
  startsWith s p ||
  match s with
  | [] => false
  | _ :: s' => includes s' p
  end.

Definition jsstring_eqb (a b : jsstring) : bool :=
  bool_decide (a = b).

(** [parts.join(sep)] *)
Fixpoint join (sep : jsstring) (parts : list jsstring) : jsstring :=
  match parts with
  | [] => []
  | [p] => p
  | p :: rest => p ++ sep ++ join sep rest
  end.

(** [String(n)] for a non-negative integer. *)
Definition decimal (n : N) : jsstring :=
  str (NilEmpty.string_of_uint (N.to_uint n)).

(** [s.padStart(2, '0')] *)
Definition padStart2 (s : jsstring) : jsstring :=
  repeat (chr "0") (2 - length s) ++ s.

(** [s.slice(0, e)], [s.slice(b)] and [s.substring(b)] for an index within
    the string, and for [undefined], which [slice] reads as "no bound". *)
Definition slice_to (s : jsstring) (e : option nat) : jsstring :=
  match e with
  | Some n => take n s
  | None => s
  end.

Definition slice_from (s : jsstring) (b : option nat) : jsstring :=
  match b with
  | Some n => drop n s
  | None => s
  end.

(** [s.trim()]: the white space of [String.prototype.trim] at both ends. *)
Definition whitespace (c : char) : bool :=
  ((9 <=? c) && (c <=? 13)) || (c =? 32) || (c =? 160) || (c =? 5760)
  || ((8192 <=? c) && (c <=? 8202)) || (c =? 8232) || (c =? 8233)
  || (c =? 8239) || (c =? 8287) || (c =? 12288) || (c =? 65279).

Fixpoint trimStart (s : jsstring) : jsstring :=
  match s with
  | c :: s' => if whitespace c then trimStart s' else s
  | [] => []
  end.

Definition trim (s : jsstring) : jsstring :=
  rev (trimStart (rev (trimStart s))).

(** String concatenation coerces [undefined] to the text "undefined". *)
Definition to_text (v : option jsstring) : jsstring :=
  match v with
  | Some s => s
  | None => str "undefined"
  end.

Arguments str : simpl never.
Arguments html : simpl never.

End Js.
Export Js.

(** ** UTF-8

    What [buffer.toString('utf8')] and [Buffer.from(text, 'utf8')] do: an
    ill-formed byte sequence is read as U+FFFD, one for each maximal
    ill-formed part; an unpaired surrogate is written as the three bytes
    of U+FFFD.  Code units are numbers below 65536; a number that is no
    code unit is written as U+FFFD too. *)

Module Utf8.

Abbreviation bytes := (list N).

Definition in_range (lo hi b : N) : bool := (lo <=? b) && (b <=? hi).

Definition continuation (b : N) : bool := in_range 128 191 b.

Definition replacement : char := 65533.

(** The code units of a code point above the basic plane. *)
Definition surrogates (cp : N) : jsstring :=
  [55296 + (cp - 65536) / 1024; 56320 + (cp - 65536) mod 1024].

Fixpoint utf8_decode (b : bytes) : jsstring :=
  match b with
  | [] => []
  | b0 :: rest =>
      if b0 <? 128 then b0 :: utf8_decode rest
      else if in_range 194 223 b0 then
        match rest with
        | b1 :: rest1 =>
            if continuation b1 then
              ((b0 - 192) * 64 + (b1 - 128)) :: utf8_decode rest1
            else replacement :: utf8_decode rest
        | [] => [replacement]
        end
      else if in_range 224 239 b0 then
        match rest with
        | b1 :: rest1 =>
            if in_range (if b0 =? 224 then 160 else 128)
                 (if b0 =? 237 then 159 else 191) b1 then
              match rest1 with
              | b2 :: rest2 =>
                  if continuation b2 then
                    ((b0 - 224) * 4096 + (b1 - 128) * 64 + (b2 - 128))
                      :: utf8_decode rest2
                  else replacement :: utf8_decode rest1
              | [] => [replacement]
              end
            else replacement :: utf8_decode rest
        | [] => [replacement]
        end
      else if in_range 240 244 b0 then
        match rest with
        | b1 :: rest1 =>
            if in_range (if b0 =? 240 then 144 else 128)
                 (if b0 =? 244 then 143 else 191) b1 then
              match rest1 with
              | b2 :: rest2 =>
                  if continuation b2 then
                    match rest2 with
                    | b3 :: rest3 =>
                        if continuation b3 then
                          surrogates
                            ((b0 - 240) * 262144 + (b1 - 128) * 4096
                             + (b2 - 128) * 64 + (b3 - 128))
                            ++ utf8_decode rest3
                        else replacement :: utf8_decode rest2
                    | [] => [replacement]
                    end
                  else replacement :: utf8_decode rest1
              | [] => [replacement]
              end
            else replacement :: utf8_decode rest
        | [] => [replacement]
        end
      else replacement :: utf8_decode rest
  end.

Definition high_surrogate (c : char) : bool := in_range 55296 56319 c.
Definition low_surrogate (c : char) : bool := in_range 56320 57343 c.

(** The three bytes of a code unit from U+0800 on, the four bytes of a
    code point from U+10000 on. *)
Definition three_bytes (c : N) : bytes :=
  [224 + c / 4096; 128 + (c / 64) mod 64; 128 + c mod 64].

Definition four_bytes (cp : N) : bytes :=
  [240 + cp / 262144; 128 + (cp / 4096) mod 64; 128 + (cp / 64) mod 64;
   128 + cp mod 64].

Fixpoint utf8_encode (s : jsstring) : bytes :=
  match s with
  | [] => []
  | c :: rest =>
      if c <? 128 then c :: utf8_encode rest
      else if c <? 2048 then
        (192 + c / 64) :: (128 + c mod 64) :: utf8_encode rest
      else if high_surrogate c then
        match rest with
        | d :: rest' =>
            if low_surrogate d then
              four_bytes (65536 + (c - 55296) * 1024 + (d - 56320))
                ++ utf8_encode rest'
            else three_bytes replacement ++ utf8_encode rest
        | [] => three_bytes replacement
        end
      else if low_surrogate c then
        three_bytes replacement ++ utf8_encode rest
      else if 65535 <? c then three_bytes replacement ++ utf8_encode rest
      else three_bytes c ++ utf8_encode rest
  end.

(** A text as it comes back after it was written to a file and read
    again: pairs of surrogates stay, and each unpaired surrogate is
    U+FFFD. *)
Fixpoint read_back (s : jsstring) : jsstring :=
  match s with
  | [] => []
  | c :: rest =>
      if high_surrogate c then
        match rest with
        | d :: rest' =>
            if low_surrogate d then c :: d :: read_back rest'
            else replacement :: read_back rest
        | [] => [replacement]
        end
      else if low_surrogate c || (65535 <? c) then
        replacement :: read_back rest
      else c :: read_back rest
  end.

(** Well-formed UTF-8: the byte sequences of the Unicode standard. *)
Fixpoint well_formed_utf8 (b : bytes) : bool :=
  match b with
  | [] => true
  | b0 :: rest =>
      if b0 <? 128 then well_formed_utf8 rest
      else if in_range 194 223 b0 then
        match rest with
        | b1 :: rest1 => continuation b1 && well_formed_utf8 rest1
        | [] => false
        end
      else if in_range 224 239 b0 then
        match rest with
        | b1 :: b2 :: rest2 =>
            in_range (if b0 =? 224 then 160 else 128)
              (if b0 =? 237 then 159 else 191) b1
            && continuation b2 && well_formed_utf8 rest2
        | _ => false
        end
      else if in_range 240 244 b0 then
        match rest with
        | b1 :: b2 :: b3 :: rest3 =>
            in_range (if b0 =? 240 then 144 else 128)
              (if b0 =? 244 then 143 else 191) b1
            && continuation b2 && continuation b3 && well_formed_utf8 rest3
        | _ => false
        end
      else false
  end.

End Utf8.
Export Utf8.

(** ** Regular expressions *)

Module Regex.

(** Character classes. [\w] and [\d] are ASCII-only without the [u] and [i]
    flags; [\s] is the ECMAScript WhiteSpace and LineTerminator set. *)
Definition between (lo hi : N) (c : char) : bool :=
  (lo <=? c) && (c <=? hi).

Definition just (a : ascii) (c : char) : bool := char_eqb (chr a) c.

Definition one_of (s : string) (c : char) : bool :=
  existsb (char_eqb c) (str s).

Definition digit (c : char) : bool := between 48 57 c.
Definition upper (c : char) : bool := between 65 90 c.
Definition lower (c : char) : bool := between 97 122 c.
Definition alpha (c : char) : bool := upper c || lower c.
Definition alnum (c : char) : bool := alpha c || digit c.
Definition word (c : char) : bool := alnum c || just "_" c.
Definition hex (c : char) : bool :=
  digit c || between 65 70 c || between 97 102 c.

Definition space (c : char) : bool := whitespace c.

Inductive regex : Type :=
| Empty                                   (* the empty pattern *)
| Class (p : char -> bool)                (* one code unit of a class *)
| Cat (r1 r2 : regex)                     (* r1r2 *)
| Or (r1 r2 : regex)                      (* r1|r2 *)
| Rep (r : regex) (mn : nat) (mx : option nat)  (* greedy r{mn,mx} *)
| Eos.                                    (* $ without the m flag *)

(** A literal string. *)
Fixpoint lit (s : jsstring) : regex :=
  match s with
  | [] => Empty
  | c :: s' => Cat (Class (char_eqb c)) (lit s')
  end.

Definition star (r : regex) : regex := Rep r 0 None.
Definition plus (r : regex) : regex := Rep r 1 None.
Definition opt (r : regex) : regex := Rep r 0 (Some 1%nat).

(** The iterations of a greedy quantifier over a body [step], followed by
    the continuation [k]: first the [n] compulsory ones, then as many
    optional ones as succeed, at most [fuel].  An optional iteration that
    consumes nothing is rejected, as RepeatMatcher does. *)
Section Repeat.
Context {A : Type}.
Variable step : jsstring -> (jsstring -> option A) -> option A.
Variable k : jsstring -> option A.

Fixpoint may (fuel : nat) (s : jsstring) : option A :=
  match fuel with
  | O => k s
  | S fuel' =>
      match step s (fun s' =>
              if (length s' <? length s)%nat then may fuel' s' else None) with
      | Some x => Some x
      | None => k s
      end
  end.

(** Without an upper bound an iteration consumes at least one code
    unit, so the length of the input bounds the optional iterations. *)
Definition optional (mn : nat) (mx : option nat) (s : jsstring) : nat :=
  match mx with
  | Some hi => (hi - mn)%nat
  | None => length s
  end.

Fixpoint must (mn : nat) (mx : option nat) (n : nat) (s : jsstring)
    : option A :=
  match n with
  | O => may (optional mn mx s) s
  | S n' => step s (must mn mx n')
  end.
End Repeat.

(** The matcher: [m r s k] matches [r] at the head of [s] and hands the
    rest to the continuation [k]; a failing continuation makes the matcher
    try its next choice, in the order of the ECMAScript semantics: the
    left alternative first, one more iteration of a greedy quantifier
    first. *)
Fixpoint m {A : Type} (r : regex) (s : jsstring)
    (k : jsstring -> option A) : option A :=
  match r with
  | Empty => k s
  | Class p =>
      match s with
      | c :: s' => if p c then k s' else None
      | [] => None
      end
  | Cat r1 r2 => m r1 s (fun s' => m r2 s' k)
  | Or r1 r2 =>
      match m r1 s k with
      | Some x => Some x
      | None => m r2 s k
      end
  | Rep r' mn mx => must (m r') k mn mx mn s
  | Eos =>
      match s with
      | [] => k s
      | _ :: _ => None
      end
  end.

(** The rest of the input after a match at the head of [s]. *)
Definition match_here (r : regex) (s : jsstring) : option jsstring :=
  m r s Some.

(** [re.exec(s)] / [s.match(re)] for a pattern without look-behind, word
    boundaries or back-references: the leftmost position at which the
    matcher succeeds, as the text before the match, the match and the text
    after it.  The index of the match is the length of the first part. *)
Fixpoint exec (r : regex) (s : jsstring)
    : option (jsstring * jsstring * jsstring) :=
  match match_here r s with
  | Some rest => Some ([], take (length s - length rest)%nat s, rest)
  | None =>
      match s with
      | [] => None
      | c :: s' =>
          match exec r s' with
          | Some (pre, tok, post) => Some (c :: pre, tok, post)
          | None => None
          end
      end
  end.

(** [s.replace(re, f)] without the [g] flag: the first match only. *)
Definition replace_first (r : regex) (f : jsstring -> jsstring)
    (s : jsstring) : jsstring :=
  match exec r s with
  | Some (pre, tok, post) => pre ++ f tok ++ post
  | None => s
  end.

(** [s.replace(re, f)] with the [g] flag: every match, each search
    starting where the previous match ended, one code unit later after an
    empty match. *)
Fixpoint replace_go (fuel : nat) (r : regex) (f : jsstring -> jsstring)
    (s : jsstring) : jsstring :=
  match fuel with
  | O => s
  | S fuel' =>
      match exec r s with
      | None => s
      | Some (pre, tok, post) =>
          pre ++ f tok ++
          match tok, post with
          | [], [] => []
          | [], c :: post' => c :: replace_go fuel' r f post'
          | _ :: _, _ => replace_go fuel' r f post
          end
      end
  end.

Definition replace_all (r : regex) (f : jsstring -> jsstring)
    (s : jsstring) : jsstring :=
  replace_go (S (length s)) r f s.

End Regex.
Export Regex.

(** ** The entry formatter *)

Module Formatter.

(** The pieces of [urlRegex].  The three alternatives share their tail:
    an optional port, any number of path segments, an optional query and an
    optional fragment. *)
Definition host_char (c : char) : bool := just "-" c || word c || just "." c.
Definition path_char (c : char) : bool := word c || one_of "._~!$&'()*+,;=:@" c.
Definition query_char (c : char) : bool := word c || one_of "._~!$&'()*+,;=:@/?" c.
Definition label_char (c : char) : bool := alnum c || just "-" c.

(** A percent sign and two hexadecimal digits. *)
Definition pct : regex :=
  Cat (lit (str "%")) (Rep (Class hex) 2 (Some 2%nat)).

(** Optionally, a colon and one or more digits. *)
Definition port : regex :=
  opt (Cat (lit (str ":")) (plus (Class digit))).

(** Any number of segments, each a slash and any number of path
    characters or percent escapes. *)
Definition path : regex :=
  star (Cat (lit (str "/")) (star (Or (Class path_char) pct))).

(** Optionally, a question mark and any number of query characters or
    percent escapes. *)
Definition query : regex :=
  opt (Cat (lit (str "?")) (star (Or (Class query_char) pct))).

(** Optionally, a hash sign and any number of query characters or percent
    escapes. *)
Definition fragment : regex :=
  opt (Cat (lit (str "#")) (star (Or (Class query_char) pct))).

Definition url_tail : regex := Cat port (Cat path (Cat query fragment)).

(** First alternative: http, an optional s, colon and two slashes, one or
    more host characters, the tail. *)
Definition url_http : regex :=
  Cat (lit (str "http"))
    (Cat (opt (lit (str "s")))
       (Cat (lit (str "://")) (Cat (plus (Class host_char)) url_tail))).

(** Second alternative: www and a dot, one or more host characters, the
    tail. *)
Definition url_www : regex :=
  Cat (lit (str "www.")) (Cat (plus (Class host_char)) url_tail).

(** Third alternative: one or more labels, each an alphanumeric, optionally
    up to 61 alphanumerics or hyphens and one more alphanumeric, and a dot;
    then two or more letters, the tail. *)
Definition domain_label : regex :=
  Cat (Class alnum)
    (Cat (opt (Cat (Rep (Class label_char) 0 (Some 61%nat)) (Class alnum)))
       (lit (str "."))).

Definition url_domain : regex :=
  Cat (plus domain_label) (Cat (Rep (Class alpha) 2 None) url_tail).

Definition urlRegex : regex := Or url_http (Or url_www url_domain).

(** One or more of the six punctuation marks, at the end of the input. *)
Definition punct (c : char) : bool := one_of ".,;:!?" c.
Definition trailingRegex : regex := Cat (plus (Class punct)) Eos.

Definition anchor_open : jsstring := html "<a href='".
Definition anchor_attrs : jsstring :=
  html "' target='_blank' rel='noopener noreferrer'>".
Definition anchor_close : jsstring := str "</a>".

(** The callback of [text.replace(urlRegex, ...)]. *)
Definition linkify (tok : jsstring) : jsstring :=
  let cleanMatch := replace_first trailingRegex (fun _ => []) tok in
  let trailingPunctuation := drop (length cleanMatch) tok in
  let url :=
    if negb (startsWith cleanMatch (str "http://"))
       && negb (startsWith cleanMatch (str "https://"))
       && negb (startsWith cleanMatch (str "ftp://"))
    then str "https://" ++ cleanMatch
    else cleanMatch in
  anchor_open ++ url ++ anchor_attrs ++ cleanMatch ++ anchor_close
    ++ trailingPunctuation.

Definition autoLinkUrls (text : jsstring) : jsstring :=
  replace_all urlRegex linkify text.

End Formatter.
Export Formatter.

(** ** The clock *)

Module Clock.

(** One reading of [new Date()], in local time. *)
Record Date : Type := {
  getFullYear : N;
  getMonth : nat;          (* 0 for January *)
  getDate : N;
  getHours : N;
  getMinutes : N;
  toISOString : jsstring;
  toLocaleString : jsstring
}.

Record DateTime : Type := {
  date : jsstring;
  displayDate : jsstring;
  time : jsstring;
  timestamp : jsstring
}.

Definition monthNames : list jsstring :=
  map str ["January"; "February"; "March"; "April"; "May"; "June";
           "July"; "August"; "September"; "October"; "November";
           "December"]%string.

Definition getCurrentDateTime (now : Date) : DateTime :=
  let year := decimal (getFullYear now) in
  let month := padStart2 (decimal (N.of_nat (getMonth now) + 1)) in
  let day := padStart2 (decimal (getDate now)) in
  let hours := getHours now in
  let minutes := padStart2 (decimal (getMinutes now)) in
  let period := if 12 <=? hours then str "PM" else str "AM" in
  let displayHours := if hours mod 12 =? 0 then 12 else hours mod 12 in
  let monthName := to_text (nth_error monthNames (getMonth now)) in
  {| date := year ++ str "-" ++ month ++ str "-" ++ day;
     displayDate := monthName ++ str " " ++ day ++ str ", " ++ year;
     time := decimal displayHours ++ str ":" ++ minutes ++ str " " ++ period;
     timestamp := toISOString now |}.

End Clock.
Export Clock.

(** ** The world: files, working directory, and what the run did *)

Module World.

(** The files are the bytes under their absolute paths; a file that
    exists can be read and any file can be written.  The trace keeps what
    the run printed, the directories it entered, the commands it started
    and the texts it wrote to files. *)
Inductive event : Type :=
| Log (msg : jsstring)                    (* console.log *)
| Err (msg : jsstring)                    (* console.error *)
| Chdir (dir : jsstring)                  (* process.chdir *)
| ExecSync (cmd : jsstring)               (* child_process.execSync *)
| WriteFile (path data : jsstring).       (* fs.writeFileSync *)

Record world : Type := {
  files : gmap jsstring bytes;            (* the bytes of the files by path *)
  cwd : jsstring;
  trace : list event                      (* oldest first *)
}.

Definition record (e : event) (w : world) : world :=
  {| files := files w; cwd := cwd w; trace := trace w ++ [e] |}.

(** How a computation ends: with a value, in [process.exit(code)], or with
    an exception on its way to the nearest [catch]. *)
Inductive outcome (A : Type) : Type :=
| Done (a : A)
| Exit (code : N)
| Thrown (message : jsstring).
Arguments Done {A} a.
Arguments Exit {A} code.
Arguments Thrown {A} message.

Definition io (A : Type) : Type := world -> outcome A * world.

Definition ret {A : Type} (a : A) : io A := fun w => (Done a, w).

Definition bind {A B : Type} (c : io A) (f : A -> io B) : io B :=
  fun w =>
    match c w with
    | (Done a, w') => f a w'
    | (Exit code, w') => (Exit code, w')
    | (Thrown e, w') => (Thrown e, w')
    end.

Definition exit {A : Type} (code : N) : io A := fun w => (Exit code, w).
Definition throw {A : Type} (e : jsstring) : io A := fun w => (Thrown e, w).

(** [try { body } catch (error) { handler }] *)
Definition try_catch {A : Type} (body : io A) (handler : jsstring -> io A)
    : io A :=
  fun w =>
    match body w with
    | (Thrown e, w') => handler e w'
    | r => r
    end.

Definition emit (e : event) : io unit := fun w => (Done tt, record e w).

Definition console_log (msg : jsstring) : io unit := emit (Log msg).
Definition console_error (msg : jsstring) : io unit := emit (Err msg).

Definition existsSync (path : jsstring) : io bool :=
  fun w => (Done (bool_decide (is_Some (files w !! path))), w).

(** [fs.readFileSync(path, 'utf8')] *)
Definition readFileSync (path : jsstring) : io jsstring :=
  fun w =>
    match files w !! path with
    | Some data => (Done (utf8_decode data), w)
    | None => (Thrown (str "ENOENT: no such file or directory"), w)
    end.

(** [fs.writeFileSync(path, data)] for a string [data] *)
Definition writeFileSync (path data : jsstring) : io unit :=
  fun w =>
    (Done tt,
     record (WriteFile path data)
       {| files := <[path := utf8_encode data]> (files w); cwd := cwd w;
          trace := trace w |}).

End World.
Export World.

Declare Scope io_scope.
Delimit Scope io_scope with io.
Notation "'let*' x := c 'in' k" := (bind c (fun x => k))
  (at level 10, x name, c at level 100, k at level 200) : io_scope.
Notation "c ;; k" := (bind c (fun _ => k))
  (at level 100, k at level 200, right associativity) : io_scope.

(** ** Terminal colours and site configurations *)

Definition esc (code : string) : jsstring := 27 :: str code.

Module colors.
Definition reset : jsstring := esc "[0m".
Definition green : jsstring := esc "[32m".
Definition red : jsstring := esc "[31m".
Definition yellow : jsstring := esc "[33m".
Definition blue : jsstring := esc "[34m".
Definition cyan : jsstring := esc "[36m".
End colors.

Record SiteConfig : Type := {
  path : jsstring;
  file : jsstring;
  branch : jsstring
}.

(** ** The insertion planner *)

Module Planner.

Definition nl : jsstring := [10].

(** The link emoji in the entry markup, U+1F517, as its surrogate pair. *)
Definition link_emoji : jsstring := [55357; 56599].

(** The container marker. *)
Definition timelineMarker : jsstring := html "<div class='rants-timeline'>".
Definition timelineRegex : regex := lit timelineMarker.

(** The opening tag of the day section of [date].  The date key is made
    of digits and hyphens, which stand for themselves in a pattern. *)
Definition dayTag (date : jsstring) : jsstring :=
  html "<div class='rant-day' data-date='" ++ date ++ html "'>".
Definition datePattern (date : jsstring) : regex := lit (dayTag date).

(** The opening tag of a day section up to its date. *)
Definition anyDayTag : jsstring := html "<div class='rant-day' data-date='".
Definition anyDayRegex : regex := lit anyDayTag.

(** The header block of the day section of [date]: the opening tag, the
    header division and the date label, with optional white space between
    the elements and a label without an opening angle bracket. *)
Definition headerOpen : jsstring := html "<div class='date-header'>".
Definition labelOpen : jsstring := html "<span class='date'>".
Definition labelClose : jsstring := html "</span>".
Definition divClose : jsstring := html "</div>".
Definition not_lt (c : char) : bool := negb (just "<" c).

Definition dateHeaderPattern (date : jsstring) : regex :=
  Cat (lit (dayTag date))
    (Cat (star (Class space))
       (Cat (lit headerOpen)
          (Cat (star (Class space))
             (Cat (lit labelOpen)
                (Cat (plus (Class not_lt))
                   (Cat (lit labelClose)
                      (Cat (star (Class space)) (lit divClose)))))))).

(** The replacement of every line feed by a line feed that both templates
    apply to the linked text. *)
Definition relinefeed (s : jsstring) : jsstring :=
  replace_all (lit nl) (fun _ => nl) s.

(** The markup of one entry. *)
Definition entryHTML (rantId time rantText : jsstring) : jsstring :=
  nl ++ nl ++
  html "<div class='rant-entry' id='" ++ rantId ++ html "'>" ++ nl ++
  html "<div class='time-stamp'>" ++ nl ++
  time ++ nl ++
  html "<a href='#" ++ rantId
    ++ html "' class='rant-anchor' title='Link to this rant'>"
    ++ link_emoji ++ html "</a>" ++ nl ++
  html "</div>" ++ nl ++
  html "<div class='rant-content'>" ++ nl ++
  relinefeed (autoLinkUrls rantText) ++ nl ++
  html "</div>" ++ nl ++
  html "</div>".

(** The markup of a new day section holding one entry. *)
Definition sectionHTML (date displayDate rantId time rantText : jsstring)
    : jsstring :=
  nl ++ nl ++
  html "<!-- " ++ date ++ html " -->" ++ nl ++
  html "<div class='rant-day' data-date='" ++ date ++ html "'>" ++ nl ++
  html "<div class='date-header'>" ++ nl ++
  html "<span class='date'>" ++ displayDate ++ html "</span>" ++ nl ++
  html "</div>" ++ nl ++
  nl ++
  html "<div class='rant-entry' id='" ++ rantId ++ html "'>" ++ nl ++
  html "<div class='time-stamp'>" ++ nl ++
  time ++ nl ++
  html "<a href='#" ++ rantId
    ++ html "' class='rant-anchor' title='Link to this rant'>"
    ++ link_emoji ++ html "</a>" ++ nl ++
  html "</div>" ++ nl ++
  html "<div class='rant-content'>" ++ nl ++
  relinefeed (autoLinkUrls rantText) ++ nl ++
  html "</div>" ++ nl ++
  html "</div>" ++ nl ++
  nl ++
  html "</div>".

(** The position and the markup that [insertRant] settles on: the body of
    its [if (existingDateMatch) ... else ...].  In the first branch both
    stay [undefined] when the header block is not found. *)
Definition plan (content date displayDate rantId time rantText : jsstring)
    (timelineStart : nat) : option nat * option jsstring :=
  match exec (datePattern date) content with
  | Some _ =>
      match exec (dateHeaderPattern date) content with
      | Some (before, header, _) =>
          (Some (length before + length header)%nat,
           Some (entryHTML rantId time rantText))
      | None => (None, None)
      end
  | None =>
      let insertPosition :=
        match exec anyDayRegex (drop timelineStart content) with
        | Some (before, _, _) => (timelineStart + length before)%nat
        | None => timelineStart
        end in
      (Some insertPosition,
       Some (sectionHTML date displayDate rantId time rantText))
  end.

(** [content.slice(0, insertPosition) + newRantHTML +
    content.slice(insertPosition)] *)
Definition splice (content : jsstring) (insertPosition : option nat)
    (newRantHTML : option jsstring) : jsstring :=
  slice_to content insertPosition ++ to_text newRantHTML
    ++ slice_from content insertPosition.

Record InsertResult : Type := {
  res_date : jsstring;
  res_time : jsstring;
  preview : jsstring;
  id : jsstring;
  res_site : jsstring
}.

Section InsertRant.
(** [path.join], the reading of the clock and [Date.now()]. *)
Variable path_join : jsstring -> jsstring -> jsstring.
Variable now : Date.
Variable stamp : N.

Local Open Scope io_scope.

Definition insertRant (rantText : jsstring) (siteConfig : SiteConfig)
    : io InsertResult :=
  let dt := getCurrentDateTime now in
  let rantId := str "rant-" ++ date dt ++ str "-" ++ decimal stamp in
  let rantsFile := path_join (path siteConfig) (file siteConfig) in
  let* found := existsSync rantsFile in
  if negb found then
    console_error (colors.red ++ str "Error: Rants file not found at "
                     ++ rantsFile ++ colors.reset);;
    console_log (colors.yellow
                   ++ str "Make sure the site path and file are correct."
                   ++ colors.reset);;
    exit 1
  else
    let* content := readFileSync rantsFile in
    match exec timelineRegex content with
    | None =>
        console_error (colors.red
                         ++ str "Error: Could not find rants-timeline div"
                         ++ colors.reset);;
        exit 1
    | Some (before, marker, _) =>
        let timelineStart := (length before + length marker)%nat in
        let '(insertPosition, newRantHTML) :=
          plan content (date dt) (displayDate dt) rantId (time dt)
            rantText timelineStart in
        let content' := splice content insertPosition newRantHTML in
        writeFileSync rantsFile content';;
        ret {| res_date := displayDate dt;
               res_time := time dt;
               preview := take 50 rantText
                 ++ (if (50 <? length rantText)%nat then str "..." else []);
               id := rantId;
               res_site := path siteConfig |}
    end.
End InsertRant.

End Planner.
Export Planner.

(** ** The synchronisation sequence *)

Module Sync.

Section GitOperations.
(** The children: [spawn dir cmd fs] is what running [cmd] in [dir] over
    the files [fs] prints, or the message of the error it fails with,
    and the files it leaves.  [is_dir] tells the directories that
    [process.chdir] can enter. *)
Variable spawn :
  jsstring -> jsstring -> gmap jsstring jsstring ->
  (jsstring + jsstring) * gmap jsstring jsstring.
Variable is_dir : jsstring -> bool.
Variable now : Date.

Local Open Scope io_scope.

Definition chdir (dir : jsstring) : io unit :=
  fun w =>
    if is_dir dir then
      (Done tt,
       record (Chdir dir)
         {| files := files w; cwd := dir; trace := trace w |})
    else (Thrown (str "ENOENT: no such file or directory, chdir"), w).

Definition execSync (cmd : jsstring) : io jsstring :=
  fun w =>
    let '(result, fs) := spawn (cwd w) cmd (files w) in
    let w' :=
      record (ExecSync cmd)
        {| files := fs; cwd := cwd w; trace := trace w |} in
    match result with
    | inl out => (Done out, w')
    | inr message => (Thrown message, w')
    end.

Definition git_status : jsstring := str "git status --porcelain".
Definition git_add (file : jsstring) : jsstring := str "git add " ++ file.
Definition git_commit (message : jsstring) : jsstring :=
  html "git commit -m '" ++ message ++ html "'".
Definition git_push (branch : jsstring) : jsstring :=
  str "git push origin " ++ branch.
Definition git_pull (branch : jsstring) : jsstring :=
  str "git pull --no-rebase origin " ++ branch.

(** [message || default]: [null] and the empty string are falsy. *)
Definition or_default (message : option jsstring) (default : jsstring)
    : jsstring :=
  match message with
  | Some (c :: rest) => c :: rest
  | _ => default
  end.

Definition gitOperations (commit push : bool) (message : option jsstring)
    (siteConfig : SiteConfig) : io unit :=
  try_catch
    (chdir (path siteConfig);;
     let* status := execSync git_status in
     if negb (includes status (file siteConfig)) then
       console_log (colors.yellow ++ str "No changes to "
                      ++ file siteConfig ++ str " detected"
                      ++ colors.reset)
     else
       execSync (git_add (file siteConfig));;
       console_log (colors.green ++ [10003; 32] ++ str "Added "
                      ++ file siteConfig ++ str " to git"
                      ++ colors.reset);;
       if commit then
         let commitMessage :=
           or_default message (str "Add rant: " ++ toLocaleString now) in
         execSync (git_commit commitMessage);;
         console_log (colors.green ++ [10003; 32]
                        ++ str "Committed changes" ++ colors.reset);;
         if push then
           console_log (colors.blue ++ str "Pushing to GitHub (branch: "
                          ++ branch siteConfig ++ str ")..."
                          ++ colors.reset);;
           execSync (git_push (branch siteConfig));;
           console_log (colors.green ++ [10003; 32]
                          ++ str "Pushed to GitHub" ++ colors.reset)
         else ret tt
       else ret tt)
    (fun message =>
       console_error (colors.red ++ str "Git operation failed: "
                        ++ message ++ colors.reset);;
       exit 1).
End GitOperations.

End Sync.
Export Sync.

(** ** The command line *)

Module Cli.

Record Options : Type := {
  commit : bool;
  push : bool;
  editor : bool;
  guiEditor : bool;
  message : option jsstring;
  rantText : option jsstring;
  aiFormat : bool;
  site : jsstring;
  config : bool;
  showEnv : bool
}.

Definition defaults : Options :=
  {| commit := false; push := false; editor := false; guiEditor := false;
     message := None; rantText := None; aiFormat := false;
     site := str "tourwithmark"; config := false; showEnv := false |}.

Definition set_commit (o : Options) : Options :=
  {| commit := true; push := push o; editor := editor o;
     guiEditor := guiEditor o; message := message o;
     rantText := rantText o; aiFormat := aiFormat o; site := site o;
     config := config o; showEnv := showEnv o |}.
Definition set_push (o : Options) : Options :=
  {| commit := commit o; push := true; editor := editor o;
     guiEditor := guiEditor o; message := message o;
     rantText := rantText o; aiFormat := aiFormat o; site := site o;
     config := config o; showEnv := showEnv o |}.
Definition set_editor (o : Options) : Options :=
  {| commit := commit o; push := push o; editor := true;
     guiEditor := guiEditor o; message := message o;
     rantText := rantText o; aiFormat := aiFormat o; site := site o;
     config := config o; showEnv := showEnv o |}.
Definition set_guiEditor (o : Options) : Options :=
  {| commit := commit o; push := push o; editor := editor o;
     guiEditor := true; message := message o;
     rantText := rantText o; aiFormat := aiFormat o; site := site o;
     config := config o; showEnv := showEnv o |}.
Definition set_message (v : jsstring) (o : Options) : Options :=
  {| commit := commit o; push := push o; editor := editor o;
     guiEditor := guiEditor o; message := Some v;
     rantText := rantText o; aiFormat := aiFormat o; site := site o;
     config := config o; showEnv := showEnv o |}.
Definition set_rantText (v : jsstring) (o : Options) : Options :=
  {| commit := commit o; push := push o; editor := editor o;
     guiEditor := guiEditor o; message := message o;
     rantText := Some v; aiFormat := aiFormat o; site := site o;
     config := config o; showEnv := showEnv o |}.
Definition set_aiFormat (o : Options) : Options :=
  {| commit := commit o; push := push o; editor := editor o;
     guiEditor := guiEditor o; message := message o;
     rantText := rantText o; aiFormat := true; site := site o;
     config := config o; showEnv := showEnv o |}.
Definition set_site (v : jsstring) (o : Options) : Options :=
  {| commit := commit o; push := push o; editor := editor o;
     guiEditor := guiEditor o; message := message o;
     rantText := rantText o; aiFormat := aiFormat o; site := v;
     config := config o; showEnv := showEnv o |}.
Definition set_config (o : Options) : Options :=
  {| commit := commit o; push := push o; editor := editor o;
     guiEditor := guiEditor o; message := message o;
     rantText := rantText o; aiFormat := aiFormat o; site := site o;
     config := true; showEnv := showEnv o |}.
Definition set_showEnv (o : Options) : Options :=
  {| commit := commit o; push := push o; editor := editor o;
     guiEditor := guiEditor o; message := message o;
     rantText := rantText o; aiFormat := aiFormat o; site := site o;
     config := config o; showEnv := true |}.

(** [case a: case b:] of the [switch] over [args[i]]. *)
Definition is_case (arg : jsstring) (labels : list string) : bool :=
  existsb (fun label => jsstring_eqb arg (str label)) labels.

(** [SITES[name]] for the table of sites, its keys in their order.  The
    names that every object inherits (constructor and the like) are not
    site names here. *)
Fixpoint lookup_site (name : jsstring) (sites : list (jsstring * SiteConfig))
    : option SiteConfig :=
  match sites with
  | [] => None
  | (key, cfg) :: rest =>
      if jsstring_eqb key name then Some cfg else lookup_site name rest
  end.

Section ParseArgs.
(** The table of sites, once loaded; [String.prototype.toLowerCase]; the
    printing of the help text. *)
Variable SITES : list (jsstring * SiteConfig).
Variable toLowerCase : jsstring -> jsstring.
Variable showHelp : io unit.

Local Open Scope io_scope.

(** The [for] loop of [parseArgs]; [args] is what is left of the
    arguments from index [i] on, so that [args[i]] is its head,
    [args[++i]] the head of its tail and [args.slice(i)] the list
    itself. *)
Fixpoint parseLoop (args : list jsstring) (options : Options)
    : io Options :=
  match args with
  | [] => ret options
  | arg :: rest =>
      if is_case arg ["-c"; "--commit"]%string then
        parseLoop rest (set_commit options)
      else if is_case arg ["-p"; "--push"]%string then
        parseLoop rest (set_commit (set_push options))
      else if is_case arg ["-e"; "--editor"]%string then
        parseLoop rest (set_editor options)
      else if is_case arg ["--gui"]%string then
        parseLoop rest (set_editor (set_guiEditor options))
      else if is_case arg ["-m"; "--message"]%string then
        match rest with
        | value :: rest' => parseLoop rest' (set_message value options)
        | [] => parseLoop rest options
        end
      else if is_case arg ["-f"; "--format"]%string then
        parseLoop rest (set_aiFormat options)
      else if is_case arg ["-s"; "--site"]%string then
        match rest with
        | value :: rest' =>
            let site := toLowerCase value in
            match lookup_site site SITES with
            | Some _ => parseLoop rest' (set_site site options)
            | None =>
                console_error (colors.red ++ str "Error: Unknown site '"
                                 ++ site ++ str "'" ++ colors.reset);;
                console_log (colors.yellow ++ str "Available sites: "
                               ++ join (str ", ") (map fst SITES)
                               ++ colors.reset);;
                exit 1
            end
        | [] => parseLoop rest options
        end
      else if is_case arg ["--config"]%string then
        parseLoop rest (set_config options)
      else if is_case arg ["--env"]%string then
        parseLoop rest (set_showEnv options)
      else if is_case arg ["-h"; "--help"]%string then
        showHelp;; exit 0
      else if negb (startsWith arg (str "-")) then
        ret (set_rantText (join (str " ") (arg :: rest)) options)
      else parseLoop rest options
  end.

Definition parseArgs (argv : list jsstring) : io Options :=
  parseLoop argv defaults.
End ParseArgs.

End Cli.
Export Cli.

(** ** The main function *)

Module Main.

Section Main.
Variable SITES : list (jsstring * SiteConfig).
Variable toLowerCase : jsstring -> jsstring.
Variable path_join : jsstring -> jsstring -> jsstring.
Variable spawn :
  jsstring -> jsstring -> gmap jsstring jsstring ->
  (jsstring + jsstring) * gmap jsstring jsstring.
Variable is_dir : jsstring -> bool.
Variable now : Date.
Variable stamp : N.
(** The collaborators outside the core. *)
Variable showHelp : io unit.
Variable showEnvironmentInfo : io unit.
Variable manageConfig : io unit.
Variable readFromStdin : io (option jsstring).
Variable openEditor : bool -> io jsstring.
Variable formatWithAI : jsstring -> io jsstring.

Local Open Scope io_scope.

(** [!rantText]: [null] and the empty string are falsy. *)
Definition falsy (text : option jsstring) : bool :=
  match text with
  | Some (_ :: _) => false
  | _ => true
  end.

(** The first block of [main] after the site is known: the rant text
    from the command line, the standard input or the editor, checked
    and, on request, reformatted. *)
Definition main_text (options : Options) : io jsstring :=
  let rantText := rantText options in
  let* rantText :=
    if falsy rantText && negb (editor options) then readFromStdin
    else ret rantText in
  let* rantText :=
    if falsy rantText && editor options then
      let* text := openEditor (guiEditor options) in ret (Some text)
    else ret rantText in
  match rantText with
  | Some (c :: rest) =>
      let rantText := c :: rest in
      if jsstring_eqb (trim rantText) [] then
        console_error (colors.red ++ str "Error: No rant text provided"
                         ++ colors.reset);;
        console_log (colors.yellow ++ str "Use -h for help"
                       ++ colors.reset);;
        exit 1
      else if aiFormat options then formatWithAI (trim rantText)
      else ret rantText
  | _ =>
      console_error (colors.red ++ str "Error: No rant text provided"
                       ++ colors.reset);;
      console_log (colors.yellow ++ str "Use -h for help"
                     ++ colors.reset);;
      exit 1
  end.

(** The block [if (options.push) { try { ... } catch { ... } }]. *)
Definition main_pull (options : Options) (siteConfig : SiteConfig)
    : io unit :=
  if push options then
    try_catch
      (chdir is_dir (path siteConfig);;
       console_log (colors.blue ++ str "Pulling latest changes..."
                      ++ colors.reset);;
       execSync spawn (git_pull (branch siteConfig));;
       console_log (colors.green ++ [10003; 32]
                      ++ str "Updated to latest version" ++ colors.reset))
      (fun _ =>
         console_error (colors.yellow
                          ++ str "Warning: Could not pull latest changes"
                          ++ colors.reset);;
         console_error (colors.yellow
                          ++ str "You may need to manually sync before pushing"
                          ++ colors.reset);;
         exit 1)
  else ret tt.

(** The rest of [main]: the insertion and the git operations. *)
Definition main_insert (options : Options) (siteConfig : SiteConfig)
    (rantText : jsstring) : io unit :=
  console_log (colors.blue ++ str "Adding rant..." ++ colors.reset);;
  let* result := insertRant path_join now stamp (trim rantText) siteConfig in
  console_log (colors.green ++ [10003; 32]
                 ++ str "Rant added successfully!" ++ colors.reset);;
  console_log (colors.cyan ++ str "Date: " ++ res_date result
                 ++ str ", Time: " ++ res_time result ++ colors.reset);;
  console_log (colors.cyan ++ str "Anchor link: #" ++ id result
                 ++ colors.reset);;
  if commit options || push options then
    gitOperations spawn is_dir now (commit options) (push options)
      (message options) siteConfig
  else ret tt.

Definition main (argv : list jsstring) : io unit :=
  let* options := parseArgs SITES toLowerCase showHelp argv in
  if showEnv options then showEnvironmentInfo
  else if config options then manageConfig
  else
    match lookup_site (site options) SITES with
    | None =>
        throw (str "Cannot read properties of undefined (reading 'path')")
    | Some siteConfig =>
        console_log (colors.cyan ++ str "Using site: " ++ site options
                       ++ colors.reset);;
        console_log (colors.cyan ++ str "Path: " ++ path siteConfig
                       ++ colors.reset);;
        let* rantText := main_text options in
        main_pull options siteConfig;;
        main_insert options siteConfig rantText
    end.

(** [main().catch(error => ...)] *)
Definition run : list jsstring -> io unit :=
  fun argv =>
    try_catch (main argv)
      (fun message =>
         console_error (colors.red ++ str "Error: " ++ message
                          ++ colors.reset);;
         exit 1).
End Main.

End Main.
Export Main.

(** ** A sample site, sample documents and sample children *)

Module Sample.

Definition join2 (a b : jsstring) : jsstring := a ++ str "/" ++ b.

Definition site : SiteConfig :=
  {| path := str "/srv/tour"; file := str "rants.qmd"; branch := str "main" |}.

Definition sites : list (jsstring * SiteConfig) :=
  [(str "tourwithmark", site)].

Definition rantsFile : jsstring := str "/srv/tour/rants.qmd".

(** 1 January 2024, 15:07, and the same day at 16:30. *)
Definition afternoon : Date :=
  {| getFullYear := 2024; getMonth := 0; getDate := 1; getHours := 15;
     getMinutes := 7; toISOString := str "2024-01-01T15:07:00.000Z";
     toLocaleString := str "1/1/2024, 3:07:00 PM" |}.

Definition later : Date :=
  {| getFullYear := 2024; getMonth := 0; getDate := 1; getHours := 16;
     getMinutes := 30; toISOString := str "2024-01-01T16:30:00.000Z";
     toLocaleString := str "1/1/2024, 4:30:00 PM" |}.

Definition stampA : N := 1704121620000.
Definition stampB : N := 1704126600000.

(** A disk with the rants file alone.  The sample pages are ASCII: their
    bytes are their code units. *)
Definition on_disk (content : bytes) : world :=
  {| files := {[ rantsFile := content ]}; cwd := str "/home/mark";
     trace := [] |}.

Definition day_section (day label entries : jsstring) : jsstring :=
  dayTag day ++ nl ++ headerOpen ++ nl ++ labelOpen ++ label ++ labelClose
    ++ nl ++ divClose ++ entries ++ nl ++ divClose.

(** The marker alone; a page without the marker; a page with a section of
    1 January 2024; a page with a section of 31 December 2023 only; a page
    whose section of 1 January 2024 has lost its header block. *)
Definition only_marker : jsstring := timelineMarker.

Definition no_marker : jsstring :=
  html "<h1>Rants</h1>" ++ nl ++ html "<div class='timeline'>" ++ nl
    ++ divClose.

Definition with_today : jsstring :=
  html "<!-- rants -->" ++ nl ++ timelineMarker ++ nl ++ str "  "
    ++ day_section (str "2024-01-01") (str "January 01, 2024")
         (nl ++ html "<div class='rant-entry' id='old'>first</div>")
    ++ nl ++ divClose ++ nl.

Definition with_yesterday : jsstring :=
  html "<!-- rants -->" ++ nl ++ timelineMarker ++ nl ++ str "  "
    ++ day_section (str "2023-12-31") (str "December 31, 2023") []
    ++ nl ++ divClose ++ nl.

Definition malformed : jsstring :=
  timelineMarker ++ nl ++ dayTag (str "2024-01-01") ++ nl
    ++ html "<p>no header here</p>" ++ nl ++ divClose ++ nl ++ divClose.

(** The bytes of a page that was saved as Latin-1: the e with an acute
    accent is the single byte 233, which is not UTF-8. *)
Definition latin1_page : bytes :=
  str "<!-- caf" ++ [233] ++ str " -->" ++ nl ++ timelineMarker.

(** Children: a repository in which every command succeeds and prints
    nothing; one in which the pull fails; one whose status names the file. *)
Definition quiet (dir cmd : jsstring) (fs : gmap jsstring jsstring)
    : (jsstring + jsstring) * gmap jsstring jsstring :=
  (inl [], fs).


(** A repository in which only a backup next to the rants file has
    changed: the status names [rants.qmd.bak], every command succeeds. *)
Definition namesake (dir cmd : jsstring) (fs : gmap jsstring jsstring)
    : (jsstring + jsstring) * gmap jsstring jsstring :=
  if startsWith cmd (str "git status") then
    (inl (str " M rants.qmd.bak" ++ [10]), fs)
  else (inl [], fs).

Definition any_dir (dir : jsstring) : bool := true.

Definition nothing : io unit := ret tt.
Definition no_stdin : io (option jsstring) := ret None.
Definition no_editor (gui : bool) : io jsstring := ret [].
Definition no_format (text : jsstring) : io jsstring := ret text.
Definition same_case (s : jsstring) : jsstring := s.

End Sample.

(** ** The format of the page

    The elements of a rants page as they stand in the file, written out:
    the container marker, the opening tag of a day section, the header
    block of a day, an entry with its id, its time stamp and its content,
    and a day section with a comment line, a header block and one entry. *)

Module Page.

Definition lf : jsstring := [10].

Definition marker : jsstring := html "<div class='rants-timeline'>".

Definition day_any : jsstring := html "<div class='rant-day' data-date='".

Definition day_tag (day : jsstring) : jsstring := day_any ++ day ++ html "'>".

Definition entry_any : jsstring := html "<div class='rant-entry' id='".

Definition header (day white1 white2 label white3 : jsstring) : jsstring :=
  day_tag day ++ white1 ++ html "<div class='date-header'>" ++ white2
    ++ html "<span class='date'>" ++ label ++ html "</span>" ++ white3
    ++ html "</div>".

Definition entry (id time body : jsstring) : jsstring :=
  lf ++ lf ++ entry_any ++ id ++ html "'>" ++ lf
    ++ html "<div class='time-stamp'>" ++ lf
    ++ time ++ lf
    ++ html "<a href='#" ++ id
    ++ html "' class='rant-anchor' title='Link to this rant'>"
    ++ [55357; 56599] ++ html "</a>" ++ lf
    ++ html "</div>" ++ lf
    ++ html "<div class='rant-content'>" ++ lf
    ++ body ++ lf
    ++ html "</div>" ++ lf
    ++ html "</div>".

Definition section (day label id time body : jsstring) : jsstring :=
  lf ++ lf ++ html "<!-- " ++ day ++ html " -->" ++ lf
    ++ header day lf lf label lf
    ++ entry id time body
    ++ lf ++ lf ++ html "</div>".

(** The text before the first occurrence of [needle] and the text after
    it. *)
Fixpoint split_at_first (needle s : jsstring) {struct s}
    : option (jsstring * jsstring) :=
  if startsWith s needle then Some ([], drop (length needle) s)
  else
    match s with
    | [] => None
    | c :: s' =>
        match split_at_first needle s' with
        | Some (gap, rest) => Some (c :: gap, rest)
        | None => None
        end
    end.

End Page.

(** ** Notions used to state the properties *)

Module Notions.

(** The input after its longest prefix in the class [p]. *)
Fixpoint skip (p : char -> bool) (s : jsstring) : jsstring :=
  match s with
  | c :: s' => if p c then skip p s' else s
  | [] => []
  end.

(** The number of positions of [s] at which [needle] occurs. *)
Fixpoint count_sub (needle s : jsstring) : nat :=
  (if startsWith s needle then 1 else 0) +
  match s with
  | [] => 0
  | _ :: s' => count_sub needle s'
  end.

(** The words of a pattern: what a match of it can consume. *)
#[warnings="-register-all"]
Inductive matches : regex -> jsstring -> Prop :=
| matches_Empty : matches Empty []
| matches_Class p c : p c = true -> matches (Class p) [c]
| matches_Cat r1 r2 w1 w2 :
    matches r1 w1 -> matches r2 w2 -> matches (Cat r1 r2) (w1 ++ w2)
| matches_Or_l r1 r2 w : matches r1 w -> matches (Or r1 r2) w
| matches_Or_r r1 r2 w : matches r2 w -> matches (Or r1 r2) w
| matches_Rep r mn mx ws :
    Forall (matches r) ws ->
    (mn <= length ws)%nat ->
    (forall hi, mx = Some hi -> (length ws <= Nat.max mn hi)%nat) ->
    matches (Rep r mn mx) (concat ws)
| matches_Eos : matches Eos [].

(** A matching step whose every success is the continuation's success on
    what is left after a word of [r]. *)
Definition sound_for {A : Type} (r : regex)
    (step : jsstring -> (jsstring -> option A) -> option A) : Prop :=
  forall s k x,
    step s k = Some x ->
    exists w rest, s = w ++ rest /\ matches r w /\ k rest = Some x.

(** [match.replace(trailing, '')], the [cleanMatch] of the link callback. *)
Definition cleaned (tok : jsstring) : jsstring :=
  replace_first trailingRegex (fun _ => []) tok.

(** The anchor element that the link callback builds. *)
Definition anchor (target text : jsstring) : jsstring :=
  anchor_open ++ target ++ anchor_attrs ++ text ++ anchor_close.

(** A link text with one of the two schemes that the pattern knows. *)
Definition has_scheme (url : jsstring) : bool :=
  startsWith url (str "http://") || startsWith url (str "https://").

(** The six punctuation marks: full stop, comma, semicolon, colon,
    exclamation mark and question mark. *)
Definition mark (c : char) : Prop := In c [46; 44; 59; 58; 33; 63].

(** Reading a literal off the head of the input. *)
Definition eat (l s : jsstring) : option jsstring :=
  if startsWith s l then Some (drop (length l) s) else None.

(** The header pattern read from left to right without going back: each
    run of white space and the label are taken whole. *)
Definition header_scan (day s : jsstring) : option jsstring :=
  s1 ← eat (dayTag day) s;
  s2 ← eat headerOpen (skip space s1);
  s3 ← eat labelOpen (skip space s2);
  match s3 with
  | [] => None
  | c :: s4 =>
      if not_lt c then
        s5 ← eat labelClose (skip not_lt s4);
        eat divClose (skip space s5)
      else None
  end.

(** A header block: the opening tag of the day, the header division and
    the label, with white space [w1], [w2], [w3] between the elements. *)
Definition header_block (day w1 w2 label w3 : jsstring) : jsstring :=
  dayTag day ++ w1 ++ headerOpen ++ w2 ++ labelOpen ++ label ++ labelClose
    ++ w3 ++ divClose.

(** The date key, the entry and the new section of an insertion at the
    reading [now] of the clock, with [stamp] from [Date.now()]. *)
Definition day_of (now : Date) : jsstring := date (getCurrentDateTime now).

Definition rantId_of (now : Date) (stamp : N) : jsstring :=
  str "rant-" ++ day_of now ++ str "-" ++ decimal stamp.

Definition entry_of (now : Date) (stamp : N) (rantText : jsstring)
    : jsstring :=
  entryHTML (rantId_of now stamp) (time (getCurrentDateTime now)) rantText.

Definition section_of (now : Date) (stamp : N) (rantText : jsstring)
    : jsstring :=
  sectionHTML (day_of now) (displayDate (getCurrentDateTime now))
    (rantId_of now stamp) (time (getCurrentDateTime now)) rantText.

(** The code units of a date key. *)
Definition date_char (c : char) : bool := digit c || just "-" c.

(** The flags of [parseArgs] that take the next argument as their value. *)
Definition takes_value (arg : jsstring) : bool :=
  is_case arg ["-m"; "--message"; "-s"; "--site"]%string.

(** Arguments that are all read as flags or as values of flags: each one
    either starts with a hyphen or follows a flag that takes a value. *)
Fixpoint flags_only (args : list jsstring) : bool :=
  match args with
  | [] => true
  | arg :: rest =>
      if takes_value arg then
        match rest with
        | [] => false
        | _ :: rest' => flags_only rest'
        end
      else startsWith arg (str "-") && flags_only rest
  end.

(** The text that the program reads from a file. *)
Definition text_at (w : world) (path : jsstring) : option jsstring :=
  utf8_decode <$> (files w !! path).

(** The lines of a text, and the paths that a porcelain status lists:
    each line is two status letters, a space and a path. *)
Fixpoint lines (s : jsstring) : list jsstring :=
  match s with
  | [] => [[]]
  | c :: s' =>
      if c =? 10 then [] :: lines s'
      else
        match lines s' with
        | line :: rest => (c :: line) :: rest
        | [] => [[c]]
        end
  end.

Definition status_paths (status : jsstring) : list jsstring :=
  map (drop 3) (lines status).

Definition reports_change (status file : jsstring) : Prop :=
  In file (status_paths status).

(** The commands that a run started and the files that it wrote, oldest
    first. *)
Fixpoint commands (t : list event) : list jsstring :=
  match t with
  | [] => []
  | ExecSync cmd :: t' => cmd :: commands t'
  | _ :: t' => commands t'
  end.

Fixpoint writes (t : list event) : list (jsstring * jsstring) :=
  match t with
  | [] => []
  | WriteFile path data :: t' => (path, data) :: writes t'
  | _ :: t' => writes t'
  end.

(** No occurrence of [needle] starts inside [x] when [y] follows [x]. *)
Definition sealed (needle x y : jsstring) : Prop :=
  forall k b2, x = k ++ b2 -> b2 <> [] -> startsWith (b2 ++ y) needle = false.

(** [s] and [needle] say the same as far as both reach. *)
Definition agrees (s needle : jsstring) : bool :=
  startsWith (s ++ drop (length s) needle) needle.

(** The suffixes of a string, the empty one apart. *)
Fixpoint suffixes (l : jsstring) : list jsstring :=
  match l with
  | [] => []
  | _ :: l' => l :: suffixes l'
  end.

(** A literal none of whose suffixes can start [needle]. *)
Definition clashes (needle l : jsstring) : bool :=
  forallb (fun s => negb (agrees s needle)) (suffixes l).

(** A needle shaped like the opening tag of a division: it starts with
    an opening angle bracket and the letter d and holds no other opening
    angle bracket and no line feed. *)
Definition tag_shaped (n : jsstring) : Prop :=
  exists n', n = 60 :: 100 :: n' /\ ~ In 60 n' /\ ~ In 10 n'.

(** Every class of the pattern lies within [q]. *)
Fixpoint classes_within (q : char -> bool) (r : regex) : Prop :=
  match r with
  | Empty | Eos => True
  | Class p => forall c, p c = true -> q c = true
  | Cat r1 r2 | Or r1 r2 => classes_within q r1 /\ classes_within q r2
  | Rep r' _ _ => classes_within q r'
  end.

(** Visible ASCII other than the double quote and the angle brackets. *)
Definition url_safe (c : char) : bool :=
  between 33 126 c && negb (c =? 34) && negb (c =? 60) && negb (c =? 62).

End Notions.
Export Notions.

(** ** More notions *)

Module MoreNotions.



(** What [parseArgs] keeps true of the options: a push comes with a
    commit, the GUI editor with the editor mode. *)
Definition consistent (o : Options) : Prop :=
  (push o = true -> commit o = true) /\
  (guiEditor o = true -> editor o = true).


(** The commands of [gitOperations] in the order of the source. *)
Definition git_sequence (now : Date) (message : option jsstring)
    (siteConfig : SiteConfig) : list jsstring :=
  [git_status; git_add (file siteConfig);
   git_commit (or_default message (str "Add rant: " ++ toLocaleString now));
   git_push (branch siteConfig)].

(** How many of them a run without a failure starts once the status names
    the file. *)
Definition steps (commit push : bool) : nat :=
  if commit then if push then 4 else 3 else 2.

(** The comment line that [insertRant] puts before a new day section,
    with the two line feeds before it and the one after it. *)
Definition day_comment (day : jsstring) : jsstring :=
  nl ++ nl ++ html "<!-- " ++ day ++ html " -->" ++ nl.


End MoreNotions.
Export MoreNotions.

Module FormatterNotions.

(** Neither a dot nor a colon. *)
Definition plain_char (c : char) : bool := negb (c =? 46) && negb (c =? 58).

End FormatterNotions.
Export FormatterNotions.

Module ClockNotions.

(** Two readings of the clock on the same calendar day. *)
Definition same_day (d1 d2 : Date) : Prop :=
  getFullYear d1 = getFullYear d2 /\
  getMonth d1 = getMonth d2 /\
  getDate d1 = getDate d2.

(** What a JavaScript date returns: a month from 0 to 11 and a day of the
    month from 1 to 31. *)
Definition calendar (d : Date) : Prop :=
  (getMonth d <= 11)%nat /\ 1 <= getDate d <= 31.

(** The numbers below one hundred. *)
Definition centum : list N := map N.of_nat (seq 0 100).

End ClockNotions.
Export ClockNotions.

Module MoreSample.

(** A disk without the rants file. *)
Definition empty_disk : world :=
  {| files := ∅; cwd := str "/home/mark"; trace := [] |}.


Definition commit_fails (dir cmd : jsstring) (fs : gmap jsstring jsstring)
    : (jsstring + jsstring) * gmap jsstring jsstring :=
  if jsstring_eqb cmd git_status then (inl (str " M rants.qmd" ++ [10]), fs)
  else if startsWith cmd (str "git commit") then
    (inr (str "Command failed: git commit"), fs)
  else (inl [], fs).

(** 2 January 2024, 09:00. *)
Definition next_day : Date :=
  {| getFullYear := 2024; getMonth := 0; getDate := 2; getHours := 9;
     getMinutes := 0; toISOString := str "2024-01-02T09:00:00.000Z";
     toLocaleString := str "1/2/2024, 9:00:00 AM" |}.

End MoreSample.

(** ** The environment, the editor and the reformatting

    The functions of the script around the core: where the sites live,
    the text typed in an editor, the text reformatted by a child. *)

Module Env.

Section Environment.
(** [os.platform()], [os.hostname()], [os.homedir()],
    [process.env.DROPLET_ENV] and [path.join]. *)
Variable platform : jsstring.
Variable hostname : jsstring.
Variable homedir : jsstring.
Variable DROPLET_ENV : option jsstring.
Variable path_join : jsstring -> jsstring -> jsstring.

Definition getEnvironment : jsstring :=
  if jsstring_eqb platform (str "linux")
     && (includes hostname (str "droplet") || negb (falsy DROPLET_ENV))
  then str "droplet"
  else if jsstring_eqb platform (str "darwin") then str "macos"
  else str "linux".

Definition getBaseDirectory : jsstring :=
  let env := getEnvironment in
  let homeDir := homedir in
  if jsstring_eqb env (str "macos") then path_join homeDir (str "Developer")
  else if jsstring_eqb env (str "droplet") || jsstring_eqb env (str "linux")
  then path_join homeDir (str "projects")
  else path_join homeDir (str "projects").
End Environment.

End Env.
Export Env.

Module Editor.

(** [s.split(sep)] for a separator of one code unit: the pieces between
    the separators, one more than there are separators. *)
Fixpoint split (sep : char) (s : jsstring) : list jsstring :=
  match s with
  | [] => [[]]
  | c :: s' =>
      if char_eqb c sep then [] :: split sep s'
      else
        match split sep s' with
        | part :: parts => (c :: part) :: parts
        | [] => [[c]]
        end
  end.

(** [fs.unlinkSync(path)] *)
Definition unlinkSync (path : jsstring) : io unit :=
  fun w =>
    match files w !! path with
    | Some _ =>
        (Done tt,
         {| files := delete path (files w); cwd := cwd w;
            trace := trace w |})
    | None => (Thrown (str "ENOENT: no such file or directory, unlink"), w)
    end.

Definition guiEditors : list jsstring :=
  map str ["code --wait"; "subl --wait"; "atom --wait";
           "open -W -a TextEdit"; "gedit"; "notepad"]%string.

(** The text that [formatWithAI] sends to the child. *)
Definition ai_prompt (text : jsstring) : jsstring :=
  str "Please format and improve the following text for a blog rant/post. "
    ++ nl ++
  str "Make it more readable by:" ++ nl ++
  str "- Adding proper paragraph breaks where needed" ++ nl ++
  str "- Converting lists into bullet points or numbered lists where appropriate"
    ++ nl ++
  str "- Fixing any obvious grammar or spelling errors" ++ nl ++
  str "- Improving sentence structure for clarity" ++ nl ++
  str "- Adding emphasis (bold/italic) where it would help" ++ nl ++
  str "- Ensuring proper capitalization and punctuation" ++ nl ++
  nl ++
  str "Keep the original tone and meaning intact. Do not add conclusions, summaries, or additional content. "
    ++ nl ++
  str "Only format and structure what's already there." ++ nl ++
  nl ++
  str "Here's the text to format:" ++ nl ++
  nl ++
  text ++ nl ++
  nl ++
  str "Please output ONLY the formatted text, nothing else.".

Section Editor.
(** [path.join], [os.tmpdir()], [Date.now()], [process.env.EDITOR] and
    the children. *)
Variable path_join : jsstring -> jsstring -> jsstring.
Variable tmpdir : jsstring.
Variable stamp : N.
Variable EDITOR : option jsstring.
Variable spawn :
  jsstring -> jsstring -> gmap jsstring jsstring ->
  (jsstring + jsstring) * gmap jsstring jsstring.

Local Open Scope io_scope.

(** [guiEditors.find(ed => ...)]: the first editor whose first word
    [which] knows. *)
Fixpoint find_editor (eds : list jsstring) : io (option jsstring) :=
  match eds with
  | [] => ret None
  | ed :: rest =>
      let* found :=
        try_catch
          (execSync spawn (str "which " ++ to_text (head (split 32 ed)));;
           ret true)
          (fun _ => ret false) in
      if found then ret (Some ed) else find_editor rest
  end.

Definition tempFile : jsstring :=
  path_join tmpdir (str "rant-" ++ decimal stamp ++ str ".md").

Definition openEditor (useGui : bool) : io jsstring :=
  writeFileSync tempFile (str "# Type your rant below this line" ++ nl ++ nl);;
  let* editor :=
    if useGui then
      let* editor := find_editor guiEditors in
      if falsy editor then
        console_log (colors.yellow
          ++ str "No GUI editor found. Install VS Code, Sublime Text, or set EDITOR environment variable."
          ++ colors.reset);;
        console_log (colors.yellow
          ++ str "Falling back to terminal editor..." ++ colors.reset);;
        ret (or_default EDITOR (str "nano"))
      else ret (to_text editor)
    else ret (or_default EDITOR (str "nano")) in
  try_catch
    (console_log (colors.blue ++ str "Opening editor: " ++ editor
                    ++ colors.reset);;
     execSync spawn (editor ++ html " '" ++ tempFile ++ html "'");;
     let* content := readFileSync tempFile in
     unlinkSync tempFile;;
     ret (trim (join nl (drop 2 (split 10 content)))))
    (fun message =>
       console_error (colors.red ++ str "Error opening editor: " ++ message
                        ++ colors.reset);;
       exit 1).

Definition tempPromptFile : jsstring :=
  path_join tmpdir (str "rant-prompt-" ++ decimal stamp ++ str ".txt").

Definition formatWithAI (text : jsstring) : io jsstring :=
  console_log (colors.blue ++ str "Formatting with AI..." ++ colors.reset);;
  try_catch
    (writeFileSync tempPromptFile (ai_prompt text);;
     let* result :=
       execSync spawn (html "cat '" ++ tempPromptFile ++ html "' | claude") in
     unlinkSync tempPromptFile;;
     let formattedText := trim result in
     console_log (colors.green ++ [10003; 32]
                    ++ str "AI formatting complete" ++ colors.reset);;
     ret formattedText)
    (fun message =>
       console_error (colors.yellow
         ++ str "Warning: AI formatting failed, using original text"
         ++ colors.reset);;
       console_error (colors.yellow ++ str "Error: " ++ message
                        ++ colors.reset);;
       ret text).
End Editor.

End Editor.
Export Editor.

Module EditorSample.

Definition tmp : jsstring := str "/tmp".

(** An editor in which the user types two lines below the instruction
    line and the empty line; an editor that cannot be started; a
    reformatting child that answers; one that fails. *)
Definition typist (dir cmd : jsstring) (fs : gmap jsstring jsstring)
    : (jsstring + jsstring) * gmap jsstring jsstring :=
  (inl [],
   <[tempFile Sample.join2 tmp Sample.stampA :=
       str "# Type your rant below this line" ++ nl ++ nl
         ++ str "  first line" ++ nl ++ str "second line" ++ nl]> fs).


Definition answers (dir cmd : jsstring) (fs : gmap jsstring jsstring)
    : (jsstring + jsstring) * gmap jsstring jsstring :=
  (inl (str "Better text." ++ nl), fs).

End EditorSample.

(** * Facts about strings and the matcher *)

Module StringFacts.

Lemma commands_app (t1 t2 : list event) :
  commands (t1 ++ t2) = commands t1 ++ commands t2.
Proof.
  induction t1 as [|[] t1 IH]; simpl; rewrite ?IH; reflexivity.
Qed.

Lemma writes_app (t1 t2 : list event) :
  writes (t1 ++ t2) = writes t1 ++ writes t2.
Proof.
  induction t1 as [|[] t1 IH]; simpl; rewrite ?IH; reflexivity.
Qed.

Lemma char_eqb_eq (a b : char) : char_eqb a b = true <-> a = b.
Proof. unfold char_eqb. apply N.eqb_eq. Qed.

Lemma char_eqb_refl (a : char) : char_eqb a a = true.
Proof. apply char_eqb_eq. reflexivity. Qed.

Lemma startsWith_app (p t : jsstring) : startsWith (p ++ t) p = true.
Proof.
  induction p as [|a p IH]; simpl; [reflexivity|].
  rewrite char_eqb_refl, IH. reflexivity.
Qed.

Lemma startsWith_inv (s p : jsstring) :
  startsWith s p = true -> s = p ++ drop (length p) s.
Proof.
  revert s. induction p as [|a p IH]; intros s H; simpl in *.
  - reflexivity.
  - destruct s as [|b s]; [discriminate|].
    apply andb_true_iff in H as [Hab Hs].
    apply char_eqb_eq in Hab. subst b. simpl.
    f_equal. apply IH, Hs.
Qed.

Lemma startsWith_spec (s p : jsstring) :
  startsWith s p = true <-> exists t, s = p ++ t.
Proof.
  split.
  - intros H. eexists. apply startsWith_inv, H.
  - intros [t ->]. apply startsWith_app.
Qed.

Lemma includes_startsWith (s p : jsstring) :
  startsWith s p = true -> includes s p = true.
Proof. intros H. destruct s; simpl; rewrite H; reflexivity. Qed.

Lemma includes_spec (s p : jsstring) :
  includes s p = true <-> exists a b, s = a ++ p ++ b.
Proof.
  split.
  - induction s as [|c s IH]; simpl; intros H.
    + rewrite orb_false_r in H. apply startsWith_spec in H as [t Ht].
      exists [], t. exact Ht.
    + apply orb_true_iff in H as [H|H].
      * apply startsWith_spec in H as [t Ht]. exists [], t. exact Ht.
      * destruct (IH H) as (a & b & ->). exists (c :: a), b. reflexivity.
  - intros (a & b & ->). induction a as [|c a IH]; simpl.
    + apply includes_startsWith, startsWith_app.
    + rewrite IH. apply orb_true_r.
Qed.

Lemma includes_false_app (s p a b : jsstring) :
  includes s p = false -> s <> a ++ p ++ b.
Proof.
  intros H E. assert (includes s p = true) by (apply includes_spec; eauto).
  congruence.
Qed.

End StringFacts.
Import StringFacts.

Module RegexFacts.

(** The matcher on a literal is a prefix test. *)
Lemma m_lit {A : Type} (l s : jsstring) (k : jsstring -> option A) :
  m (lit l) s k = if startsWith s l then k (drop (length l) s) else None.
Proof.
  revert s. induction l as [|c l IH]; intros s; simpl.
  - reflexivity.
  - destruct s as [|b s]; [reflexivity|].
    destruct (char_eqb c b); simpl; [apply IH | reflexivity].
Qed.

(** Whatever the continuation accepts is what is left of the input after
    a word of the pattern. *)
Section Soundness.
Context {A : Type}.

Lemma may_sound r step (k : jsstring -> option A) fuel :
  sound_for r step ->
  forall s x, may step k fuel s = Some x ->
    exists ws rest,
      s = concat ws ++ rest /\ Forall (matches r) ws /\
      (length ws <= fuel)%nat /\ k rest = Some x.
Proof.
  intros Hstep. induction fuel as [|fuel IH]; intros s x H; simpl in H.
  - exists [], s. repeat split; auto.
  - destruct (step s _) as [y|] eqn:E.
    + injection H as ->.
      apply Hstep in E as (w1 & r1 & -> & Hw1 & Hk).
      destruct (_ <? _)%nat; [|discriminate].
      apply IH in Hk as (ws & r2 & -> & Hws & Hlen & Hk).
      exists (w1 :: ws), r2. simpl. rewrite <- app_assoc.
      repeat split; auto. lia.
    + exists [], s. repeat split; auto. simpl. lia.
Qed.

Lemma must_sound r step (k : jsstring -> option A) mn mx n :
  sound_for r step ->
  forall s x, must step k mn mx n s = Some x ->
    exists ws rest,
      s = concat ws ++ rest /\ Forall (matches r) ws /\
      (n <= length ws)%nat /\
      (forall hi, mx = Some hi -> (length ws <= n + (hi - mn))%nat) /\
      k rest = Some x.
Proof.
  intros Hstep. induction n as [|n IH]; intros s x H; simpl in H.
  - apply (may_sound r) in H as (ws & rest & -> & Hws & Hlen & Hk); auto.
    exists ws, rest. repeat split; auto; [lia|].
    intros hi ->. simpl in Hlen. lia.
  - apply Hstep in H as (w1 & r1 & -> & Hw1 & Hk).
    apply IH in Hk as (ws & r2 & -> & Hws & Hlen & Hmax & Hk).
    exists (w1 :: ws), r2. simpl. rewrite <- app_assoc.
    repeat split; auto; [lia|].
    intros hi Hhi. specialize (Hmax hi Hhi). lia.
Qed.

Lemma m_sound (r : regex) : sound_for r (m (A := A) r).
Proof.
  induction r as [|p|r1 IH1 r2 IH2|r1 IH1 r2 IH2|r IH mn mx|];
    intros s k x H; simpl in H.
  - exists [], s. repeat split; auto. constructor.
  - destruct s as [|c s]; [discriminate|].
    destruct (p c) eqn:Hc; [|discriminate].
    exists [c], s. repeat split; auto. constructor. exact Hc.
  - apply IH1 in H as (w1 & r1' & -> & Hw1 & H).
    apply IH2 in H as (w2 & r2' & -> & Hw2 & H).
    exists (w1 ++ w2), r2'. rewrite <- app_assoc.
    repeat split; auto. constructor; auto.
  - destruct (m r1 s k) as [y|] eqn:E.
    + injection H as ->.
      apply IH1 in E as (w & rest & -> & Hw & Hk).
      exists w, rest. repeat split; auto. apply matches_Or_l, Hw.
    + apply IH2 in H as (w & rest & -> & Hw & Hk).
      exists w, rest. repeat split; auto. apply matches_Or_r, Hw.
  - apply (must_sound r) in H
      as (ws & rest & -> & Hws & Hlen & Hmax & Hk); auto.
    exists (concat ws), rest. repeat split; auto.
    constructor; auto. intros hi Hhi. specialize (Hmax hi Hhi). lia.
  - destruct s; [|discriminate]. exists [], [].
    repeat split; auto. constructor.
Qed.
End Soundness.

Lemma match_here_sound (r : regex) (tok rest : jsstring) :
  match_here r (tok ++ rest) = Some rest -> matches r tok.
Proof.
  intros H. apply m_sound in H as (w & rest' & Hs & Hw & [= ->]).
  apply app_inv_tail in Hs. subst w. exact Hw.
Qed.

Lemma match_here_take (r : regex) (s rest : jsstring) :
  match_here r s = Some rest ->
  s = take (length s - length rest) s ++ rest.
Proof.
  intros H. apply m_sound in H as (w & rest' & -> & _ & [= ->]).
  rewrite length_app.
  replace (length w + length rest - length rest)%nat with (length w) by lia.
  rewrite take_app_length. reflexivity.
Qed.

(** What [exec] finds, and what it means for it to find nothing. *)
Lemma exec_Some (r : regex) (s before tok after : jsstring) :
  exec r s = Some (before, tok, after) ->
  s = before ++ tok ++ after /\
  match_here r (tok ++ after) = Some after /\
  (forall b1 b2, before = b1 ++ b2 -> b2 <> [] ->
     match_here r (b2 ++ tok ++ after) = None).
Proof.
  assert (Hhead : forall s rest,
            match_here r s = Some rest ->
            let tok := take (length s - length rest) s in
            s = [] ++ tok ++ rest /\
            match_here r (tok ++ rest) = Some rest /\
            (forall b1 b2 : jsstring, [] = b1 ++ b2 -> b2 <> [] ->
               match_here r (b2 ++ tok ++ rest) = None)).
  { intros s0 rest E t. pose proof (match_here_take _ _ _ E) as Hs.
    fold t in Hs. simpl. rewrite <- Hs. repeat split; auto.
    intros b1 b2 Hb. destruct b1, b2; try discriminate. congruence. }
  revert before. induction s as [|c s IH]; intros before H; simpl in H.
  - destruct (match_here r []) as [rest|] eqn:E; [|discriminate].
    injection H as <- <- <-. apply (Hhead [] rest E).
  - destruct (match_here r (c :: s)) as [rest|] eqn:E.
    + injection H as <- <- <-. apply (Hhead (c :: s) rest E).
    + destruct (exec r s) as [[[pre tok'] post]|] eqn:E'; [|discriminate].
      injection H as <- <- <-.
      destruct (IH _ eq_refl) as (Hs & Hm & Hmin).
      repeat split; auto.
      * simpl. f_equal. exact Hs.
      * intros b1 b2 Hb Hne. destruct b1 as [|c' b1]; simpl in Hb.
        -- subst b2. simpl. rewrite <- Hs. exact E.
        -- injection Hb as _ Hb. eapply Hmin; eauto.
Qed.

Lemma exec_None (r : regex) (s : jsstring) :
  exec r s = None ->
  forall a b, s = a ++ b -> match_here r b = None.
Proof.
  induction s as [|c s IH]; intros H a b Hs; simpl in H.
  - destruct (match_here r []) eqn:E; [discriminate|].
    destruct a, b; try discriminate. exact E.
  - destruct (match_here r (c :: s)) eqn:E; [discriminate|].
    destruct (exec r s) as [[[? ?] ?]|] eqn:E'; [discriminate|].
    destruct a as [|c' a]; simpl in Hs.
    + subst b. exact E.
    + injection Hs as _ Hs. eapply IH; eauto.
Qed.

(** The converse: a match with no match before it is the one found. *)
Lemma exec_unfold (r : regex) (s : jsstring) :
  exec r s =
  match match_here r s with
  | Some rest => Some ([], take (length s - length rest)%nat s, rest)
  | None =>
      match s with
      | [] => None
      | c :: s' =>
          match exec r s' with
          | Some (pre, tok, post) => Some (c :: pre, tok, post)
          | None => None
          end
      end
  end.
Proof. destruct s; reflexivity. Qed.

Lemma exec_head (r : regex) (tok after : jsstring) :
  match_here r (tok ++ after) = Some after ->
  exec r (tok ++ after) = Some ([], tok, after).
Proof.
  intros Hm.
  assert (Ht : take (length (tok ++ after) - length after) (tok ++ after)
               = tok).
  { rewrite length_app.
    replace (length tok + length after - length after)%nat
      with (length tok) by lia.
    apply take_app_length. }
  rewrite exec_unfold, Hm, Ht. reflexivity.
Qed.

Lemma exec_intro (r : regex) (before tok after : jsstring) :
  match_here r (tok ++ after) = Some after ->
  (forall b1 b2, before = b1 ++ b2 -> b2 <> [] ->
     match_here r (b2 ++ tok ++ after) = None) ->
  exec r (before ++ tok ++ after) = Some (before, tok, after).
Proof.
  intros Hm. induction before as [|c before IH]; intros Hmin.
  - exact (exec_head r tok after Hm).
  - rewrite exec_unfold.
    rewrite (Hmin [] (c :: before)); [|reflexivity|discriminate].
    simpl. rewrite IH; [reflexivity|].
    intros b1 b2 -> Hne. apply (Hmin (c :: b1) b2); auto.
Qed.

(** Replacing every match, one match at a time. *)
Lemma replace_go_fuel (r : regex) (f : jsstring -> jsstring) :
  forall fuel1 fuel2 s,
    (length s < fuel1)%nat -> (length s < fuel2)%nat ->
    replace_go fuel1 r f s = replace_go fuel2 r f s.
Proof.
  induction fuel1 as [|fuel1 IH]; intros fuel2 s H1 H2; [lia|].
  destruct fuel2 as [|fuel2]; [lia|]. simpl.
  destruct (exec r s) as [[[pre tok] post]|] eqn:E; [|reflexivity].
  apply exec_Some in E as (-> & _ & _).
  rewrite !length_app in H1, H2.
  do 2 f_equal.
  destruct tok as [|c tok].
  - destruct post as [|c post]; [reflexivity|].
    f_equal. simpl in *. apply IH; lia.
  - simpl in *. apply IH; lia.
Qed.

Lemma replace_all_None (r : regex) (f : jsstring -> jsstring) (s : jsstring) :
  exec r s = None -> replace_all r f s = s.
Proof. intros H. unfold replace_all. simpl. rewrite H. reflexivity. Qed.

Lemma replace_all_Some (r : regex) (f : jsstring -> jsstring)
    (s before tok after : jsstring) :
  exec r s = Some (before, tok, after) -> tok <> [] ->
  replace_all r f s = before ++ f tok ++ replace_all r f after.
Proof.
  intros H Hne. unfold replace_all at 1.
  cbn [replace_go]. rewrite H.
  destruct tok as [|c tok]; [congruence|].
  do 2 f_equal.
  apply exec_Some in H as (-> & _ & _).
  apply replace_go_fuel; rewrite ?length_app; simpl; lia.
Qed.

End RegexFacts.
Import RegexFacts.

Module QuantifierFacts.

(** A greedy quantifier over a class, before a continuation that refuses
    every input that starts in the class, takes the whole run of the
    class: no shorter run can make the continuation succeed. *)
Section Commit.
Context {A : Type}.
Variable p : char -> bool.
Variable k : jsstring -> option A.
Hypothesis refuses : forall c t, p c = true -> k (c :: t) = None.

Lemma may_class_commit (fuel : nat) (s : jsstring) :
  (length s <= fuel)%nat -> may (m (Class p)) k fuel s = k (skip p s).
Proof.
  revert s. induction fuel as [|fuel IH]; intros s Hlen.
  - destruct s; [reflexivity | simpl in Hlen; lia].
  - destruct s as [|c s]; [reflexivity|].
    simpl in Hlen. cbn [may m skip].
    destruct (p c) eqn:Hc; [|reflexivity].
    replace (length s <? length (c :: s))%nat with true
      by (symmetry; apply Nat.ltb_lt; simpl; lia).
    rewrite IH by lia.
    destruct (k (skip p s)); [reflexivity|]. apply refuses, Hc.
Qed.

Lemma m_star_class (s : jsstring) :
  m (star (Class p)) s k = k (skip p s).
Proof. apply may_class_commit. reflexivity. Qed.

Lemma m_plus_class (s : jsstring) :
  m (plus (Class p)) s k =
  match s with
  | c :: s' => if p c then k (skip p s') else None
  | [] => None
  end.
Proof.
  destruct s as [|c s]; [reflexivity|].
  cbn [plus m must]. destruct (p c); [|reflexivity].
  apply may_class_commit. reflexivity.
Qed.
End Commit.

Lemma skip_all (p : char -> bool) (s : jsstring) :
  skip p s = [] <-> forallb p s = true.
Proof.
  induction s as [|c s IH]; simpl; [tauto|].
  destruct (p c); simpl; [exact IH|]. split; discriminate.
Qed.

Lemma skip_run (p : char -> bool) (run rest : jsstring) :
  forallb p run = true ->
  (forall c t, rest = c :: t -> p c = false) ->
  skip p (run ++ rest) = rest.
Proof.
  intros Hrun Hrest. induction run as [|c run IH]; simpl in *.
  - destruct rest as [|c t]; [reflexivity|].
    simpl. rewrite (Hrest c t eq_refl). reflexivity.
  - apply andb_true_iff in Hrun as [-> Hrun]. apply IH, Hrun.
Qed.

Lemma skip_split (p : char -> bool) (s : jsstring) :
  exists run, s = run ++ skip p s /\ forallb p run = true.
Proof.
  induction s as [|c s (run & Hs & Hrun)]; simpl.
  - exists []. auto.
  - destruct (p c) eqn:Hc.
    + exists (c :: run). simpl. rewrite Hc, Hrun. split; [congruence|auto].
    + exists []. auto.
Qed.

End QuantifierFacts.
Import QuantifierFacts.

(** * The encoding of files *)

Module Utf8Facts.

Lemma div_mul_add (q r d : N) :
  r < d -> (q * d + r) / d = q /\ (q * d + r) mod d = r.
Proof.
  intros H. split.
  - symmetry. apply (N.div_unique _ d q r); lia.
  - symmetry. apply (N.mod_unique _ d q r); lia.
Qed.

Lemma in_range_spec (lo hi b : N) :
  in_range lo hi b = true <-> lo <= b <= hi.
Proof.
  unfold in_range. rewrite andb_true_iff, !N.leb_le. reflexivity.
Qed.

Lemma in_range_false (lo hi b : N) :
  in_range lo hi b = false <-> b < lo \/ hi < b.
Proof.
  unfold in_range. rewrite andb_false_iff, !N.leb_gt. reflexivity.
Qed.

Lemma utf8_encode_cons (c : char) (rest : jsstring) :
  utf8_encode (c :: rest) =
  if c <? 128 then c :: utf8_encode rest
  else if c <? 2048 then
    (192 + c / 64) :: (128 + c mod 64) :: utf8_encode rest
  else if high_surrogate c then
    match rest with
    | d :: rest' =>
        if low_surrogate d then
          four_bytes (65536 + (c - 55296) * 1024 + (d - 56320))
            ++ utf8_encode rest'
        else three_bytes replacement ++ utf8_encode rest
    | [] => three_bytes replacement
    end
  else if low_surrogate c then three_bytes replacement ++ utf8_encode rest
  else if 65535 <? c then three_bytes replacement ++ utf8_encode rest
  else three_bytes c ++ utf8_encode rest.
Proof. destruct rest; reflexivity. Qed.

(** The encoding of an ASCII code unit is itself. *)
Lemma utf8_encode_ascii (c : char) (rest : jsstring) :
  c < 128 -> utf8_encode (c :: rest) = c :: utf8_encode rest.
Proof.
  intros H. rewrite utf8_encode_cons.
  apply N.ltb_lt in H. rewrite H. reflexivity.
Qed.

(** Encoding goes through a concatenation whose right part does not start
    with the second half of a pair. *)
Lemma utf8_encode_app_r (l r : jsstring) :
  match r with
  | [] => True
  | c :: _ => low_surrogate c = false
  end ->
  utf8_encode (l ++ r) = utf8_encode l ++ utf8_encode r.
Proof.
  intros Hr. remember (length l) as n eqn:Hn. revert l Hn.
  induction n as [n IH] using lt_wf_ind. intros l Hn.
  destruct l as [|c l]; [reflexivity|].
  cbn [app]. rewrite !utf8_encode_cons.
  assert (IHl : utf8_encode (l ++ r) = utf8_encode l ++ utf8_encode r).
  { apply (IH (length l)); [subst n; simpl; lia|reflexivity]. }
  destruct (c <? 128); [rewrite IHl; reflexivity|].
  destruct (c <? 2048); [rewrite IHl; reflexivity|].
  destruct (high_surrogate c).
  - destruct l as [|d l].
    + cbn [app]. destruct r as [|d r]; [reflexivity|].
      rewrite Hr. reflexivity.
    + cbn [app]. destruct (low_surrogate d).
      * rewrite (IH (length l)); [|subst n; simpl; lia|reflexivity].
        rewrite <- app_assoc. reflexivity.
      * change (d :: l ++ r) with ((d :: l) ++ r). rewrite IHl.
        rewrite <- app_assoc. reflexivity.
  - destruct (low_surrogate c); [|destruct (65535 <? c)];
      rewrite IHl, <- app_assoc; reflexivity.
Qed.

(** Encoding goes through a concatenation whose left part does not end
    with the first half of a pair. *)
Lemma utf8_encode_app_l (l r : jsstring) (c : char) :
  high_surrogate c = false ->
  utf8_encode ((l ++ [c]) ++ r)
  = utf8_encode (l ++ [c]) ++ utf8_encode r.
Proof.
  intros Hc. remember (length l) as n eqn:Hn. revert l Hn.
  induction n as [n IH] using lt_wf_ind. intros l Hn.
  destruct l as [|a l].
  - cbn [app]. rewrite !utf8_encode_cons. rewrite Hc.
    destruct (c <? 128); [reflexivity|].
    destruct (c <? 2048); [reflexivity|].
    cbn [utf8_encode]. rewrite app_nil_r.
    destruct (low_surrogate c); [|destruct (65535 <? c)]; reflexivity.
  - cbn [app]. rewrite !utf8_encode_cons.
    assert (IHl : utf8_encode ((l ++ [c]) ++ r)
                  = utf8_encode (l ++ [c]) ++ utf8_encode r).
    { apply (IH (length l)); [subst n; simpl; lia|reflexivity]. }
    destruct (a <? 128); [rewrite IHl; reflexivity|].
    destruct (a <? 2048); [rewrite IHl; reflexivity|].
    destruct (high_surrogate a).
    + destruct l as [|d l].
      * cbn [app]. destruct (low_surrogate c) eqn:Hlow.
        { cbn [utf8_encode]. rewrite app_nil_r. reflexivity. }
        cbn [app] in IHl. rewrite IHl, <- app_assoc. reflexivity.
      * cbn [app]. destruct (low_surrogate d).
        { rewrite (IH (length l)); [|subst n; simpl; lia|reflexivity].
          rewrite <- app_assoc. reflexivity. }
        change (d :: (l ++ [c]) ++ r) with (((d :: l) ++ [c]) ++ r).
        rewrite IHl. rewrite <- app_assoc. reflexivity.
    + destruct (low_surrogate a); [|destruct (65535 <? a)];
        rewrite IHl, <- app_assoc; reflexivity.
Qed.

Lemma two_units (b0 b1 : N) :
  in_range 194 223 b0 = true -> continuation b1 = true ->
  let c := (b0 - 192) * 64 + (b1 - 128) in
  (c <? 128) = false /\ (c <? 2048) = true /\
  192 + c / 64 = b0 /\ 128 + c mod 64 = b1.
Proof.
  unfold continuation. intros H0 H1.
  set (c := (b0 - 192) * 64 + (b1 - 128)).
  apply in_range_spec in H0, H1.
  destruct (div_mul_add (b0 - 192) (b1 - 128) 64 ltac:(lia)) as [Hd Hm].
  fold c in Hd, Hm. rewrite Hd, Hm.
  split; [apply N.ltb_ge; subst c; lia|].
  split; [apply N.ltb_lt; subst c; lia|]. lia.
Qed.

Lemma three_units (b0 b1 b2 : N) :
  in_range 224 239 b0 = true ->
  in_range (if b0 =? 224 then 160 else 128)
    (if b0 =? 237 then 159 else 191) b1 = true ->
  continuation b2 = true ->
  let c := (b0 - 224) * 4096 + (b1 - 128) * 64 + (b2 - 128) in
  (c <? 128) = false /\ (c <? 2048) = false /\
  high_surrogate c = false /\ low_surrogate c = false /\
  (65535 <? c) = false /\
  three_bytes c = [b0; b1; b2].
Proof.
  unfold continuation. intros H0 H1 H2.
  set (c := (b0 - 224) * 4096 + (b1 - 128) * 64 + (b2 - 128)).
  apply in_range_spec in H0, H1, H2.
  assert (Hb1 : 128 <= b1 <= 191 /\ (b0 = 224 -> 160 <= b1) /\
                (b0 = 237 -> b1 <= 159)).
  { destruct (N.eqb_spec b0 224), (N.eqb_spec b0 237); lia. }
  clear H1. destruct Hb1 as (H1 & Hlo & Hhi).
  assert (E1 : c / 4096 = b0 - 224).
  { subst c. rewrite <- !N.add_assoc.
    apply (div_mul_add (b0 - 224) _ 4096). lia. }
  assert (E2 : c / 64 = (b0 - 224) * 64 + (b1 - 128)).
  { replace c with (((b0 - 224) * 64 + (b1 - 128)) * 64 + (b2 - 128))
      by (subst c; lia).
    apply div_mul_add. lia. }
  assert (E3 : c mod 64 = b2 - 128).
  { replace c with (((b0 - 224) * 64 + (b1 - 128)) * 64 + (b2 - 128))
      by (subst c; lia).
    apply div_mul_add. lia. }
  assert (Hc : 2048 <= c <= 65535 /\ (c < 55296 \/ 57343 < c)).
  { subst c. destruct (N.eq_dec b0 224), (N.eq_dec b0 237); lia. }
  split; [apply N.ltb_ge; lia|]. split; [apply N.ltb_ge; lia|].
  split; [apply in_range_false; lia|]. split; [apply in_range_false; lia|].
  split; [apply N.ltb_ge; lia|].
  unfold three_bytes. rewrite E1, E2, E3.
  destruct (div_mul_add (b0 - 224) (b1 - 128) 64 ltac:(lia)) as [_ ->].
  repeat f_equal; lia.
Qed.

Lemma four_units (b0 b1 b2 b3 : N) :
  in_range 240 244 b0 = true ->
  in_range (if b0 =? 240 then 144 else 128)
    (if b0 =? 244 then 143 else 191) b1 = true ->
  continuation b2 = true -> continuation b3 = true ->
  let cp := (b0 - 240) * 262144 + (b1 - 128) * 4096 + (b2 - 128) * 64
            + (b3 - 128) in
  exists hi lo,
    surrogates cp = [hi; lo] /\
    (hi <? 128) = false /\ (hi <? 2048) = false /\
    high_surrogate hi = true /\ low_surrogate lo = true /\
    four_bytes (65536 + (hi - 55296) * 1024 + (lo - 56320))
    = [b0; b1; b2; b3].
Proof.
  unfold continuation. intros H0 H1 H2 H3.
  set (cp := (b0 - 240) * 262144 + (b1 - 128) * 4096 + (b2 - 128) * 64
             + (b3 - 128)).
  apply in_range_spec in H0, H1, H2, H3.
  assert (Hb1 : 128 <= b1 <= 191 /\ (b0 = 240 -> 144 <= b1) /\
                (b0 = 244 -> b1 <= 143)).
  { destruct (N.eqb_spec b0 240), (N.eqb_spec b0 244); lia. }
  clear H1. destruct Hb1 as (H1 & Hlo & Hhi).
  assert (Hcp : 65536 <= cp <= 1114111).
  { subst cp. destruct (N.eq_dec b0 240), (N.eq_dec b0 244); lia. }
  pose proof (N.div_mod (cp - 65536) 1024 ltac:(lia)) as Hdm.
  pose proof (N.mod_lt (cp - 65536) 1024 ltac:(lia)) as Hm.
  assert (Hd : (cp - 65536) / 1024 <= 1023).
  { apply N.lt_succ_r. apply N.Div0.div_lt_upper_bound; lia. }
  unfold surrogates. fold cp.
  remember ((cp - 65536) / 1024) as q eqn:Hq.
  remember ((cp - 65536) mod 1024) as r eqn:Hr.
  exists (55296 + q), (56320 + r). split; [reflexivity|].
  split; [apply N.ltb_ge; lia|]. split; [apply N.ltb_ge; lia|].
  split; [apply in_range_spec; lia|]. split; [apply in_range_spec; lia|].
  replace (65536 + (55296 + q - 55296) * 1024 + (56320 + r - 56320))
    with cp by lia.
  assert (E1 : cp / 262144 = b0 - 240).
  { subst cp. rewrite <- !N.add_assoc.
    apply (div_mul_add (b0 - 240) _ 262144). lia. }
  assert (E2 : cp / 4096 = (b0 - 240) * 64 + (b1 - 128)).
  { replace cp with (((b0 - 240) * 64 + (b1 - 128)) * 4096
                      + ((b2 - 128) * 64 + (b3 - 128))) by (subst cp; lia).
    apply div_mul_add. lia. }
  assert (E3 : cp / 64 = ((b0 - 240) * 64 + (b1 - 128)) * 64 + (b2 - 128)).
  { replace cp with ((((b0 - 240) * 64 + (b1 - 128)) * 64 + (b2 - 128)) * 64
                      + (b3 - 128)) by (subst cp; lia).
    apply div_mul_add. lia. }
  assert (E4 : cp mod 64 = b3 - 128).
  { replace cp with ((((b0 - 240) * 64 + (b1 - 128)) * 64 + (b2 - 128)) * 64
                      + (b3 - 128)) by (subst cp; lia).
    apply div_mul_add. lia. }
  unfold four_bytes. rewrite E1, E2, E3, E4.
  destruct (div_mul_add (b0 - 240) (b1 - 128) 64 ltac:(lia)) as [_ ->].
  destruct (div_mul_add ((b0 - 240) * 64 + (b1 - 128)) (b2 - 128) 64
              ltac:(lia)) as [_ ->].
  repeat f_equal; lia.
Qed.

(** Well-formed UTF-8 comes back from decoding and encoding. *)
Lemma utf8_round_trip (b : bytes) :
  well_formed_utf8 b = true -> utf8_encode (utf8_decode b) = b.
Proof.
  remember (length b) as n eqn:Hn. revert b Hn.
  induction n as [n IH] using lt_wf_ind. intros b Hn Hwf.
  destruct b as [|b0 rest]; [reflexivity|].
  cbn [well_formed_utf8 utf8_decode] in *.
  destruct (b0 <? 128) eqn:Hascii.
  { rewrite utf8_encode_cons, Hascii. f_equal.
    apply (IH (length rest)); [subst n; simpl; lia|reflexivity|exact Hwf]. }
  destruct (in_range 194 223 b0) eqn:H2.
  { destruct rest as [|b1 rest1]; [discriminate|].
    apply andb_true_iff in Hwf as [Hc1 Hwf]. rewrite Hc1.
    destruct (two_units b0 b1 H2 Hc1) as (Ha & Hb & E0 & E1).
    rewrite utf8_encode_cons, Ha, Hb, E0, E1. do 2 f_equal.
    apply (IH (length rest1)); [subst n; simpl; lia|reflexivity|exact Hwf]. }
  destruct (in_range 224 239 b0) eqn:H3.
  { destruct rest as [|b1 [|b2 rest2]]; try discriminate.
    apply andb_true_iff in Hwf as [Hwf Hrest].
    apply andb_true_iff in Hwf as [Hc1 Hc2]. rewrite Hc1, Hc2.
    destruct (three_units b0 b1 b2 H3 Hc1 Hc2)
      as (Ha & Hb & Hh & Hl & Hr & E).
    rewrite utf8_encode_cons, Ha, Hb, Hh, Hl, Hr, E. cbn [app].
    do 3 f_equal.
    apply (IH (length rest2)); [subst n; simpl; lia|reflexivity|exact Hrest]. }
  destruct (in_range 240 244 b0) eqn:H4; [|discriminate].
  destruct rest as [|b1 [|b2 [|b3 rest3]]]; try discriminate.
  apply andb_true_iff in Hwf as [Hwf Hrest].
  apply andb_true_iff in Hwf as [Hwf Hc3].
  apply andb_true_iff in Hwf as [Hc1 Hc2]. rewrite Hc1, Hc2, Hc3.
  destruct (four_units b0 b1 b2 b3 H4 Hc1 Hc2 Hc3)
    as (hi & lo & -> & Ha & Hb & Hh & Hl & E).
  cbn [app]. rewrite utf8_encode_cons, Ha, Hb, Hh, Hl, E. cbn [app].
  do 4 f_equal.
  apply (IH (length rest3)); [subst n; simpl; lia|reflexivity|exact Hrest].
Qed.

End Utf8Facts.
Import Utf8Facts.

(** * Writing a text and reading it again *)

Module ReadBackFacts.

Lemma read_back_cons (c : char) (rest : jsstring) :
  read_back (c :: rest) =
  if high_surrogate c then
    match rest with
    | d :: rest' =>
        if low_surrogate d then c :: d :: read_back rest'
        else replacement :: read_back rest
    | [] => [replacement]
    end
  else if low_surrogate c || (65535 <? c) then replacement :: read_back rest
  else c :: read_back rest.
Proof. destruct rest; reflexivity. Qed.

Lemma read_back_ordinary (c : char) (rest : jsstring) :
  high_surrogate c = false -> low_surrogate c = false ->
  (65535 <? c) = false ->
  read_back (c :: rest) = c :: read_back rest.
Proof. intros H1 H2 H3. rewrite read_back_cons, H1, H2, H3. reflexivity. Qed.

Lemma read_back_small (c : char) (rest : jsstring) :
  c < 55296 -> read_back (c :: rest) = c :: read_back rest.
Proof.
  intros H. apply read_back_ordinary.
  - apply in_range_false. lia.
  - apply in_range_false. lia.
  - apply N.ltb_ge. lia.
Qed.

Lemma read_back_pair (hi lo : char) (rest : jsstring) :
  high_surrogate hi = true -> low_surrogate lo = true ->
  read_back (hi :: lo :: rest) = hi :: lo :: read_back rest.
Proof. intros H1 H2. rewrite read_back_cons, H1, H2. reflexivity. Qed.

Lemma decode_replacement (bs : bytes) :
  utf8_decode (three_bytes replacement ++ bs) = replacement :: utf8_decode bs.
Proof. reflexivity. Qed.

Lemma decode_ascii (c : N) (bs : bytes) :
  c < 128 -> utf8_decode (c :: bs) = c :: utf8_decode bs.
Proof.
  intros H. cbn [utf8_decode]. apply N.ltb_lt in H. rewrite H. reflexivity.
Qed.

Lemma decode_two (c : N) (bs : bytes) :
  128 <= c < 2048 ->
  utf8_decode ((192 + c / 64) :: (128 + c mod 64) :: bs)
  = c :: utf8_decode bs.
Proof.
  intros Hc.
  pose proof (N.div_mod c 64 ltac:(lia)) as Hdm.
  pose proof (N.mod_lt c 64 ltac:(lia)) as Hm.
  remember (c / 64) as q eqn:Hq. remember (c mod 64) as r eqn:Hr.
  cbn [utf8_decode].
  replace (192 + q <? 128) with false by (symmetry; apply N.ltb_ge; lia).
  replace (in_range 194 223 (192 + q)) with true
    by (symmetry; apply in_range_spec; lia).
  replace (continuation (128 + r)) with true
    by (symmetry; apply in_range_spec; lia).
  f_equal. lia.
Qed.

Lemma decode_three (c : N) (bs : bytes) :
  2048 <= c <= 65535 ->
  high_surrogate c = false -> low_surrogate c = false ->
  utf8_decode (three_bytes c ++ bs) = c :: utf8_decode bs.
Proof.
  intros Hc Hh Hl. apply in_range_false in Hh, Hl.
  unfold three_bytes.
  replace (c / 4096) with (c / 64 / 64)
    by (rewrite N.Div0.div_div; reflexivity).
  pose proof (N.div_mod c 64 ltac:(lia)) as Hdm1.
  pose proof (N.mod_lt c 64 ltac:(lia)) as Hm1.
  remember (c / 64) as q1 eqn:Hq1. remember (c mod 64) as r1 eqn:Hr1.
  pose proof (N.div_mod q1 64 ltac:(lia)) as Hdm2.
  pose proof (N.mod_lt q1 64 ltac:(lia)) as Hm2.
  remember (q1 / 64) as q2 eqn:Hq2. remember (q1 mod 64) as r2 eqn:Hr2.
  cbn [app utf8_decode].
  replace (224 + q2 <? 128) with false by (symmetry; apply N.ltb_ge; lia).
  replace (in_range 194 223 (224 + q2)) with false
    by (symmetry; apply in_range_false; lia).
  replace (in_range 224 239 (224 + q2)) with true
    by (symmetry; apply in_range_spec; lia).
  replace (in_range (if 224 + q2 =? 224 then 160 else 128)
             (if 224 + q2 =? 237 then 159 else 191) (128 + r2)) with true.
  2:{ symmetry. apply in_range_spec.
      destruct (N.eqb_spec (224 + q2) 224), (N.eqb_spec (224 + q2) 237);
        lia. }
  replace (continuation (128 + r1)) with true
    by (symmetry; apply in_range_spec; lia).
  f_equal. lia.
Qed.

Lemma decode_four (hi lo : N) (bs : bytes) :
  high_surrogate hi = true -> low_surrogate lo = true ->
  utf8_decode
    (four_bytes (65536 + (hi - 55296) * 1024 + (lo - 56320)) ++ bs)
  = hi :: lo :: utf8_decode bs.
Proof.
  intros Hh Hl. apply in_range_spec in Hh, Hl.
  set (cp := 65536 + (hi - 55296) * 1024 + (lo - 56320)).
  assert (Hcp : 65536 <= cp <= 1114111) by (subst cp; lia).
  assert (Hsur : surrogates cp = [hi; lo]).
  { unfold surrogates.
    replace (cp - 65536) with ((hi - 55296) * 1024 + (lo - 56320))
      by (subst cp; lia).
    destruct (div_mul_add (hi - 55296) (lo - 56320) 1024 ltac:(lia))
      as [-> ->].
    f_equal; [lia|f_equal; lia]. }
  clearbody cp. unfold four_bytes.
  replace (cp / 262144) with (cp / 64 / 64 / 64)
    by (rewrite !N.Div0.div_div; reflexivity).
  replace (cp / 4096) with (cp / 64 / 64)
    by (rewrite N.Div0.div_div; reflexivity).
  pose proof (N.div_mod cp 64 ltac:(lia)) as Hdm1.
  pose proof (N.mod_lt cp 64 ltac:(lia)) as Hm1.
  remember (cp / 64) as q1 eqn:Hq1. remember (cp mod 64) as r1 eqn:Hr1.
  pose proof (N.div_mod q1 64 ltac:(lia)) as Hdm2.
  pose proof (N.mod_lt q1 64 ltac:(lia)) as Hm2.
  remember (q1 / 64) as q2 eqn:Hq2. remember (q1 mod 64) as r2 eqn:Hr2.
  pose proof (N.div_mod q2 64 ltac:(lia)) as Hdm3.
  pose proof (N.mod_lt q2 64 ltac:(lia)) as Hm3.
  remember (q2 / 64) as q3 eqn:Hq3. remember (q2 mod 64) as r3 eqn:Hr3.
  cbn [app utf8_decode].
  replace (240 + q3 <? 128) with false by (symmetry; apply N.ltb_ge; lia).
  replace (in_range 194 223 (240 + q3)) with false
    by (symmetry; apply in_range_false; lia).
  replace (in_range 224 239 (240 + q3)) with false
    by (symmetry; apply in_range_false; lia).
  replace (in_range 240 244 (240 + q3)) with true
    by (symmetry; apply in_range_spec; lia).
  replace (in_range (if 240 + q3 =? 240 then 144 else 128)
             (if 240 + q3 =? 244 then 143 else 191) (128 + r3)) with true.
  2:{ symmetry. apply in_range_spec.
      destruct (N.eqb_spec (240 + q3) 240), (N.eqb_spec (240 + q3) 244);
        lia. }
  replace (continuation (128 + r2)) with true
    by (symmetry; apply in_range_spec; lia).
  replace (continuation (128 + r1)) with true
    by (symmetry; apply in_range_spec; lia).
  replace ((240 + q3 - 240) * 262144 + (128 + r3 - 128) * 4096
           + (128 + r2 - 128) * 64 + (128 + r1 - 128)) with cp by lia.
  rewrite Hsur. reflexivity.
Qed.

(** Reading what was written gives the text with its unpaired
    surrogates replaced. *)
Lemma utf8_decode_encode (s : jsstring) :
  utf8_decode (utf8_encode s) = read_back s.
Proof.
  remember (length s) as n eqn:Hn. revert s Hn.
  induction n as [n IH] using lt_wf_ind. intros s Hn.
  destruct s as [|c rest]; [reflexivity|].
  assert (IHrest : utf8_decode (utf8_encode rest) = read_back rest)
    by (apply (IH (length rest)); [subst n; simpl; lia|reflexivity]).
  rewrite utf8_encode_cons, read_back_cons.
  destruct (c <? 128) eqn:H1.
  { apply N.ltb_lt in H1. rewrite decode_ascii, IHrest by exact H1.
    rewrite <- read_back_cons. symmetry. apply read_back_small. lia. }
  apply N.ltb_ge in H1.
  destruct (c <? 2048) eqn:H2.
  { apply N.ltb_lt in H2. rewrite decode_two, IHrest by lia.
    rewrite <- read_back_cons. symmetry. apply read_back_small. lia. }
  apply N.ltb_ge in H2.
  destruct (high_surrogate c) eqn:Hh.
  { destruct rest as [|d rest']; [reflexivity|].
    destruct (low_surrogate d) eqn:Hl.
    - rewrite decode_four by assumption. do 2 f_equal.
      apply (IH (length rest')); [subst n; simpl; lia|reflexivity].
    - rewrite decode_replacement, IHrest. reflexivity. }
  destruct (low_surrogate c) eqn:Hl;
    [rewrite decode_replacement, IHrest; reflexivity|].
  destruct (65535 <? c) eqn:H3;
    [rewrite decode_replacement, IHrest; reflexivity|].
  apply N.ltb_ge in H3. cbn [orb].
  rewrite decode_three, IHrest by (assumption || lia). reflexivity.
Qed.

(** What was read from a file has no unpaired surrogate. *)
Lemma read_back_decode (b : bytes) :
  read_back (utf8_decode b) = utf8_decode b.
Proof.
  remember (length b) as n eqn:Hn. revert b Hn.
  induction n as [n IH] using lt_wf_ind. intros b Hn.
  assert (Hrep : forall x : bytes,
             (length x < n)%nat ->
             read_back (replacement :: utf8_decode x)
             = replacement :: utf8_decode x).
  { intros x Hx. rewrite read_back_ordinary by reflexivity.
    f_equal. apply (IH (length x)); [exact Hx|reflexivity]. }
  destruct b as [|b0 rest]; [reflexivity|].
  cbn [utf8_decode].
  destruct (b0 <? 128) eqn:Hascii.
  { apply N.ltb_lt in Hascii. rewrite read_back_small by lia. f_equal.
    apply (IH (length rest)); [subst n; simpl; lia|reflexivity]. }
  destruct (in_range 194 223 b0) eqn:H2.
  { destruct rest as [|b1 rest1]; [reflexivity|].
    destruct (continuation b1) eqn:Hc1;
      [|apply Hrep; subst n; simpl; lia].
    destruct (two_units b0 b1 H2 Hc1) as (_ & Hb & _).
    apply N.ltb_lt in Hb. rewrite read_back_small by lia. f_equal.
    apply (IH (length rest1)); [subst n; simpl; lia|reflexivity]. }
  destruct (in_range 224 239 b0) eqn:H3.
  { destruct rest as [|b1 rest1]; [reflexivity|].
    destruct (in_range _ _ b1) eqn:Hc1;
      [|apply Hrep; subst n; simpl; lia].
    destruct rest1 as [|b2 rest2]; [reflexivity|].
    destruct (continuation b2) eqn:Hc2;
      [|apply Hrep; subst n; simpl; lia].
    destruct (three_units b0 b1 b2 H3 Hc1 Hc2)
      as (_ & _ & Hh & Hl & Hr & _).
    rewrite read_back_ordinary by assumption. f_equal.
    apply (IH (length rest2)); [subst n; simpl; lia|reflexivity]. }
  destruct (in_range 240 244 b0) eqn:H4;
    [|apply Hrep; subst n; simpl; lia].
  destruct rest as [|b1 rest1]; [reflexivity|].
  destruct (in_range _ _ b1) eqn:Hc1;
    [|apply Hrep; subst n; simpl; lia].
  destruct rest1 as [|b2 rest2]; [reflexivity|].
  destruct (continuation b2) eqn:Hc2;
    [|apply Hrep; subst n; simpl; lia].
  destruct rest2 as [|b3 rest3]; [reflexivity|].
  destruct (continuation b3) eqn:Hc3;
    [|apply Hrep; subst n; simpl; lia].
  destruct (four_units b0 b1 b2 b3 H4 Hc1 Hc2 Hc3)
    as (hi & lo & -> & _ & _ & Hh & Hl & _).
  cbn [app]. rewrite read_back_pair by assumption. do 2 f_equal.
  apply (IH (length rest3)); [subst n; simpl; lia|reflexivity].
Qed.

(** The bytes of a text are the bytes of what comes back of it. *)
Lemma utf8_encode_read_back (s : jsstring) :
  utf8_encode (read_back s) = utf8_encode s.
Proof.
  remember (length s) as n eqn:Hn. revert s Hn.
  induction n as [n IH] using lt_wf_ind. intros s Hn.
  destruct s as [|c rest]; [reflexivity|].
  assert (IHrest : utf8_encode (read_back rest) = utf8_encode rest)
    by (apply (IH (length rest)); [subst n; simpl; lia|reflexivity]).
  assert (Hrep : forall x : jsstring,
             utf8_encode (replacement :: x)
             = three_bytes replacement ++ utf8_encode x)
    by (intros x; rewrite utf8_encode_cons; reflexivity).
  rewrite read_back_cons, (utf8_encode_cons c rest).
  destruct (high_surrogate c) eqn:Hh.
  { pose proof Hh as Hr. apply in_range_spec in Hr.
    replace (c <? 128) with false by (symmetry; apply N.ltb_ge; lia).
    replace (c <? 2048) with false by (symmetry; apply N.ltb_ge; lia).
    destruct rest as [|d rest']; [reflexivity|].
    destruct (low_surrogate d) eqn:Hl.
    - rewrite utf8_encode_cons, Hh, Hl.
      replace (c <? 128) with false by (symmetry; apply N.ltb_ge; lia).
      replace (c <? 2048) with false by (symmetry; apply N.ltb_ge; lia).
      f_equal. apply (IH (length rest')); [subst n; simpl; lia|reflexivity].
    - rewrite Hrep, IHrest. reflexivity. }
  destruct (low_surrogate c) eqn:Hl.
  { pose proof Hl as Hr. apply in_range_spec in Hr.
    replace (c <? 128) with false by (symmetry; apply N.ltb_ge; lia).
    replace (c <? 2048) with false by (symmetry; apply N.ltb_ge; lia).
    cbn [orb]. rewrite Hrep, IHrest. reflexivity. }
  destruct (65535 <? c) eqn:H3.
  { pose proof H3 as Hr. apply N.ltb_lt in Hr.
    replace (c <? 128) with false by (symmetry; apply N.ltb_ge; lia).
    replace (c <? 2048) with false by (symmetry; apply N.ltb_ge; lia).
    cbn [orb]. rewrite Hrep, IHrest. reflexivity. }
  cbn [orb]. rewrite utf8_encode_cons, Hh, Hl, H3, IHrest. reflexivity.
Qed.

(** Code unit by code unit, what comes back is what was written or, in
    the place of a surrogate or of a number that is no code unit,
    U+FFFD. *)
Lemma read_back_units (s : jsstring) :
  Forall2 (fun a b => b = a \/ (b = replacement /\ 55296 <= a)) s
    (read_back s).
Proof.
  remember (length s) as n eqn:Hn. revert s Hn.
  induction n as [n IH] using lt_wf_ind. intros s Hn.
  destruct s as [|c rest]; [constructor|].
  assert (IHrest : Forall2 (fun a b => b = a \/ (b = replacement /\ 55296 <= a))
                     rest (read_back rest))
    by (apply (IH (length rest)); [subst n; simpl; lia|reflexivity]).
  rewrite read_back_cons.
  destruct (high_surrogate c) eqn:Hh.
  - apply in_range_spec in Hh.
    destruct rest as [|d rest'];
      [constructor; [right; split; [reflexivity|lia]|constructor]|].
    destruct (low_surrogate d).
    + constructor; [left; reflexivity|].
      constructor; [left; reflexivity|].
      apply (IH (length rest')); [subst n; simpl; lia|reflexivity].
    + constructor; [right; split; [reflexivity|lia]|exact IHrest].
  - destruct (low_surrogate c || (65535 <? c)) eqn:Hl; constructor;
      try exact IHrest; [right|left; reflexivity].
    split; [reflexivity|].
    apply orb_true_iff in Hl as [Hl|Hl];
      [apply in_range_spec in Hl|apply N.ltb_lt in Hl]; lia.
Qed.

Lemma read_back_length (s : jsstring) : length (read_back s) = length s.
Proof. symmetry. apply (Forall2_length _ _ _ (read_back_units s)). Qed.

(** A needle without U+FFFD that occurs in what comes back occurred in
    what was written. *)
Lemma includes_read_back (s n : jsstring) :
  ~ In replacement n ->
  includes s n = false -> includes (read_back s) n = false.
Proof.
  intros Hn Hs. destruct (includes (read_back s) n) eqn:E;
    [exfalso|reflexivity].
  apply includes_spec in E as (a & b & E).
  pose proof (read_back_units s) as Hu. rewrite E in Hu.
  apply Forall2_app_inv_r in Hu as (a0 & s1 & _ & Hu & ->).
  apply Forall2_app_inv_r in Hu as (m & b0 & Hm & _ & ->).
  assert (m = n) as ->.
  { clear -Hn Hm. induction Hm as [|x y m n' Hxy _ IH]; [reflexivity|].
    f_equal.
    - destruct Hxy as [->|[-> _]]; [reflexivity|].
      exfalso. apply Hn. left. reflexivity.
    - apply IH. intros H. apply Hn. right. exact H. }
  apply (includes_false_app _ _ a0 b0 Hs). reflexivity.
Qed.

(** A needle below the surrogates that occurs in what was written
    occurs in what comes back. *)
Lemma includes_read_back_true (s n : jsstring) :
  forallb (fun c => c <? 55296) n = true ->
  includes s n = true -> includes (read_back s) n = true.
Proof.
  intros Hn Hs. apply includes_spec in Hs as (a & b & ->).
  pose proof (read_back_units (a ++ n ++ b)) as Hu.
  apply Forall2_app_inv_l in Hu as (a' & r' & _ & Hu & ->).
  apply Forall2_app_inv_l in Hu as (n' & b' & Hm & _ & ->).
  assert (n' = n) as ->.
  { clear -Hn Hm. induction Hm as [|x y n n' Hxy _ IH]; [reflexivity|].
    cbn [forallb] in Hn. apply andb_true_iff in Hn as [Hx Hn].
    apply N.ltb_lt in Hx. f_equal; [|apply IH, Hn].
    destruct Hxy as [->|[_ Hy]]; [reflexivity|lia]. }
  apply includes_spec. eauto.
Qed.

(** Reading back goes through a concatenation whose right part does not
    start with the second half of a pair, or whose left part does not
    end with the first half of one. *)
Lemma read_back_app_r (l r : jsstring) :
  match r with
  | [] => True
  | c :: _ => low_surrogate c = false
  end ->
  read_back (l ++ r) = read_back l ++ read_back r.
Proof.
  intros Hr. remember (length l) as n eqn:Hn. revert l Hn.
  induction n as [n IH] using lt_wf_ind. intros l Hn.
  destruct l as [|c l]; [reflexivity|].
  assert (IHl : read_back (l ++ r) = read_back l ++ read_back r)
    by (apply (IH (length l)); [subst n; simpl; lia|reflexivity]).
  cbn [app]. rewrite !read_back_cons.
  destruct (high_surrogate c).
  - destruct l as [|d l].
    + cbn [app]. destruct r as [|d r]; [reflexivity|].
      rewrite Hr. reflexivity.
    + cbn [app]. destruct (low_surrogate d).
      * rewrite (IH (length l)); [reflexivity|subst n; simpl; lia|reflexivity].
      * change (d :: l ++ r) with ((d :: l) ++ r). rewrite IHl. reflexivity.
  - destruct (low_surrogate c || (65535 <? c)); rewrite IHl; reflexivity.
Qed.

Lemma read_back_app_l (l r : jsstring) (c : char) :
  high_surrogate c = false ->
  read_back ((l ++ [c]) ++ r) = read_back (l ++ [c]) ++ read_back r.
Proof.
  intros Hc. remember (length l) as n eqn:Hn. revert l Hn.
  induction n as [n IH] using lt_wf_ind. intros l Hn.
  destruct l as [|a l].
  - cbn [app]. rewrite !read_back_cons, Hc.
    destruct (low_surrogate c || (65535 <? c)); reflexivity.
  - assert (IHl : read_back ((l ++ [c]) ++ r)
                  = read_back (l ++ [c]) ++ read_back r)
      by (apply (IH (length l)); [subst n; simpl; lia|reflexivity]).
    cbn [app]. rewrite !read_back_cons.
    destruct (high_surrogate a).
    + destruct l as [|d l].
      * cbn [app]. destruct (low_surrogate c); [reflexivity|].
        cbn [app] in IHl. rewrite IHl. reflexivity.
      * cbn [app]. destruct (low_surrogate d).
        { rewrite (IH (length l));
            [reflexivity|subst n; simpl; lia|reflexivity]. }
        change (d :: (l ++ [c]) ++ r) with (((d :: l) ++ [c]) ++ r).
        rewrite IHl. reflexivity.
    + destruct (low_surrogate a || (65535 <? a)); rewrite IHl; reflexivity.
Qed.

(** Behind a closing angle bracket. *)
Lemma read_back_behind (p s : jsstring) :
  (exists p', p = p' ++ [62]) ->
  read_back (p ++ s) = read_back p ++ read_back s.
Proof. intros [p' ->]. apply read_back_app_l. reflexivity. Qed.

Lemma read_back_last (p : jsstring) :
  (exists p', p = p' ++ [62]) -> exists q, read_back p = q ++ [62].
Proof.
  intros [p' ->]. exists (read_back p').
  rewrite read_back_app_r by reflexivity. reflexivity.
Qed.

(** The parts of a text that comes back as it is come back as they
    are, when the cut is behind a closing angle bracket. *)
Lemma read_back_parts (p s : jsstring) :
  (exists p', p = p' ++ [62]) ->
  read_back (p ++ s) = p ++ s ->
  read_back p = p /\ read_back s = s.
Proof.
  intros Hp H. rewrite (read_back_behind p s Hp) in H.
  apply app_inj_1 in H; [exact H|apply read_back_length].
Qed.

End ReadBackFacts.
Import ReadBackFacts.

(** * The entry formatter *)

Module FormatterFacts.

(** The trailing-punctuation pattern matches at the head of an input
    exactly when the input is a non-empty run of punctuation marks. *)
Lemma trailing_here (s : jsstring) :
  match_here trailingRegex s =
  match s with
  | c :: s' => if punct c && forallb punct s' then Some [] else None
  | [] => None
  end.
Proof.
  unfold match_here, trailingRegex. cbn [m].
  rewrite m_plus_class by reflexivity.
  destruct s as [|c s]; [reflexivity|].
  destruct (punct c); [|reflexivity]. simpl.
  destruct (skip punct s) as [|c' t] eqn:E.
  - apply skip_all in E. rewrite E. reflexivity.
  - destruct (forallb punct s) eqn:F; [|reflexivity].
    apply skip_all in F. congruence.
Qed.

(** The cleaned match is the match without the punctuation marks at its
    end, all of them and nothing else. *)
Lemma cleaned_spec (tok : jsstring) :
  exists trailing,
    tok = cleaned tok ++ trailing /\
    forallb punct trailing = true /\
    (forall a c, cleaned tok = a ++ [c] -> punct c = false).
Proof.
  unfold cleaned, replace_first.
  destruct (exec trailingRegex tok) as [[[before t] after]|] eqn:E.
  - apply exec_Some in E as (Hs & Hm & Hmin).
    rewrite trailing_here in Hm.
    destruct (t ++ after) as [|c s] eqn:Et; [discriminate|].
    destruct (punct c && forallb punct s) eqn:Hp; [|discriminate].
    injection Hm as <-. simpl. rewrite app_nil_r.
    exists (c :: s). repeat split; auto.
    intros a c' ->.
    specialize (Hmin a [c'] eq_refl ltac:(discriminate)).
    rewrite trailing_here in Hmin. simpl in Hmin.
    rewrite Hp in Hmin.
    destruct (punct c'); [discriminate | reflexivity].
  - exists []. rewrite app_nil_r. repeat split; auto.
    intros a c ->.
    pose proof (exec_None _ _ E a [c] eq_refl) as Hn.
    rewrite trailing_here in Hn. simpl in Hn.
    destruct (punct c); [discriminate | reflexivity].
Qed.

Lemma drop_cleaned (tok trailing : jsstring) :
  tok = cleaned tok ++ trailing ->
  drop (length (cleaned tok)) tok = trailing.
Proof. intros H. rewrite H at 2. apply drop_app_length. Qed.

End FormatterFacts.
Import FormatterFacts.

Module UrlFacts.

Lemma matches_lit (l w : jsstring) : matches (lit l) w -> w = l.
Proof.
  revert w. induction l as [|c l IH]; intros w H; simpl in H.
  - inversion H. reflexivity.
  - inversion H as [| |? ? w1 w2 H1 H2| | | |]; subst.
    inversion H1 as [|? c' Hc| | | | |]; subst.
    apply char_eqb_eq in Hc. subst c'. simpl. f_equal. apply IH, H2.
Qed.

Lemma matches_Class_inv (p : char -> bool) (w : jsstring) :
  matches (Class p) w -> exists c, w = [c] /\ p c = true.
Proof. intros H. inversion H; subst. eauto. Qed.

Lemma matches_Cat_inv (r1 r2 : regex) (w : jsstring) :
  matches (Cat r1 r2) w ->
  exists w1 w2, w = w1 ++ w2 /\ matches r1 w1 /\ matches r2 w2.
Proof. intros H. inversion H; subst. eauto. Qed.

Lemma matches_Rep_inv (r : regex) (mn : nat) (mx : option nat)
    (w : jsstring) :
  matches (Rep r mn mx) w ->
  exists ws, w = concat ws /\ Forall (matches r) ws /\ (mn <= length ws)%nat.
Proof. intros H. inversion H; subst. eauto. Qed.

Lemma matches_Rep_Class (p : char -> bool) (mn : nat) (mx : option nat)
    (w : jsstring) :
  matches (Rep (Class p) mn mx) w -> forallb p w = true.
Proof.
  intros H. apply matches_Rep_inv in H as (ws & -> & Hws & _).
  induction Hws as [|w ws Hw _ IH]; [reflexivity|].
  apply matches_Class_inv in Hw as (c & -> & Hc). simpl.
  rewrite Hc, IH. reflexivity.
Qed.

Lemma alnum_label_char (c : char) : alnum c = true -> label_char c = true.
Proof. unfold label_char. intros ->. reflexivity. Qed.

(** A label of the domain alternative: label characters and a dot. *)
Lemma matches_domain_label (w : jsstring) :
  matches domain_label w ->
  exists c u, w = c :: u ++ [46] /\ alnum c = true /\
              forallb label_char u = true.
Proof.
  unfold domain_label. intros H.
  apply matches_Cat_inv in H as (w1 & w2 & -> & H1 & H2).
  apply matches_Class_inv in H1 as (c & -> & Hc).
  apply matches_Cat_inv in H2 as (w3 & w4 & -> & H3 & H4).
  apply matches_lit in H4. subst w4.
  exists c, w3. repeat split; auto.
  apply matches_Rep_inv in H3 as (ws & -> & Hws & _).
  induction Hws as [|w ws Hw _ IH]; [reflexivity|].
  simpl. rewrite forallb_app, IH, andb_true_r.
  apply matches_Cat_inv in Hw as (x & y & -> & Hx & Hy).
  apply matches_Rep_Class in Hx.
  apply matches_Class_inv in Hy as (c' & -> & Hc').
  rewrite forallb_app, Hx. simpl.
  rewrite (alnum_label_char _ Hc'). reflexivity.
Qed.

(** A word of the URL pattern starts with a letter or a digit. *)
Lemma url_head (w : jsstring) :
  matches urlRegex w -> exists c t, w = c :: t /\ alnum c = true.
Proof.
  unfold urlRegex. intros H.
  inversion H as [| | |? ? ? H1|? ? ? H1| |]; subst; clear H.
  - unfold url_http in H1.
    apply matches_Cat_inv in H1 as (w1 & w2 & -> & H1 & _).
    apply matches_lit in H1. subst w1. simpl. eauto.
  - inversion H1 as [| | |? ? ? H2|? ? ? H2| |]; subst; clear H1.
    + unfold url_www in H2.
      apply matches_Cat_inv in H2 as (w1 & w2 & -> & H1 & _).
      apply matches_lit in H1. subst w1. simpl. eauto.
    + unfold url_domain in H2.
      apply matches_Cat_inv in H2 as (w1 & w2 & -> & H1 & _).
      apply matches_Rep_inv in H1 as (ws & -> & Hws & Hlen).
      destruct Hws as [|l ws Hl _]; [simpl in Hlen; lia|].
      apply matches_domain_label in Hl as (c & u & -> & Hc & _).
      simpl. eauto.
Qed.

Lemma label_run_not_ftp (u v : jsstring) :
  forallb label_char u = true ->
  startsWith (u ++ 46 :: v) (str "ftp://") = false.
Proof.
  intros H.
  destruct (startsWith _ _) eqn:E; [exfalso|reflexivity].
  apply startsWith_spec in E as [t E].
  change (str "ftp://") with [102; 116; 112; 58; 47; 47] in E.
  destruct u as [|a [|b [|c [|d u]]]]; simpl in E; try discriminate.
  injection E as Ha Hb Hc Hd Hu. subst a b c d.
  vm_compute in H. discriminate.
Qed.

(** No word of the URL pattern starts with the ftp scheme. *)
Lemma url_not_ftp (w : jsstring) :
  matches urlRegex w -> startsWith w (str "ftp://") = false.
Proof.
  unfold urlRegex. intros H.
  inversion H as [| | |? ? ? H1|? ? ? H1| |]; subst; clear H.
  - unfold url_http in H1.
    apply matches_Cat_inv in H1 as (w1 & w2 & -> & H1 & _).
    apply matches_lit in H1. subst w1. reflexivity.
  - inversion H1 as [| | |? ? ? H2|? ? ? H2| |]; subst; clear H1.
    + unfold url_www in H2.
      apply matches_Cat_inv in H2 as (w1 & w2 & -> & H1 & _).
      apply matches_lit in H1. subst w1. reflexivity.
    + unfold url_domain in H2.
      apply matches_Cat_inv in H2 as (w1 & w2 & -> & H1 & _).
      apply matches_Rep_inv in H1 as (ws & -> & Hws & Hlen).
      destruct Hws as [|l ws Hl _]; [simpl in Hlen; lia|].
      apply matches_domain_label in Hl as (c & u & -> & Hc & Hu).
      replace (concat ((c :: u ++ [46]) :: ws) ++ w2)
        with ((c :: u) ++ 46 :: (concat ws ++ w2))
        by (simpl; rewrite <- !app_assoc; reflexivity).
      apply label_run_not_ftp. simpl.
      rewrite (alnum_label_char _ Hc), Hu. reflexivity.
Qed.

(** Every word of the URL pattern holds a dot or a colon. *)
Lemma url_has_dot_or_colon (w : jsstring) :
  matches urlRegex w -> In 46 w \/ In 58 w.
Proof.
  unfold urlRegex. intros H.
  inversion H as [| | |? ? ? H1|? ? ? H1| |]; subst; clear H.
  - right. unfold url_http in H1.
    apply matches_Cat_inv in H1 as (w1 & w2 & -> & _ & H2).
    apply matches_Cat_inv in H2 as (w3 & w4 & -> & _ & H4).
    apply matches_Cat_inv in H4 as (w5 & w6 & -> & H5 & _).
    apply matches_lit in H5. subst w5.
    rewrite !in_app_iff. right. right. left.
    change (str "://") with [58; 47; 47]. left. reflexivity.
  - inversion H1 as [| | |? ? ? H2|? ? ? H2| |]; subst; clear H1.
    + left. unfold url_www in H2.
      apply matches_Cat_inv in H2 as (w1 & w2 & -> & H1 & _).
      apply matches_lit in H1. subst w1.
      rewrite in_app_iff. left.
      change (str "www.") with [119; 119; 119; 46]. simpl. tauto.
    + left. unfold url_domain in H2.
      apply matches_Cat_inv in H2 as (w1 & w2 & -> & H1 & _).
      apply matches_Rep_inv in H1 as (ws & -> & Hws & Hlen).
      destruct Hws as [|l ws Hl _]; [simpl in Hlen; lia|].
      apply matches_domain_label in Hl as (c & u & -> & _ & _).
      cbn [concat]. rewrite !in_app_iff. left. left.
      right. rewrite in_app_iff. right. left. reflexivity.
Qed.

(** A text without dots and colons holds no URL. *)
Lemma plain_text_no_url (text : jsstring) :
  ~ In 46 text -> ~ In 58 text -> exec urlRegex text = None.
Proof.
  intros Hdot Hcolon.
  destruct (exec urlRegex text) as [[[before tok] after]|] eqn:E;
    [exfalso|reflexivity].
  apply exec_Some in E as (-> & Hm & _).
  apply match_here_sound, url_has_dot_or_colon in Hm.
  rewrite !in_app_iff in Hdot, Hcolon. tauto.
Qed.

Lemma startsWith_app_l (s t p : jsstring) :
  startsWith s p = true -> startsWith (s ++ t) p = true.
Proof.
  intros H. apply startsWith_spec in H as [u ->].
  rewrite <- app_assoc. apply startsWith_app.
Qed.

Lemma alnum_not_punct (c : char) : alnum c = true -> punct c = false.
Proof.
  unfold alnum, alpha, upper, lower, digit, between, punct, one_of.
  change (str ".,;:!?") with [46; 44; 59; 58; 33; 63].
  cbn [existsb]. unfold char_eqb.
  intros H.
  repeat match goal with
         | |- context [N.eqb ?a ?b] => destruct (N.eqb_spec a b); subst
         end; try reflexivity; vm_compute in H; discriminate.
Qed.

End UrlFacts.
Import UrlFacts.

(** * The code units of a link *)

Module UrlSafeFacts.

(** The words of a pattern are made of what its classes allow. *)
Lemma matches_within (q : char -> bool) (r : regex) :
  classes_within q r -> forall w, matches r w -> forallb q w = true.
Proof.
  induction r as [|p|r1 IH1 r2 IH2|r1 IH1 r2 IH2|r IH mn mx|];
    cbn [classes_within]; intros Hq w Hw.
  - inversion Hw. reflexivity.
  - apply matches_Class_inv in Hw as (c & -> & Hc). simpl.
    rewrite (Hq c Hc). reflexivity.
  - apply matches_Cat_inv in Hw as (w1 & w2 & -> & H1 & H2).
    destruct Hq as [Hq1 Hq2].
    rewrite forallb_app, (IH1 Hq1 _ H1), (IH2 Hq2 _ H2). reflexivity.
  - destruct Hq as [Hq1 Hq2].
    inversion Hw; subst; [apply (IH1 Hq1) | apply (IH2 Hq2)]; assumption.
  - apply matches_Rep_inv in Hw as (ws & -> & Hws & _).
    induction Hws as [|w ws Hw' _ IHws]; [reflexivity|].
    simpl. rewrite forallb_app, (IH Hq _ Hw'), IHws. reflexivity.
  - inversion Hw. reflexivity.
Qed.

Lemma lit_within (q : char -> bool) (l : jsstring) :
  forallb q l = true -> classes_within q (lit l).
Proof.
  induction l as [|c l IH]; cbn [lit classes_within forallb]; [auto|].
  intros H. apply andb_true_iff in H as [Hc Hl]. split; [|auto].
  intros c' Hc'. apply char_eqb_eq in Hc'. subst c'. exact Hc.
Qed.

Lemma word_safe (c : char) : word c = true -> url_safe c = true.
Proof.
  unfold url_safe, word, alnum, alpha, upper, lower, digit, just, between,
    char_eqb.
  change (chr "_") with 95.
  rewrite !andb_true_iff, !orb_true_iff, !andb_true_iff, !negb_true_iff,
    !N.leb_le, !N.eqb_neq, N.eqb_eq.
  lia.
Qed.

Lemma one_of_safe (s : string) (c : char) :
  forallb url_safe (str s) = true -> one_of s c = true -> url_safe c = true.
Proof.
  unfold one_of. intros Hs Hc.
  apply existsb_exists in Hc as (x & Hin & Hx).
  apply char_eqb_eq in Hx. subst x.
  rewrite forallb_forall in Hs. apply Hs. exact Hin.
Qed.

Lemma just_safe (a : ascii) (c : char) :
  url_safe (chr a) = true -> just a c = true -> url_safe c = true.
Proof. unfold just. intros Ha Hc. apply char_eqb_eq in Hc. congruence. Qed.

Lemma class_char_safe (c : char) :
  (host_char c = true -> url_safe c = true) /\
  (path_char c = true -> url_safe c = true) /\
  (query_char c = true -> url_safe c = true) /\
  (hex c = true -> url_safe c = true) /\
  (digit c = true -> url_safe c = true) /\
  (alnum c = true -> url_safe c = true) /\
  (alpha c = true -> url_safe c = true) /\
  (label_char c = true -> url_safe c = true).
Proof.
  assert (Halnum : alnum c = true -> url_safe c = true).
  { intros H. apply word_safe. unfold word. rewrite H. reflexivity. }
  assert (Hdigit : digit c = true -> url_safe c = true).
  { intros H. apply Halnum. unfold alnum. rewrite H. apply orb_true_r. }
  assert (Halpha : alpha c = true -> url_safe c = true).
  { intros H. apply Halnum. unfold alnum. rewrite H. reflexivity. }
  repeat split; auto.
  - unfold host_char. intros H.
    apply orb_true_iff in H as [H|H]; [apply orb_true_iff in H as [H|H]|].
    + eapply just_safe; [|exact H]. reflexivity.
    + apply word_safe, H.
    + eapply just_safe; [|exact H]. reflexivity.
  - unfold path_char. intros H. apply orb_true_iff in H as [H|H].
    + apply word_safe, H.
    + eapply one_of_safe; [|exact H]. reflexivity.
  - unfold query_char. intros H. apply orb_true_iff in H as [H|H].
    + apply word_safe, H.
    + eapply one_of_safe; [|exact H]. reflexivity.
  - unfold hex. intros H.
    apply orb_true_iff in H as [H|H]; [apply orb_true_iff in H as [H|H]|].
    + auto.
    + apply Halpha. unfold alpha, upper, lower, between in *.
      apply andb_true_iff in H as [H1 H2].
      apply N.leb_le in H1, H2.
      replace (65 <=? c) with true by (symmetry; apply N.leb_le; lia).
      replace (c <=? 90) with true by (symmetry; apply N.leb_le; lia).
      reflexivity.
    + apply Halpha. unfold alpha, upper, lower, between in *.
      apply andb_true_iff in H as [H1 H2].
      apply N.leb_le in H1, H2.
      replace (97 <=? c) with true by (symmetry; apply N.leb_le; lia).
      replace (c <=? 122) with true by (symmetry; apply N.leb_le; lia).
      apply orb_true_r.
  - unfold label_char. intros H. apply orb_true_iff in H as [H|H]; auto.
    eapply just_safe; [|exact H]. reflexivity.
Qed.

Lemma urlRegex_within : classes_within url_safe urlRegex.
Proof.
  unfold urlRegex, url_http, url_www, url_domain, domain_label, url_tail,
    Formatter.port, Formatter.path, Formatter.query, Formatter.fragment,
    pct, opt, star, plus.
  cbn [classes_within].
  repeat match goal with
         | |- _ /\ _ => split
         | |- classes_within _ (lit _) => apply lit_within; reflexivity
         | |- forall c, _ -> _ => intros c; apply (class_char_safe c)
         end.
Qed.

End UrlSafeFacts.
Import UrlSafeFacts.

(** * Properties of the entry formatter *)

(** The callback, in terms of the cleaned match and what was cut off. *)
Lemma linkify_shape (tok trailing : jsstring) :
  matches urlRegex tok ->
  tok = cleaned tok ++ trailing ->
  linkify tok =
  anchor (if has_scheme (cleaned tok) then cleaned tok
          else str "https://" ++ cleaned tok) (cleaned tok) ++ trailing.
Proof.
  intros Hw Htok. unfold linkify. fold (cleaned tok).
  rewrite (drop_cleaned _ _ Htok).
  assert (Hftp : startsWith (cleaned tok) (str "ftp://") = false).
  { destruct (startsWith (cleaned tok) _) eqn:E; [|reflexivity].
    apply (startsWith_app_l _ trailing) in E. rewrite <- Htok in E.
    rewrite (url_not_ftp _ Hw) in E. discriminate. }
  rewrite Hftp. unfold has_scheme, anchor.
  destruct (startsWith (cleaned tok) (str "http://")),
    (startsWith (cleaned tok) (str "https://")); cbn [negb andb orb];
    rewrite <- ?app_assoc; reflexivity.
Qed.

(** The marks are what the callback cuts off. *)
Lemma punct_mark (c : char) : punct c = true <-> mark c.
Proof.
  unfold punct, one_of, mark. rewrite existsb_exists. split.
  - intros (x & Hin & Hx). apply char_eqb_eq in Hx. subst x. exact Hin.
  - intros Hin. exists c. split; [exact Hin|apply char_eqb_refl].
Qed.

(** C7: where the URL pattern matches, the marks that end the match (full
    stop, comma, semicolon, colon, exclamation mark, question mark) are
    left out of the link target and of the anchor text and follow the
    closing tag of the anchor; a match without http:// or https:// at its
    start is linked to itself behind https://; and the example of the
    specification comes out as stated. *)
Theorem autoLinkUrls_trailing_punctuation :
  (forall text before token after : jsstring,
      exec urlRegex text = Some (before, token, after) ->
      exists clean marks : jsstring,
        token = clean ++ marks /\
        clean <> [] /\
        (forall a c, clean = a ++ [c] -> ~ mark c) /\
        Forall mark marks /\
        autoLinkUrls text =
          before
          ++ html "<a href='"
          ++ (if has_scheme clean then clean else str "https://" ++ clean)
          ++ html "' target='_blank' rel='noopener noreferrer'>"
          ++ clean ++ html "</a>"
          ++ marks ++ autoLinkUrls after) /\
  autoLinkUrls (str "See https://example.com/a,b.") =
    str "See "
    ++ html "<a href='https://example.com/a,b' target='_blank' rel='noopener noreferrer'>https://example.com/a,b</a>"
    ++ str ".".
Proof.
  split; [|vm_compute; reflexivity].
  intros text before token after H.
  pose proof (exec_Some _ _ _ _ _ H) as (_ & Hm & _).
  apply match_here_sound in Hm.
  destruct (url_head _ Hm) as (c & t & Htok & Hc).
  destruct (cleaned_spec token) as (trailing & Hsplit & Hpunct & Hlast).
  exists (cleaned token), trailing.
  split; [exact Hsplit|]. split.
  - intros Hnil. rewrite Hnil in Hsplit. simpl in Hsplit.
    rewrite <- Hsplit, Htok in Hpunct. simpl in Hpunct.
    rewrite (alnum_not_punct _ Hc) in Hpunct. discriminate.
  - split.
    { intros a c' Hclean Hmark. apply punct_mark in Hmark.
      rewrite (Hlast a c' Hclean) in Hmark. discriminate. }
    split.
    { apply Forall_forall. intros c' Hin. apply punct_mark.
      rewrite forallb_forall in Hpunct. apply Hpunct, list_elem_of_In, Hin. }
    unfold autoLinkUrls.
    rewrite (replace_all_Some _ _ _ _ _ _ H) by (rewrite Htok; discriminate).
    rewrite (linkify_shape _ _ Hm Hsplit). unfold anchor, anchor_open,
      anchor_attrs, anchor_close.
    rewrite <- !app_assoc. reflexivity.
Qed.

Lemma autoLinkUrls_trailing_punctuation_witness :
  exists clean marks : jsstring,
    str "www.example.com/x.,;:!?" = clean ++ marks /\
    clean <> [] /\
    (forall a c, clean = a ++ [c] -> ~ mark c) /\
    Forall mark marks /\
    autoLinkUrls (str "Visit www.example.com/x.,;:!? now") =
      str "Visit "
      ++ html "<a href='"
      ++ (if has_scheme clean then clean else str "https://" ++ clean)
      ++ html "' target='_blank' rel='noopener noreferrer'>"
      ++ clean ++ html "</a>"
      ++ marks ++ autoLinkUrls (str " now").
Proof.
  apply (proj1 autoLinkUrls_trailing_punctuation
           (str "Visit www.example.com/x.,;:!? now") (str "Visit ")
           (str "www.example.com/x.,;:!?") (str " now")).
  vm_compute; reflexivity.
Defined.

(** C7 as first stated fails: a mark that follows a URL stays inside the
    link when the pattern runs on over it, as over the full stop before a
    closing parenthesis, which the pattern allows in a path. *)
Lemma autoLinkUrls_mark_inside_link_counterexample :
  match_here urlRegex (str "https://example.com/a") = Some [] /\
  mark 46 /\
  autoLinkUrls (str "See https://example.com/a.)") =
    str "See "
    ++ html "<a href='https://example.com/a.)' target='_blank' rel='noopener noreferrer'>https://example.com/a.)</a>" /\
  autoLinkUrls (str "See https://example.com/a.)") <>
    str "See "
    ++ html "<a href='https://example.com/a' target='_blank' rel='noopener noreferrer'>https://example.com/a</a>"
    ++ str ".)".
Proof.
  split; [vm_compute; reflexivity|].
  split; [left; reflexivity|].
  split; [vm_compute; reflexivity|].
  vm_compute. discriminate.
Qed.

(** C9: a text in which the URL pattern matches nowhere comes back as it
    is, code unit for code unit. *)
Theorem autoLinkUrls_identity_without_url (text : jsstring) :
  exec urlRegex text = None -> autoLinkUrls text = text.
Proof. intros H. apply replace_all_None, H. Qed.

Lemma autoLinkUrls_identity_without_url_witness :
  exec urlRegex (html "<b class='x'>5 < 6 & so on</b> <!-- note -->") = None /\
  autoLinkUrls (html "<b class='x'>5 < 6 & so on</b> <!-- note -->")
    = html "<b class='x'>5 < 6 & so on</b> <!-- note -->".
Proof.
  split; [vm_compute; reflexivity|].
  apply autoLinkUrls_identity_without_url. vm_compute; reflexivity.
Defined.

(** In particular, markup without a dot and without a colon comes back
    as it is. *)
Lemma autoLinkUrls_plain_text (text : jsstring) :
  ~ In 46 text -> ~ In 58 text -> autoLinkUrls text = text.
Proof.
  intros Hdot Hcolon. apply replace_all_None, plain_text_no_url; assumption.
Qed.

(** * The insertion planner *)

Module PlannerFacts.

Lemma match_here_lit (l s : jsstring) :
  match_here (lit l) s =
  if startsWith s l then Some (drop (length l) s) else None.
Proof. apply m_lit. Qed.

(** Searching for a literal: the first occurrence, if there is one. *)
Lemma exec_lit_Some (l s before tok after : jsstring) :
  exec (lit l) s = Some (before, tok, after) ->
  tok = l /\ s = before ++ l ++ after /\
  (forall b1 b2, before = b1 ++ b2 -> b2 <> [] ->
     startsWith (b2 ++ l ++ after) l = false).
Proof.
  intros H. apply exec_Some in H as (Hs & Hm & Hmin).
  pose proof (match_here_sound _ _ _ Hm) as Hw.
  apply matches_lit in Hw. subst tok. repeat split; auto.
  intros b1 b2 Hb Hne. specialize (Hmin b1 b2 Hb Hne).
  rewrite match_here_lit in Hmin.
  destruct (startsWith _ _); [discriminate | reflexivity].
Qed.

Lemma exec_lit_None (l s : jsstring) :
  exec (lit l) s = None <-> includes s l = false.
Proof.
  split.
  - intros H. destruct (includes s l) eqn:E; [|reflexivity].
    apply includes_spec in E as (a & b & ->).
    pose proof (exec_None _ _ H a (l ++ b) eq_refl) as Hn.
    rewrite match_here_lit, startsWith_app in Hn. discriminate.
  - intros H. destruct (exec (lit l) s) as [[[b t] a]|] eqn:E; [|reflexivity].
    apply exec_lit_Some in E as (_ & -> & _).
    exfalso. eapply includes_false_app; eauto.
Qed.

Lemma exec_lit_head (l after : jsstring) :
  exec (lit l) (l ++ after) = Some ([], l, after).
Proof.
  apply exec_head. rewrite match_here_lit, startsWith_app.
  rewrite drop_app_length. reflexivity.
Qed.

Lemma exec_lit_is_Some (l s : jsstring) :
  includes s l = true ->
  exists before after, exec (lit l) s = Some (before, l, after).
Proof.
  intros H. destruct (exec (lit l) s) as [[[b t] a]|] eqn:E.
  - pose proof (exec_lit_Some _ _ _ _ _ E) as (-> & _). eauto.
  - apply exec_lit_None in E. congruence.
Qed.

(** Replacing line feeds by line feeds changes nothing. *)
Lemma relinefeed_id (s : jsstring) : relinefeed s = s.
Proof.
  unfold relinefeed.
  remember (length s) as n eqn:Hn. revert s Hn.
  induction n as [n IH] using lt_wf_ind. intros s Hn.
  destruct (exec (lit nl) s) as [[[before tok] after]|] eqn:E.
  - rewrite (replace_all_Some _ _ _ _ _ _ E).
    + apply exec_lit_Some in E as (-> & -> & _).
      rewrite (IH (length after)); [reflexivity| |reflexivity].
      subst n. rewrite !length_app. simpl. lia.
    + apply exec_lit_Some in E as (-> & _). discriminate.
  - apply replace_all_None, E.
Qed.

(** A new section is a comment, a header block of the day, the one entry
    and the closing tag. *)
Lemma section_of_shape (now : Date) (stamp : N) (rantText : jsstring) :
  section_of now stamp rantText =
  nl ++ nl ++ html "<!-- " ++ day_of now ++ html " -->" ++ nl
  ++ header_block (day_of now) nl nl (displayDate (getCurrentDateTime now)) nl
  ++ entry_of now stamp rantText
  ++ nl ++ nl ++ divClose.
Proof.
  unfold section_of, sectionHTML, entry_of, entryHTML, header_block, dayTag,
    headerOpen, labelOpen, labelClose, divClose.
  rewrite <- !app_assoc. reflexivity.
Qed.

End PlannerFacts.
Import PlannerFacts.

(** * The page format and the templates *)

Module PageFacts.

Lemma entryHTML_page (rantId time rantText : jsstring) :
  entryHTML rantId time rantText
  = Page.entry rantId time (autoLinkUrls rantText).
Proof.
  unfold entryHTML, Page.entry, Page.entry_any, Page.lf, nl.
  rewrite relinefeed_id, <- ?app_assoc. reflexivity.
Qed.

Lemma sectionHTML_page (date displayDate rantId time rantText : jsstring) :
  sectionHTML date displayDate rantId time rantText
  = Page.section date displayDate rantId time (autoLinkUrls rantText).
Proof.
  unfold sectionHTML, Page.section, Page.header, Page.day_tag, Page.day_any,
    Page.entry, Page.entry_any, Page.lf, nl.
  rewrite relinefeed_id, <- ?app_assoc. reflexivity.
Qed.

Lemma header_block_page (day w1 w2 label w3 : jsstring) :
  header_block day w1 w2 label w3 = Page.header day w1 w2 label w3.
Proof.
  unfold header_block, Page.header, Page.day_tag, Page.day_any, dayTag,
    headerOpen, labelOpen, labelClose, divClose.
  rewrite <- ?app_assoc. reflexivity.
Qed.

Lemma dayTag_page (day : jsstring) : dayTag day = Page.day_tag day.
Proof. reflexivity. Qed.

(** The first occurrence of a literal, as the pattern finds it. *)
Lemma exec_lit_split (l s : jsstring) :
  exec (lit l) s =
  match Page.split_at_first l s with
  | Some (gap, rest) => Some (gap, l, rest)
  | None => None
  end.
Proof.
  induction s as [|c s IH].
  - rewrite exec_unfold, match_here_lit. cbn [Page.split_at_first].
    destruct (startsWith [] l) eqn:E; [|reflexivity].
    destruct l; [reflexivity|discriminate].
  - rewrite exec_unfold, match_here_lit. cbn [Page.split_at_first].
    destruct (startsWith (c :: s) l) eqn:E.
    + pose proof (startsWith_inv _ _ E) as E'.
      assert (length l <= length (c :: s))%nat as Hle
        by (rewrite E', length_app; lia).
      rewrite length_drop.
      replace (length (c :: s) - (length (c :: s) - length l))%nat
        with (length l) by lia.
      rewrite E' at 1. rewrite take_app_length. reflexivity.
    + rewrite IH. destruct (Page.split_at_first l s) as [[gap rest]|];
        reflexivity.
Qed.

End PageFacts.
Import PageFacts.

Section InsertRantFacts.
Variable path_join : jsstring -> jsstring -> jsstring.
Variable now : Date.
Variable stamp : N.
Variable rantText : jsstring.
Variable siteConfig : SiteConfig.

Let dt := getCurrentDateTime now.
Let rantId := rantId_of now stamp.
Let rantsFile := path_join (path siteConfig) (file siteConfig).

(** The run of [insertRant] on a document that holds the marker. *)
Lemma insertRant_run (w : world) (content before marker after : jsstring) :
  text_at w rantsFile = Some content ->
  exec timelineRegex content = Some (before, marker, after) ->
  exists result,
    insertRant path_join now stamp rantText siteConfig w =
    (let '(insertPosition, newRantHTML) :=
       plan content (day_of now) (displayDate dt) rantId (time dt) rantText
         (length before + length marker) in
     (Done result,
      snd (writeFileSync rantsFile
             (splice content insertPosition newRantHTML) w))).
Proof.
  intros Hfile Hmarker.
  apply fmap_Some in Hfile as (data & Hdata & ->).
  unfold insertRant, bind, existsSync, readFileSync.
  fold dt rantId rantsFile. rewrite Hdata.
  rewrite bool_decide_eq_true_2 by eauto. cbn [negb].
  rewrite ?Hdata, Hmarker.
  destruct (plan _ _ _ _ _ _ _) as [insertPosition newRantHTML].
  unfold writeFileSync, ret. eexists. reflexivity.
Qed.

(** C1: on a document without the container marker the insertion ends
    the process with status 1 after the message that names the missing
    container; the files are those it found, and nothing was written. *)
Theorem insertRant_missing_container (w : world) (data : bytes) :
  files w !! rantsFile = Some data ->
  includes (utf8_decode data) timelineMarker = false ->
  exists w',
    insertRant path_join now stamp rantText siteConfig w = (Exit 1, w') /\
    files w' = files w /\
    files w' !! rantsFile = Some data /\
    trace w' =
      trace w ++ [Err (colors.red
                         ++ str "Error: Could not find rants-timeline div"
                         ++ colors.reset)].
Proof.
  intros Hfile Hmarker. apply exec_lit_None in Hmarker.
  unfold insertRant, bind, existsSync, readFileSync.
  fold rantsFile. rewrite Hfile.
  rewrite bool_decide_eq_true_2 by eauto. cbn [negb].
  rewrite ?Hfile. unfold timelineRegex in *. rewrite Hmarker.
  eexists. split; [reflexivity|]. cbn. auto.
Qed.

(** The run on a malformed day section (C5): the opening tag of the day
    is there, its header block is not; position and markup stay
    undefined, and the document is written back as itself, the text
    "undefined" and itself again. *)
Lemma insertRant_malformed_section (w : world)
    (content before marker after : jsstring) :
  text_at w rantsFile = Some content ->
  exec timelineRegex content = Some (before, marker, after) ->
  includes content (dayTag (day_of now)) = true ->
  exec (dateHeaderPattern (day_of now)) content = None ->
  exists result w',
    insertRant path_join now stamp rantText siteConfig w
      = (Done result, w') /\
    files w' =
      <[rantsFile := utf8_encode (content ++ str "undefined" ++ content)]>
        (files w) /\
    trace w' =
      trace w
      ++ [WriteFile rantsFile (content ++ str "undefined" ++ content)].
Proof.
  intros Hfile Hmarker Hday Hheader.
  destruct (insertRant_run w _ _ _ _ Hfile Hmarker) as [result Hrun].
  unfold plan in Hrun.
  destruct (exec_lit_is_Some _ _ Hday) as (b & a & E).
  unfold datePattern in Hrun. rewrite E, Hheader in Hrun.
  exists result. eexists. split; [exact Hrun|]. split; reflexivity.
Qed.
End InsertRantFacts.

(** * The header block of a day section *)

Module HeaderFacts.

Lemma lit_refuses {A : Type} (p : char -> bool) (c0 : char) (l : jsstring)
    (k : jsstring -> option A) (c : char) (t : jsstring) :
  p c0 = false -> p c = true -> m (lit (c0 :: l)) (c :: t) k = None.
Proof.
  intros H0 Hc. cbn [lit m].
  destruct (char_eqb c0 c) eqn:E; [|reflexivity].
  apply char_eqb_eq in E. congruence.
Qed.

Lemma m_cat_lit {A : Type} (l : jsstring) (r : regex) (s : jsstring)
    (k : jsstring -> option A) :
  m (Cat (lit l) r) s k =
  match eat l s with
  | Some s' => m r s' k
  | None => None
  end.
Proof. cbn [m]. rewrite m_lit. unfold eat. destruct (startsWith s l); auto. Qed.

(** The header pattern never goes back on a run it has taken. *)
Lemma header_here (day s : jsstring) :
  match_here (dateHeaderPattern day) s = header_scan day s.
Proof.
  unfold match_here, dateHeaderPattern, header_scan, eat.
  cbn [m]. rewrite m_lit.
  destruct (startsWith s (dayTag day)); [|reflexivity].
  cbn [mbind option_bind].
  set (s1 := drop (length (dayTag day)) s).
  rewrite m_star_class
    by (intros c t Hc; apply (lit_refuses space); [reflexivity | exact Hc]).
  rewrite m_lit.
  destruct (startsWith (skip space s1) headerOpen); [|reflexivity].
  cbn [mbind option_bind].
  set (s2 := drop (length headerOpen) (skip space s1)).
  rewrite m_star_class
    by (intros c t Hc; apply (lit_refuses space); [reflexivity | exact Hc]).
  rewrite m_lit.
  destruct (startsWith (skip space s2) labelOpen); [|reflexivity].
  cbn [mbind option_bind].
  set (s3 := drop (length labelOpen) (skip space s2)).
  rewrite m_plus_class.
  2:{ intros c t Hc. apply (lit_refuses not_lt); [reflexivity | exact Hc]. }
  destruct s3 as [|c s4]; [reflexivity|].
  destruct (not_lt c); [|reflexivity].
  rewrite m_lit.
  destruct (startsWith (skip not_lt s4) labelClose); [|reflexivity].
  cbn [mbind option_bind].
  set (s5 := drop (length labelClose) (skip not_lt s4)).
  rewrite m_star_class
    by (intros c' t Hc; apply (lit_refuses space); [reflexivity | exact Hc]).
  rewrite m_lit. reflexivity.
Qed.

Lemma eat_app (l s : jsstring) : eat l (l ++ s) = Some s.
Proof. unfold eat. rewrite startsWith_app, drop_app_length. reflexivity. Qed.

Lemma eat_inv (l s s' : jsstring) : eat l s = Some s' -> s = l ++ s'.
Proof.
  unfold eat. destruct (startsWith s l) eqn:E; [|discriminate].
  intros [= <-]. apply startsWith_inv, E.
Qed.

Lemma skip_before_lit (p : char -> bool) (w l rest : jsstring) :
  forallb p w = true ->
  match l with c :: _ => p c = false | [] => False end ->
  skip p (w ++ l ++ rest) = l ++ rest.
Proof.
  intros Hw Hl. apply skip_run; [exact Hw|].
  destruct l as [|c0 l]; [contradiction|].
  intros c t [= <- _]. exact Hl.
Qed.

(** A header block matches, whatever follows it. *)
Lemma header_scan_block (day w1 w2 label w3 rest : jsstring) :
  forallb space w1 = true -> forallb space w2 = true ->
  forallb space w3 = true ->
  label <> [] -> forallb not_lt label = true ->
  header_scan day (header_block day w1 w2 label w3 ++ rest) = Some rest.
Proof.
  intros H1 H2 H3 Hne Hlabel. unfold header_scan, header_block.
  rewrite <- !app_assoc, eat_app. cbn [mbind option_bind].
  rewrite (skip_before_lit space w1 headerOpen) by (auto; reflexivity).
  rewrite eat_app. cbn [mbind option_bind].
  rewrite (skip_before_lit space w2 labelOpen) by (auto; reflexivity).
  rewrite eat_app. cbn [mbind option_bind].
  destruct label as [|c label]; [congruence|].
  cbn [app]. simpl in Hlabel. apply andb_true_iff in Hlabel as [-> Hlabel].
  rewrite (skip_before_lit not_lt label labelClose) by (auto; reflexivity).
  rewrite eat_app. cbn [mbind option_bind].
  rewrite (skip_before_lit space w3 divClose) by (auto; reflexivity).
  apply eat_app.
Qed.

(** What the header pattern matches is a header block. *)
Lemma header_scan_inv (day s rest : jsstring) :
  header_scan day s = Some rest ->
  exists w1 w2 label w3,
    s = header_block day w1 w2 label w3 ++ rest /\
    forallb space w1 = true /\ forallb space w2 = true /\
    forallb space w3 = true /\
    label <> [] /\ forallb not_lt label = true.
Proof.
  unfold header_scan. intros H.
  destruct (eat (dayTag day) s) as [s1|] eqn:E1; [|discriminate].
  cbn [mbind option_bind] in H.
  destruct (eat headerOpen (skip space s1)) as [s2|] eqn:E2; [|discriminate].
  cbn [mbind option_bind] in H.
  destruct (eat labelOpen (skip space s2)) as [s3|] eqn:E3; [|discriminate].
  cbn [mbind option_bind] in H.
  destruct s3 as [|c s4]; [discriminate|].
  destruct (not_lt c) eqn:Hc; [|discriminate].
  destruct (eat labelClose (skip not_lt s4)) as [s5|] eqn:E4; [|discriminate].
  cbn [mbind option_bind] in H.
  apply eat_inv in E1, E2, E3, E4, H.
  destruct (skip_split space s1) as (w1 & Hs1 & Hw1).
  destruct (skip_split space s2) as (w2 & Hs2 & Hw2).
  destruct (skip_split not_lt s4) as (label & Hs4 & Hlabel).
  destruct (skip_split space s5) as (w3 & Hs5 & Hw3).
  exists w1, w2, (c :: label), w3.
  split; [|repeat split; auto; try discriminate].
  - unfold header_block. rewrite <- ?app_assoc.
    rewrite E1 at 1. f_equal.
    rewrite Hs1 at 1. f_equal.
    rewrite E2 at 1. f_equal.
    rewrite Hs2 at 1. f_equal.
    rewrite E3 at 1. f_equal. cbn [app]. f_equal.
    rewrite Hs4 at 1. f_equal.
    rewrite E4 at 1. f_equal.
    rewrite Hs5 at 1. f_equal. exact H.
  - simpl. rewrite Hc, Hlabel. reflexivity.
Qed.

End HeaderFacts.
Import HeaderFacts.

(** * Counting occurrences *)

Module CountFacts.

Lemma count_sub_unfold (needle s : jsstring) :
  count_sub needle s =
  ((if startsWith s needle then 1 else 0) +
   match s with
   | [] => 0
   | _ :: s' => count_sub needle s'
   end)%nat.
Proof. destruct s; reflexivity. Qed.

Lemma count_sub_app_ge (needle a s : jsstring) :
  (count_sub needle s <= count_sub needle (a ++ s))%nat.
Proof.
  induction a as [|c a IH]; [reflexivity|].
  rewrite (count_sub_unfold needle ((c :: a) ++ s)). cbn [app].
  destruct (startsWith _ _); lia.
Qed.

Lemma count_sub_head (needle s : jsstring) :
  startsWith s needle = true -> (1 <= count_sub needle s)%nat.
Proof. intros H. rewrite count_sub_unfold, H. lia. Qed.

Lemma count_sub_zero (needle s : jsstring) :
  includes s needle = false -> count_sub needle s = 0%nat.
Proof.
  induction s as [|c s IH]; simpl; intros H;
    apply orb_false_iff in H as [-> H]; [reflexivity|].
  rewrite IH by exact H. reflexivity.
Qed.

(** Two occurrences at different places count twice. *)
Lemma count_sub_two (needle b1 b2 s : jsstring) :
  b2 <> [] ->
  startsWith (b2 ++ s) needle = true ->
  startsWith s needle = true ->
  (2 <= count_sub needle (b1 ++ b2 ++ s))%nat.
Proof.
  intros Hne H2 Hs.
  pose proof (count_sub_app_ge needle b1 (b2 ++ s)) as Hge.
  destruct b2 as [|c b2]; [congruence|].
  rewrite (count_sub_unfold needle ((c :: b2) ++ s)), H2 in Hge.
  cbn [app] in *.
  pose proof (count_sub_app_ge needle b2 s).
  pose proof (count_sub_head _ _ Hs). lia.
Qed.

(** A needle whose last code unit [g] occurs nowhere else in it cannot
    run across the end of a string that ends in [g]. *)
Lemma startsWith_frontier (g : char) (t x y : jsstring) :
  ~ In g t ->
  startsWith ((x ++ [g]) ++ y) (t ++ [g]) = startsWith (x ++ [g]) (t ++ [g]).
Proof.
  revert x. induction t as [|a t IH]; intros x Hin.
  - destruct x; reflexivity.
  - assert (Hag : char_eqb a g = false).
    { destruct (char_eqb a g) eqn:E; [|reflexivity].
      apply char_eqb_eq in E. subst a. exfalso. apply Hin. left. reflexivity. }
    destruct x as [|b x]; cbn [app startsWith].
    + rewrite Hag. reflexivity.
    + rewrite IH; [reflexivity|]. intros H. apply Hin. right. exact H.
Qed.

Lemma count_sub_frontier (g : char) (t x y : jsstring) :
  ~ In g t -> t <> [] ->
  count_sub (t ++ [g]) ((x ++ [g]) ++ y) =
  (count_sub (t ++ [g]) (x ++ [g]) + count_sub (t ++ [g]) y)%nat.
Proof.
  intros Hin Hne. induction x as [|b x IH].
  - destruct t as [|a t]; [congruence|].
    assert (Hag : char_eqb a g = false).
    { destruct (char_eqb a g) eqn:E; [|reflexivity].
      apply char_eqb_eq in E. subst a. exfalso. apply Hin. left. reflexivity. }
    cbn [app count_sub startsWith]. rewrite Hag. reflexivity.
  - rewrite (count_sub_unfold _ (((b :: x) ++ [g]) ++ y)).
    rewrite (count_sub_unfold _ ((b :: x) ++ [g])).
    rewrite (startsWith_frontier g t (b :: x) y Hin).
    cbn [app]. rewrite IH. lia.
Qed.

Lemma startsWith_short (x y p : jsstring) :
  startsWith (x ++ y) p = true -> (length p <= length x)%nat ->
  startsWith x p = true.
Proof.
  revert x. induction p as [|a p IH]; intros x H Hlen; [reflexivity|].
  destruct x as [|b x]; [simpl in Hlen; lia|].
  cbn [app startsWith] in *. apply andb_true_iff in H as [-> H].
  apply IH; [exact H | simpl in Hlen; lia].
Qed.

Lemma includes_app_l (a b p : jsstring) :
  includes a p = true -> includes (a ++ b) p = true.
Proof.
  intros H. apply includes_spec in H as (x & y & ->).
  apply includes_spec. exists x, (y ++ b). rewrite <- !app_assoc. reflexivity.
Qed.

End CountFacts.
Import CountFacts.

(** * The date key *)

Module DateFacts.

Lemma uint_digits (d : Decimal.uint) :
  forallb digit (str (NilEmpty.string_of_uint d)) = true.
Proof. induction d; simpl; auto. Qed.

Lemma decimal_digits (n : N) : forallb digit (decimal n) = true.
Proof. apply uint_digits. Qed.

Lemma padStart2_digits (s : jsstring) :
  forallb digit s = true -> forallb digit (padStart2 s) = true.
Proof.
  intros H. unfold padStart2. rewrite forallb_app, H, andb_true_r.
  induction (2 - length s)%nat; simpl; auto.
Qed.

Lemma digits_date_chars (s : jsstring) :
  forallb digit s = true -> forallb date_char s = true.
Proof.
  induction s as [|c s IH]; simpl; [reflexivity|].
  intros H. apply andb_true_iff in H as [Hc Hs].
  unfold date_char at 1. rewrite Hc, IH by exact Hs. reflexivity.
Qed.

(** The date key is made of digits and hyphens. *)
Lemma date_chars (now : Date) :
  forallb date_char (date (getCurrentDateTime now)) = true.
Proof.
  unfold getCurrentDateTime. cbn [date].
  rewrite !forallb_app.
  rewrite (digits_date_chars (decimal _)) by apply decimal_digits.
  rewrite !(digits_date_chars (padStart2 _))
    by apply padStart2_digits, decimal_digits.
  reflexivity.
Qed.

Lemma date_chars_not_gt (s : jsstring) :
  forallb date_char s = true -> ~ In 62 s.
Proof.
  induction s as [|c s IH]; simpl; [tauto|].
  intros H. apply andb_true_iff in H as [Hc Hs].
  intros [->|Hin]; [discriminate | exact (IH Hs Hin)].
Qed.

End DateFacts.
Import DateFacts.

(** * Entries of one day *)

Module SameDayFacts.

Lemma header_block_day (day w1 w2 label w3 : jsstring) :
  startsWith (header_block day w1 w2 label w3) (dayTag day) = true /\
  (length (dayTag day) <= length (header_block day w1 w2 label w3))%nat /\
  exists h, header_block day w1 w2 label w3 = h ++ [62].
Proof.
  unfold header_block. split; [apply startsWith_app|]. split.
  - rewrite length_app. lia.
  - exists (dayTag day ++ w1 ++ headerOpen ++ w2 ++ labelOpen ++ label
              ++ labelClose ++ w3 ++ html "</div").
    rewrite <- !app_assoc. reflexivity.
Qed.

(** What the header pattern finds is a header block of the day. *)
Lemma exec_header_block (day content before header after : jsstring) :
  exec (dateHeaderPattern day) content = Some (before, header, after) ->
  content = before ++ header ++ after /\
  exists w1 w2 label w3,
    header = header_block day w1 w2 label w3 /\
    forallb space w1 = true /\ forallb space w2 = true /\
    forallb space w3 = true /\
    label <> [] /\ forallb not_lt label = true.
Proof.
  intros H. apply exec_Some in H as (Hc & Hm & _). split; [exact Hc|].
  rewrite header_here in Hm.
  apply header_scan_inv in Hm as (w1 & w2 & label & w3 & Hs & Hw).
  apply app_inv_tail in Hs. exists w1, w2, label, w3. split; assumption.
Qed.

(** In a document with one section for the day, the header block that
    the pattern finds stays the one it finds when the text after it
    changes. *)
Lemma header_stable (day content before header after : jsstring) :
  exec (dateHeaderPattern day) content = Some (before, header, after) ->
  count_sub (dayTag day) content = 1%nat ->
  forall after',
    exec (dateHeaderPattern day) (before ++ header ++ after')
    = Some (before, header, after').
Proof.
  intros H Hcount after'.
  destruct (exec_header_block _ _ _ _ _ H)
    as (Hc & w1 & w2 & label & w3 & -> & H1 & H2 & H3 & Hne & Hlabel).
  destruct (header_block_day day w1 w2 label w3) as (Hsw & Hlen & _).
  apply exec_intro.
  - rewrite header_here. apply header_scan_block; auto.
  - intros b1 b2 -> Hb2. rewrite header_here. unfold header_scan, eat.
    destruct (startsWith (b2 ++ header_block day w1 w2 label w3 ++ after')
                (dayTag day)) eqn:E; [exfalso|reflexivity].
    rewrite app_assoc in E. apply startsWith_short in E.
    2:{ rewrite length_app. lia. }
    apply (startsWith_app_l _ after) in E. rewrite <- app_assoc in E.
    pose proof (count_sub_two (dayTag day) b1 b2
                  (header_block day w1 w2 label w3 ++ after) Hb2 E
                  (startsWith_app_l _ _ _ Hsw)) as Htwo.
    rewrite Hc, <- app_assoc in Hcount. lia.
Qed.

Lemma not_In_forallb (g : char) (l : jsstring) :
  forallb (fun c => negb (c =? g)) l = true -> ~ In g l.
Proof.
  induction l as [|c l IH]; simpl; [tauto|].
  intros H. apply andb_true_iff in H as [Hc Hl].
  intros [->|Hin]; [|exact (IH Hl Hin)].
  rewrite N.eqb_refl in Hc. discriminate.
Qed.

Lemma dayTag_frontier (day : jsstring) :
  forallb date_char day = true ->
  exists t, dayTag day = t ++ [62] /\ ~ In 62 t /\ t <> [].
Proof.
  intros Hday.
  exists (html "<div class='rant-day' data-date='" ++ day ++ [34]).
  split; [|split].
  - unfold dayTag. rewrite <- !app_assoc. reflexivity.
  - rewrite !in_app_iff. intros [H|[H|H]].
    + revert H. apply not_In_forallb. reflexivity.
    + exact (date_chars_not_gt _ Hday H).
    + destruct H as [H|[]]. discriminate.
  - discriminate.
Qed.

Lemma entryHTML_last (rantId time rantText : jsstring) :
  exists e, entryHTML rantId time rantText = e ++ [62].
Proof.
  unfold entryHTML.
  change (html "</div>") with (html "</div" ++ [62]) at 3.
  rewrite !app_assoc. eexists. reflexivity.
Qed.

(** Entries without the opening tag of the day, put after the header
    block, leave the number of sections of the day as it was. *)
Lemma count_sub_entries (day before header after e1 e2 : jsstring) :
  forallb date_char day = true ->
  (exists h, header = h ++ [62]) ->
  (exists e, e1 = e ++ [62]) -> (exists e, e2 = e ++ [62]) ->
  includes e1 (dayTag day) = false -> includes e2 (dayTag day) = false ->
  count_sub (dayTag day) (before ++ header ++ e1 ++ e2 ++ after)
  = count_sub (dayTag day) (before ++ header ++ after).
Proof.
  intros Hday [h ->] [x1 ->] [x2 ->] Hn1 Hn2.
  destruct (dayTag_frontier day Hday) as (t & Ht & Hin & Hne).
  rewrite Ht in *.
  assert (Hgroup : forall z : jsstring,
             before ++ (h ++ [62]) ++ z = ((before ++ h) ++ [62]) ++ z)
    by (intros z; rewrite <- !app_assoc; reflexivity).
  rewrite !Hgroup.
  rewrite !(count_sub_frontier 62 t (before ++ h)) by assumption.
  f_equal.
  rewrite (count_sub_frontier 62 t x1) by assumption.
  rewrite (count_sub_frontier 62 t x2) by assumption.
  rewrite (count_sub_zero _ _ Hn1), (count_sub_zero _ _ Hn2). reflexivity.
Qed.

End SameDayFacts.
Import SameDayFacts.

Section ExistingDay.
Variable path_join : jsstring -> jsstring -> jsstring.
Variable siteConfig : SiteConfig.

Let rantsFile := path_join (path siteConfig) (file siteConfig).

(** One insertion into a document that has the header block of the
    day: the entry goes right after the header block. *)
Lemma insertRant_existing_day (now : Date) (stamp : N)
    (rantText : jsstring) (w : world)
    (content before header after : jsstring) :
  text_at w rantsFile = Some content ->
  includes content timelineMarker = true ->
  exec (dateHeaderPattern (day_of now)) content
    = Some (before, header, after) ->
  exists result,
    insertRant path_join now stamp rantText siteConfig w =
    (Done result,
     snd (writeFileSync rantsFile
            (before ++ header ++ entry_of now stamp rantText ++ after) w)).
Proof.
  intros Hfile Hmarker Hheader.
  destruct (exec_lit_is_Some _ _ Hmarker) as (b & a & E).
  destruct (insertRant_run path_join now stamp rantText siteConfig
              w content b timelineMarker a Hfile E) as [result Hrun].
  exists result. rewrite Hrun. unfold plan.
  change (date (getCurrentDateTime now)) with (day_of now).
  destruct (exec_header_block _ _ _ _ _ Hheader)
    as (Hc & w1 & w2 & label & w3 & Hh & _).
  assert (Hday : includes content (dayTag (day_of now)) = true).
  { apply includes_spec. exists before. eexists.
    rewrite Hc, Hh. unfold header_block.
    rewrite <- !app_assoc. reflexivity. }
  destruct (exec_lit_is_Some _ _ Hday) as (b' & a' & E').
  unfold datePattern. rewrite E', Hheader.
  unfold splice, slice_to, slice_from, to_text.
  assert (Htake : take (length before + length header) content
                  = before ++ header)
    by (rewrite Hc, app_assoc, <- length_app; apply take_app_length).
  assert (Hdrop : drop (length before + length header) content = after)
    by (rewrite Hc, app_assoc, <- length_app; apply drop_app_length).
  rewrite Htake, Hdrop, <- !app_assoc. reflexivity.
Qed.

End ExistingDay.

(** * Where a tag can start *)

Module OccurrenceFacts.

Lemma sealed_app (n x x' y : jsstring) :
  sealed n x (x' ++ y) -> sealed n x' y -> sealed n (x ++ x') y.
Proof.
  intros Hx Hx' k b2 H Hne.
  apply app_eq_inv in H as [(k' & Hk & Hb)|(k' & Hk & Hb)].
  - destruct k' as [|c k'].
    + cbn [app] in Hb. apply (Hx' [] b2); [symmetry; exact Hb|exact Hne].
    + subst b2. rewrite <- app_assoc. apply (Hx k (c :: k')); [exact Hk|].
      discriminate.
  - apply (Hx' k' b2); [exact Hb|exact Hne].
Qed.

Lemma sealed_free (g : char) (n n' x y : jsstring) :
  n = g :: n' -> ~ In g x -> sealed n x y.
Proof.
  intros -> Hin k b2 -> Hne. destruct b2 as [|c b2]; [congruence|].
  cbn [app startsWith].
  destruct (char_eqb g c) eqn:E; [|reflexivity].
  apply char_eqb_eq in E. subst c. exfalso. apply Hin.
  apply in_or_app. right. left. reflexivity.
Qed.

Lemma startsWith_refl (p : jsstring) : startsWith p p = true.
Proof.
  rewrite <- (app_nil_r p) at 1. apply startsWith_app.
Qed.

Lemma startsWith_prefix (s p r : jsstring) :
  startsWith s (p ++ r) = true -> startsWith s p = true.
Proof.
  revert s. induction p as [|a p IH]; intros s H; [destruct s; reflexivity|].
  destruct s as [|b s]; [discriminate|].
  cbn [app startsWith] in *. apply andb_true_iff in H as [-> H].
  apply IH, H.
Qed.

Lemma agrees_startsWith (s y n : jsstring) :
  startsWith (s ++ y) n = true -> agrees s n = true.
Proof.
  unfold agrees. revert s. induction n as [|a n IH]; intros s H.
  - destruct (s ++ drop (length s) []); reflexivity.
  - destruct s as [|b s].
    + cbn [length app]. rewrite drop_0. apply startsWith_refl.
    + cbn [app startsWith length drop] in *.
      apply andb_true_iff in H as [-> H]. apply IH, H.
Qed.

Lemma In_suffixes (k b2 : jsstring) :
  b2 <> [] -> In b2 (suffixes (k ++ b2)).
Proof.
  intros Hne. induction k as [|c k IH].
  - destruct b2; [congruence|]. left. reflexivity.
  - cbn [app suffixes]. right. exact IH.
Qed.

Lemma sealed_clashes (n p r l y : jsstring) :
  n = p ++ r -> clashes p l = true -> sealed n l y.
Proof.
  intros -> Hc k b2 -> Hne.
  destruct (startsWith (b2 ++ y) (p ++ r)) eqn:E; [exfalso|reflexivity].
  apply startsWith_prefix, agrees_startsWith in E.
  unfold clashes in Hc. rewrite forallb_forall in Hc.
  specialize (Hc b2 (In_suffixes k b2 Hne)). rewrite E in Hc. discriminate.
Qed.

(** A text without the needle, followed by something that the needle
    cannot run into. *)
Lemma sealed_text (g : char) (n n' x y : jsstring) :
  n = g :: n' ->
  includes x n = false ->
  match y with
  | [] => True
  | c :: _ => ~ In c n'
  end ->
  sealed n x y.
Proof.
  intros -> Hnone Hy k b2 -> Hne.
  destruct (startsWith (b2 ++ y) (g :: n')) eqn:E; [exfalso|reflexivity].
  apply startsWith_spec in E as (r & E).
  apply app_eq_inv in E as [(k' & Hb2 & Hr)|(k' & Hn & Hy')].
  - apply (includes_false_app _ _ k k' Hnone). rewrite Hb2. reflexivity.
  - destruct k' as [|c k'].
    + rewrite app_nil_r in Hn. subst b2.
      apply (includes_false_app _ _ k [] Hnone). rewrite app_nil_r.
      reflexivity.
    + subst y. destruct b2 as [|g' b2]; [congruence|].
      cbn [app] in Hn. injection Hn as _ Hn. apply Hy. rewrite Hn.
      apply in_or_app. right. left. reflexivity.
Qed.

Lemma count_sealed (n x y : jsstring) :
  sealed n x y -> count_sub n (x ++ y) = count_sub n y.
Proof.
  induction x as [|c x IH]; intros H; [reflexivity|].
  rewrite count_sub_unfold. cbn [app].
  change (c :: x ++ y) with ((c :: x) ++ y).
  rewrite (H [] (c :: x) eq_refl ltac:(discriminate)). cbn [Nat.add].
  apply IH. intros k b2 -> Hne. apply (H (c :: k) b2); [reflexivity|exact Hne].
Qed.

Lemma count_here (g : char) (n n' z : jsstring) :
  n = g :: n' -> ~ In g n' -> count_sub n (n ++ z) = S (count_sub n z).
Proof.
  intros -> Hin. rewrite count_sub_unfold, startsWith_app.
  change ((g :: n') ++ z) with (g :: n' ++ z). cbn [Nat.add]. f_equal.
  apply count_sealed. apply (sealed_free g (g :: n') n'); [reflexivity|].
  exact Hin.
Qed.

Lemma includes_sealed (n x : jsstring) :
  n <> [] -> sealed n x [] -> includes x n = false.
Proof.
  intros Hn. induction x as [|c x IH]; intros H.
  - destruct n; [congruence|reflexivity].
  - cbn [includes]. apply orb_false_iff. split.
    + rewrite <- (app_nil_r (c :: x)).
      apply (H [] (c :: x)); [reflexivity|discriminate].
    + apply IH. intros k b2 -> Hne.
      apply (H (c :: k) b2); [reflexivity|exact Hne].
Qed.

(** A part of a text without the needle is without it. *)
Lemma includes_part (a x b n : jsstring) :
  includes (a ++ x ++ b) n = false -> includes x n = false.
Proof.
  intros H. destruct (includes x n) eqn:E; [exfalso|reflexivity].
  apply includes_spec in E as (u & v & ->).
  apply (includes_false_app _ _ (a ++ u) (v ++ b) H).
  rewrite <- !app_assoc. reflexivity.
Qed.

End OccurrenceFacts.
Import OccurrenceFacts.

(** * The bytes around the insertion point *)

Module FrameFacts.

Lemma marker_last : exists m, timelineMarker = m ++ [62].
Proof. exists (html "<div class='rants-timeline'"). reflexivity. Qed.

Lemma entry_page_last (id time body : jsstring) :
  exists e, Page.entry id time body = e ++ [62].
Proof.
  unfold Page.entry.
  change (html "</div>") with (html "</div" ++ [62]) at 3.
  rewrite !app_assoc. eexists. reflexivity.
Qed.

Lemma section_page_last (day label id time body : jsstring) :
  exists e, Page.section day label id time body = e ++ [62].
Proof.
  unfold Page.section.
  change (html "</div>") with (html "</div" ++ [62]).
  rewrite !app_assoc. eexists. reflexivity.
Qed.

Lemma section_page_head (day label id time body : jsstring) :
  exists e, Page.section day label id time body = 10 :: e.
Proof. unfold Page.section, Page.lf. cbn [app]. eexists. reflexivity. Qed.

(** Encoding a text that was cut behind a closing angle bracket. *)
Lemma utf8_encode_behind (p s : jsstring) :
  (exists p', p = p' ++ [62]) ->
  utf8_encode (p ++ s) = utf8_encode p ++ utf8_encode s.
Proof. intros [p' ->]. apply utf8_encode_app_l. reflexivity. Qed.

(** Encoding a text that was cut in front of a line feed or of an
    opening angle bracket. *)
Lemma utf8_encode_before (p s s' : jsstring) (c : char) :
  s = c :: s' -> c < 128 ->
  utf8_encode (p ++ s) = utf8_encode p ++ utf8_encode s.
Proof.
  intros -> Hc. apply utf8_encode_app_r. unfold low_surrogate, in_range.
  apply andb_false_iff. left. apply N.leb_gt. lia.
Qed.

(** The bytes of a text with markup put in at a position where the text
    before ends in a closing angle bracket, or where the markup starts
    with a line feed and the text behind starts with an opening angle
    bracket. *)
Lemma splice_bytes (content markup : jsstring) (pos : nat) :
  (exists e, markup = e ++ [62]) ->
  (exists p, take pos content = p ++ [62]) \/
  ((exists e, markup = 10 :: e) /\ exists s, drop pos content = 60 :: s) ->
  utf8_encode content
    = utf8_encode (take pos content) ++ utf8_encode (drop pos content) /\
  utf8_encode (splice content (Some pos) (Some markup))
    = utf8_encode (take pos content) ++ utf8_encode markup
        ++ utf8_encode (drop pos content).
Proof.
  intros Hlast Hcut. unfold splice, slice_to, slice_from, to_text.
  rewrite <- (take_drop pos content) at 1.
  destruct Hcut as [Hp|[[e He] [s Hs]]].
  - rewrite !(utf8_encode_behind (take pos content)) by exact Hp.
    rewrite (utf8_encode_behind markup) by exact Hlast. split; reflexivity.
  - rewrite (utf8_encode_before (take pos content) (drop pos content) s 60)
      by (auto; lia).
    rewrite He at 1. cbn [app].
    rewrite (utf8_encode_before (take pos content) _ (e ++ drop pos content)
               10) by (auto; lia).
    change (10 :: e ++ drop pos content) with ((10 :: e) ++ drop pos content).
    rewrite <- He.
    rewrite (utf8_encode_behind markup) by exact Hlast. split; reflexivity.
Qed.

End FrameFacts.
Import FrameFacts.

Section Frame.
Variable path_join : jsstring -> jsstring -> jsstring.
Variable now : Date.
Variable stamp : N.
Variable rantText : jsstring.
Variable siteConfig : SiteConfig.

Let dt := getCurrentDateTime now.
Let rantId := rantId_of now stamp.
Let rantsFile := path_join (path siteConfig) (file siteConfig).

(** C2: when the bytes of the document file are well-formed UTF-8, the
    marker is there and a position was found, the new file is a prefix
    of the old bytes, the bytes of the new entry or of the new section,
    and the rest of the old bytes. *)
Theorem insertRant_splices_in_place (w : world) (data : bytes)
    (before marker after : jsstring) (insertPosition : nat)
    (newRantHTML : option jsstring) :
  files w !! rantsFile = Some data ->
  well_formed_utf8 data = true ->
  exec timelineRegex (utf8_decode data) = Some (before, marker, after) ->
  plan (utf8_decode data) (day_of now) (displayDate dt) rantId (time dt)
    rantText (length before + length marker)
    = (Some insertPosition, newRantHTML) ->
  exists (prefix suffix markup : bytes) result w',
    data = prefix ++ suffix /\
    (markup = utf8_encode
                (Page.entry rantId (time dt) (autoLinkUrls rantText)) \/
     markup = utf8_encode
                (Page.section (day_of now) (displayDate dt) rantId (time dt)
                   (autoLinkUrls rantText))) /\
    insertRant path_join now stamp rantText siteConfig w
      = (Done result, w') /\
    files w' = <[rantsFile := prefix ++ markup ++ suffix]> (files w).
Proof.
  intros Hdata Hwf Hmarker Hplan.
  pose proof (utf8_round_trip _ Hwf) as Hback.
  set (content := utf8_decode data) in *.
  assert (Hfile : text_at w rantsFile = Some content)
    by (unfold text_at; rewrite Hdata; reflexivity).
  destruct (insertRant_run path_join now stamp rantText siteConfig w
              content before marker after Hfile Hmarker) as [result Hrun].
  fold dt rantId rantsFile in Hrun. rewrite Hplan in Hrun.
  pose proof (exec_lit_Some _ _ _ _ _ Hmarker) as (-> & Hcontent & _).
  assert (Hcut : exists markup,
             newRantHTML = Some markup /\
             (exists e, markup = e ++ [62]) /\
             (markup = Page.entry rantId (time dt) (autoLinkUrls rantText) \/
              markup = Page.section (day_of now) (displayDate dt) rantId
                         (time dt) (autoLinkUrls rantText)) /\
             ((exists p, take insertPosition content = p ++ [62]) \/
              ((exists e, markup = 10 :: e) /\
               exists s, drop insertPosition content = 60 :: s))).
  { unfold plan in Hplan.
    destruct (exec (datePattern _) content).
    - destruct (exec (dateHeaderPattern _) content) as [[[b h] a]|] eqn:Eh;
        [|discriminate].
      apply pair_equal_spec in Hplan as [Hpos <-].
      assert (insertPosition = length (b ++ h)) as ->
        by (injection Hpos as Hpos; rewrite <- Hpos, !length_app;
            reflexivity).
      destruct (exec_header_block _ _ _ _ _ Eh)
        as (Hc & w1 & w2 & label & w3 & Hh & _).
      destruct (header_block_day (day_of now) w1 w2 label w3)
        as (_ & _ & [x Hx]).
      eexists. split; [reflexivity|]. rewrite entryHTML_page.
      split; [apply entry_page_last|]. split; [left; reflexivity|].
      left. exists (b ++ x).
      rewrite Hc, app_assoc, take_app_length, Hh, Hx.
      rewrite <- app_assoc. reflexivity.
    - assert (Hdrop : drop (length before + length timelineMarker) content
                      = after).
      { rewrite Hcontent, app_assoc, <- length_app. apply drop_app_length. }
      rewrite Hdrop in Hplan.
      apply pair_equal_spec in Hplan as [Hpos <-].
      eexists. split; [reflexivity|]. rewrite sectionHTML_page.
      split; [apply section_page_last|]. split; [right; reflexivity|].
      destruct (exec anyDayRegex after) as [[[gap tag] rest]|] eqn:Ea.
      + assert (insertPosition
                = length ((before ++ timelineMarker) ++ gap)) as ->
          by (injection Hpos as Hpos; rewrite <- Hpos, !length_app;
              reflexivity).
        right. split; [apply section_page_head|].
        apply exec_lit_Some in Ea as (-> & Hafter & _).
        exists (drop 1 anyDayTag ++ rest).
        rewrite Hcontent, Hafter, (app_assoc before), (app_assoc _ gap).
        rewrite drop_app_length. reflexivity.
      + assert (insertPosition = length (before ++ timelineMarker)) as ->
          by (injection Hpos as Hpos; rewrite <- Hpos, !length_app;
              reflexivity).
        left. destruct marker_last as [m Hm]. exists (before ++ m).
        rewrite Hcontent, app_assoc, take_app_length, Hm.
        rewrite <- app_assoc. reflexivity. }
  destruct Hcut as (markup & -> & Hlast & Hmarkup & Hcut).
  destruct (splice_bytes content markup insertPosition Hlast Hcut)
    as [Hold Hnew].
  exists (utf8_encode (take insertPosition content)),
    (utf8_encode (drop insertPosition content)), (utf8_encode markup),
    result.
  eexists. split; [rewrite <- Hold; symmetry; exact Hback|].
  split; [destruct Hmarkup as [->| ->]; [left|right]; reflexivity|].
  split; [exact Hrun|].
  cbn [snd writeFileSync record files]. rewrite Hnew. reflexivity.
Qed.

End Frame.

(** * Tags in the linked text *)

Module SealFacts.

Lemma url_safe_not_lt (s : jsstring) :
  forallb url_safe s = true -> ~ In 60 s.
Proof.
  intros H Hin. rewrite forallb_forall in H. specialize (H _ Hin).
  vm_compute in H. discriminate.
Qed.

Lemma sealed_plain (n x y : jsstring) :
  tag_shaped n -> ~ In 60 x -> sealed n x y.
Proof.
  intros (n' & -> & _) Hx. apply (sealed_free 60 _ (100 :: n')); auto.
Qed.

Lemma sealed_anchor_lit (n l y : jsstring) :
  tag_shaped n -> clashes [60; 100] l = true -> sealed n l y.
Proof.
  intros (n' & -> & _) Hl.
  apply (sealed_clashes _ [60; 100] n'); [reflexivity|exact Hl].
Qed.

(** The words of the URL pattern hold no opening angle bracket. *)
Lemma url_not_lt (tok : jsstring) : matches urlRegex tok -> ~ In 60 tok.
Proof.
  intros H. apply url_safe_not_lt.
  apply (matches_within url_safe urlRegex urlRegex_within), H.
Qed.

(** Linking puts no tag of a division into a text that has none. *)
Lemma sealed_autoLinkUrls (n text y : jsstring) :
  tag_shaped n ->
  includes text n = false ->
  match y with
  | [] => True
  | c :: _ => c = 10 \/ c = 60
  end ->
  sealed n (autoLinkUrls text) y.
Proof.
  intros Hn Hnone Hy.
  remember (length text) as len eqn:Hlen. revert text Hnone Hlen.
  induction len as [len IH] using lt_wf_ind. intros text Hnone Hlen.
  pose proof Hn as (n' & Hshape & H60 & H10).
  destruct (exec urlRegex text) as [[[before tok] after]|] eqn:E.
  - pose proof (exec_Some _ _ _ _ _ E) as (Htext & Hm & _).
    apply match_here_sound in Hm.
    destruct (url_head _ Hm) as (c & t & Htok & Hc).
    destruct (cleaned_spec tok) as (trailing & Hsplit & _ & _).
    pose proof (url_not_lt _ Hm) as Hlt.
    assert (Hclean : ~ In 60 (cleaned tok))
      by (intros Hin; apply Hlt; rewrite Hsplit; apply in_or_app; auto).
    assert (Htrail : ~ In 60 trailing)
      by (intros Hin; apply Hlt; rewrite Hsplit; apply in_or_app; auto).
    unfold autoLinkUrls.
    rewrite (replace_all_Some _ _ _ _ _ _ E) by (rewrite Htok; discriminate).
    rewrite (linkify_shape _ _ Hm Hsplit). unfold anchor.
    rewrite <- !app_assoc.
    apply sealed_app.
    { apply (sealed_text 60 n (100 :: n')); [exact Hshape| |].
      - rewrite Htext in Hnone.
        apply (includes_part [] before (tok ++ after)), Hnone.
      - unfold anchor_open. intros [Hd|Hin]; [discriminate|].
        apply H60, Hin. }
    apply sealed_app; [apply sealed_anchor_lit; [exact Hn|reflexivity]|].
    apply sealed_app.
    { apply sealed_plain; [exact Hn|].
      destruct (has_scheme (cleaned tok)); [exact Hclean|].
      intros Hin. apply in_app_or in Hin as [Hin|Hin]; [|exact (Hclean Hin)].
      revert Hin. apply not_In_forallb. reflexivity. }
    apply sealed_app.
    { apply sealed_plain; [exact Hn|]. apply not_In_forallb. reflexivity. }
    apply sealed_app; [apply sealed_plain; assumption|].
    apply sealed_app; [apply sealed_anchor_lit; [exact Hn|reflexivity]|].
    apply sealed_app; [apply sealed_plain; assumption|].
    apply (IH (length after)); [|  |reflexivity].
    + subst len. rewrite Htext, Htok, !length_app. simpl. lia.
    + rewrite Htext, app_assoc in Hnone.
      apply (includes_part (before ++ tok) after []).
      rewrite app_nil_r. exact Hnone.
  - unfold autoLinkUrls. rewrite (replace_all_None _ _ _ E).
    apply (sealed_text 60 n (100 :: n')); [exact Hshape|exact Hnone|].
    destruct y as [|c y]; [exact I|].
    intros [Hd|Hin]; destruct Hy as [-> | ->];
      try discriminate; [exact (H10 Hin)|exact (H60 Hin)].
Qed.

End SealFacts.
Import SealFacts.

(** * Tags in the markup of an entry and of a section *)

Module MarkupFacts.

Lemma digits_not (g : char) (s : jsstring) :
  digit g = false -> forallb digit s = true -> ~ In g s.
Proof.
  intros Hg Hs Hin. rewrite forallb_forall in Hs. specialize (Hs _ Hin).
  congruence.
Qed.

Lemma date_chars_not (g : char) (s : jsstring) :
  date_char g = false -> forallb date_char s = true -> ~ In g s.
Proof.
  intros Hg Hs Hin. rewrite forallb_forall in Hs. specialize (Hs _ Hin).
  congruence.
Qed.

Lemma rantId_not_lt (now : Date) (stamp : N) : ~ In 60 (rantId_of now stamp).
Proof.
  unfold rantId_of. rewrite !in_app_iff. intros [H|[H|[H|H]]].
  - revert H. apply not_In_forallb. reflexivity.
  - revert H. apply date_chars_not; [reflexivity|apply date_chars].
  - revert H. apply not_In_forallb. reflexivity.
  - revert H. apply digits_not; [reflexivity|apply decimal_digits].
Qed.

Lemma time_not_lt (now : Date) : ~ In 60 (time (getCurrentDateTime now)).
Proof.
  cbn [getCurrentDateTime time]. rewrite !in_app_iff.
  intros [H|[H|[H|[H|H]]]].
  - revert H. apply digits_not; [reflexivity|apply decimal_digits].
  - revert H. apply not_In_forallb. reflexivity.
  - revert H. apply digits_not; [reflexivity|].
    apply padStart2_digits, decimal_digits.
  - revert H. apply not_In_forallb. reflexivity.
  - revert H. destruct (12 <=? getHours now); apply not_In_forallb;
      reflexivity.
Qed.

Lemma not_lt_not_In (s : jsstring) : forallb not_lt s = true -> ~ In 60 s.
Proof.
  intros Hs Hin. rewrite forallb_forall in Hs. specialize (Hs _ Hin).
  vm_compute in Hs. discriminate.
Qed.

(** The label of a new day section holds no opening angle bracket. *)
Lemma displayDate_not_lt (now : Date) :
  forallb not_lt (displayDate (getCurrentDateTime now)) = true /\
  displayDate (getCurrentDateTime now) <> [].
Proof.
  assert (Hdigit : forall s, forallb digit s = true ->
                             forallb not_lt s = true).
  { intros s Hs. rewrite forallb_forall in *. intros c Hc.
    specialize (Hs c Hc). unfold digit, between in Hs.
    unfold not_lt, just, char_eqb. change (chr "<") with 60.
    apply negb_true_iff, N.eqb_neq. intros <-.
    vm_compute in Hs. discriminate. }
  assert (Hmonth : forallb not_lt
                     (to_text (nth_error monthNames (getMonth now))) = true
                   /\ to_text (nth_error monthNames (getMonth now)) <> []).
  { destruct (nth_error monthNames (getMonth now)) as [name|] eqn:E;
      cbn [to_text].
    - apply nth_error_In in E. unfold monthNames in E. cbn [map In] in E.
      repeat (destruct E as [<-|E];
              [split; [vm_compute; reflexivity|vm_compute; discriminate]|]).
      destruct E.
    - split; [vm_compute; reflexivity|vm_compute; discriminate]. }
  destruct Hmonth as [Hm Hne].
  cbn [getCurrentDateTime displayDate]. split.
  - rewrite !forallb_app, Hm.
    rewrite (Hdigit _ (padStart2_digits _ (decimal_digits _))).
    rewrite (Hdigit _ (decimal_digits _)). reflexivity.
  - intros H. apply app_eq_nil in H as [H _]. exact (Hne H).
Qed.

Lemma day_any_shaped : tag_shaped Page.day_any.
Proof.
  eexists. split; [reflexivity|].
  split; apply not_In_forallb; reflexivity.
Qed.

Lemma entry_any_shaped : tag_shaped Page.entry_any.
Proof.
  eexists. split; [reflexivity|].
  split; apply not_In_forallb; reflexivity.
Qed.

Lemma day_tag_shaped (day : jsstring) :
  forallb date_char day = true -> tag_shaped (Page.day_tag day).
Proof.
  intros Hday. exists (drop 2 Page.day_any ++ day ++ html "'>").
  split; [reflexivity|].
  split; rewrite !in_app_iff; intros [H|[H|H]]; revert H;
    first [apply not_In_forallb; reflexivity
          |apply date_chars_not; [reflexivity|exact Hday]].
Qed.

Lemma day_tag_plain (day : jsstring) :
  forallb date_char day = true -> ~ In replacement (Page.day_tag day).
Proof.
  intros Hday. unfold Page.day_tag. rewrite !in_app_iff.
  intros [H|[H|H]]; revert H;
    first [apply not_In_forallb; reflexivity
          |apply date_chars_not; [reflexivity|exact Hday]].
Qed.

(** A text without the start of a needle is without the needle. *)
Lemma includes_longer (x p r : jsstring) :
  includes x p = false -> includes x (p ++ r) = false.
Proof.
  intros H. destruct (includes x (p ++ r)) eqn:E; [exfalso|reflexivity].
  apply includes_spec in E as (a & b & ->).
  apply (includes_false_app _ _ a (r ++ b) H).
  rewrite <- !app_assoc. reflexivity.
Qed.

Ltac seal_piece p r :=
  first
    [ apply sealed_plain;
      [assumption
      |first [assumption | apply not_In_forallb; reflexivity]]
    | apply (sealed_clashes _ p r);
      [first [reflexivity | symmetry; apply app_nil_r]
      |vm_compute; reflexivity]
    | apply sealed_autoLinkUrls;
      [assumption | assumption | hnf; left; reflexivity] ].

Ltac seal p r :=
  repeat (apply sealed_app; [seal_piece p r|]); seal_piece p r.

(** No opening tag of the day starts in an entry whose text has none. *)
Lemma sealed_entry_day_tag (day id time text y : jsstring) :
  forallb date_char day = true ->
  ~ In 60 id -> ~ In 60 time ->
  includes text (Page.day_tag day) = false ->
  sealed (Page.day_tag day) (Page.entry id time (autoLinkUrls text)) y.
Proof.
  intros Hday Hid Htime Htext.
  pose proof (day_tag_shaped day Hday) as Hn.
  set (n := Page.day_tag day) in *.
  unfold Page.entry. seal Page.day_any (day ++ html "'>").
Qed.

Lemma sealed_entry_day_any (id time text y : jsstring) :
  ~ In 60 id -> ~ In 60 time ->
  includes text Page.day_any = false ->
  sealed Page.day_any (Page.entry id time (autoLinkUrls text)) y.
Proof.
  intros Hid Htime Htext.
  pose proof day_any_shaped as Hn.
  unfold Page.entry. seal Page.day_any (@nil char).
Qed.

(** An entry whose text has no opening tag of an entry has one. *)
Lemma count_entry_any (id time text y : jsstring) :
  ~ In 60 id -> ~ In 60 time ->
  includes text Page.entry_any = false ->
  count_sub Page.entry_any (Page.entry id time (autoLinkUrls text) ++ y)
  = S (count_sub Page.entry_any y).
Proof.
  intros Hid Htime Htext.
  pose proof entry_any_shaped as Hn.
  unfold Page.entry. rewrite <- !app_assoc.
  repeat (rewrite (count_sealed Page.entry_any)
            by seal_piece Page.entry_any (@nil char)).
  rewrite (count_here 60 Page.entry_any (drop 1 Page.entry_any))
    by (first [reflexivity | apply not_In_forallb; reflexivity]).
  repeat (rewrite (count_sealed Page.entry_any)
            by seal_piece Page.entry_any (@nil char)).
  reflexivity.
Qed.

Section NewSection.
Variables day label id time text : jsstring.
Hypothesis Hday : forallb date_char day = true.
Hypothesis Hlabel : ~ In 60 label.
Hypothesis Hid : ~ In 60 id.
Hypothesis Htime : ~ In 60 time.

Let page : jsstring :=
  Page.marker ++ Page.section day label id time (autoLinkUrls text).

(** The marker and a new section around a text without tags of its own:
    one opening tag of a day section, the one of the day, and one
    opening tag of an entry. *)
Lemma count_section_day_any :
  includes text Page.day_any = false ->
  count_sub Page.day_any page = 1%nat.
Proof.
  intros Htext.
  pose proof day_any_shaped as Hn.
  pose proof (date_chars_not 60 day eq_refl Hday) as Hd.
  unfold page. rewrite <- (app_nil_r (Page.marker ++ _)).
  unfold Page.section, Page.header, Page.day_tag, Page.entry.
  rewrite <- !app_assoc.
  repeat (rewrite (count_sealed Page.day_any)
            by seal_piece Page.day_any (@nil char)).
  rewrite (count_here 60 Page.day_any (drop 1 Page.day_any))
    by (first [reflexivity | apply not_In_forallb; reflexivity]).
  repeat (rewrite (count_sealed Page.day_any)
            by seal_piece Page.day_any (@nil char)).
  reflexivity.
Qed.

Lemma count_section_day_tag :
  includes text Page.day_any = false ->
  count_sub (Page.day_tag day) page = 1%nat.
Proof.
  intros Htext'.
  pose proof (includes_longer text Page.day_any (day ++ html "'>") Htext')
    as Htext.
  pose proof (day_tag_shaped day Hday) as Hn.
  pose proof (date_chars_not 60 day eq_refl Hday) as Hd.
  change (Page.day_any ++ day ++ html "'>") with (Page.day_tag day) in Htext.
  unfold page. rewrite <- (app_nil_r (Page.marker ++ _)).
  set (n := Page.day_tag day) in *.
  unfold Page.section, Page.header, Page.entry.
  rewrite <- !app_assoc.
  repeat (rewrite (count_sealed n)
            by seal_piece Page.day_any (day ++ html "'>")).
  rewrite (count_here 60 n (drop 1 Page.day_any ++ day ++ html "'>")).
  2:{ reflexivity. }
  2:{ destruct Hn as (n' & Hshape & H60 & _).
      injection Hshape as <-. intros [Hx|Hin]; [discriminate|exact (H60 Hin)]. }
  repeat (rewrite (count_sealed n)
            by seal_piece Page.day_any (day ++ html "'>")).
  reflexivity.
Qed.

Lemma count_section_entry_any :
  includes text Page.entry_any = false ->
  count_sub Page.entry_any page = 1%nat.
Proof.
  intros Htext.
  pose proof entry_any_shaped as Hn.
  pose proof (date_chars_not 60 day eq_refl Hday) as Hd.
  unfold page. rewrite <- (app_nil_r (Page.marker ++ _)).
  unfold Page.section, Page.header, Page.day_tag, Page.entry.
  rewrite <- !app_assoc.
  repeat (rewrite (count_sealed Page.entry_any)
            by seal_piece Page.entry_any (@nil char)).
  rewrite (count_here 60 Page.entry_any (drop 1 Page.entry_any))
    by (first [reflexivity | apply not_In_forallb; reflexivity]).
  repeat (rewrite (count_sealed Page.entry_any)
            by seal_piece Page.entry_any (@nil char)).
  reflexivity.
Qed.
End NewSection.

End MarkupFacts.
Import MarkupFacts.

Module SplitFacts.

(** What [split_at_first] gives is the text around the first
    occurrence. *)
Lemma split_at_first_Some (l s gap rest : jsstring) :
  Page.split_at_first l s = Some (gap, rest) ->
  s = gap ++ l ++ rest /\ sealed l gap (l ++ rest).
Proof.
  intros H. pose proof (exec_lit_split l s) as E. rewrite H in E.
  apply exec_lit_Some in E as (_ & Hs & Hfirst). split; [exact Hs|].
  intros k b2 -> Hne. apply (Hfirst k b2 eq_refl Hne).
Qed.

Lemma split_at_first_None (l s : jsstring) :
  Page.split_at_first l s = None -> includes s l = false.
Proof.
  intros H. pose proof (exec_lit_split l s) as E. rewrite H in E.
  apply exec_lit_None, E.
Qed.

End SplitFacts.
Import SplitFacts.

Section NewDay.
Variable path_join : jsstring -> jsstring -> jsstring.
Variable now : Date.
Variable stamp : N.
Variable rantText : jsstring.
Variable siteConfig : SiteConfig.

Let dt := getCurrentDateTime now.
Let rantId := rantId_of now stamp.
Let rantsFile := path_join (path siteConfig) (file siteConfig).

(** C4: in a document with the marker and without the opening tag of the
    day's section, a new section (comment line, header block, the one
    entry, closing tag) goes right before the first opening tag of a day
    section after the marker, or right after the marker when no such tag
    follows it.  A document that is the marker alone becomes the marker
    and that section; when the rant text itself holds no opening tag of
    a day section or of an entry, the new document has one opening tag
    of a day section, that of the day, and one opening tag of an
    entry. *)
Theorem insertRant_new_day_section (w : world)
    (content before after : jsstring) :
  text_at w rantsFile = Some content ->
  Page.split_at_first Page.marker content = Some (before, after) ->
  includes content (Page.day_tag (day_of now)) = false ->
  let section :=
    Page.section (day_of now) (displayDate dt) rantId (time dt)
      (autoLinkUrls rantText) in
  let content' :=
    match Page.split_at_first Page.day_any after with
    | Some (gap, rest) =>
        before ++ Page.marker ++ gap ++ section ++ Page.day_any ++ rest
    | None => before ++ Page.marker ++ section ++ after
    end in
  exists result w',
    insertRant path_join now stamp rantText siteConfig w
      = (Done result, w') /\
    files w' = <[rantsFile := utf8_encode content']> (files w) /\
    content = before ++ Page.marker ++ after /\
    (forall gap rest,
        Page.split_at_first Page.day_any after = Some (gap, rest) ->
        after = gap ++ Page.day_any ++ rest /\
        sealed Page.day_any gap (Page.day_any ++ rest)) /\
    (Page.split_at_first Page.day_any after = None ->
     includes after Page.day_any = false) /\
    (content = Page.marker ->
     includes rantText Page.day_any = false ->
     includes rantText Page.entry_any = false ->
     content' = Page.marker ++ section /\
     count_sub Page.day_any content' = 1%nat /\
     count_sub (Page.day_tag (day_of now)) content' = 1%nat /\
     count_sub Page.entry_any content' = 1%nat).
Proof.
  intros Hfile Hsplit Hday section content'.
  assert (Hmarker : exec timelineRegex content
                    = Some (before, timelineMarker, after)).
  { unfold timelineRegex. rewrite exec_lit_split.
    change timelineMarker with Page.marker. rewrite Hsplit. reflexivity. }
  assert (Hdate : exec (datePattern (day_of now)) content = None)
    by (apply exec_lit_None; exact Hday).
  destruct (insertRant_run path_join now stamp rantText siteConfig w
              content before timelineMarker after Hfile Hmarker)
    as [result Hrun].
  pose proof (exec_lit_Some _ _ _ _ _ Hmarker) as (_ & Hcontent & _).
  unfold plan in Hrun. rewrite Hdate in Hrun.
  assert (Hdrop : drop (length before + length timelineMarker) content
                  = after).
  { rewrite Hcontent, app_assoc, <- length_app. apply drop_app_length. }
  assert (Htake : take (length before + length timelineMarker) content
                  = before ++ timelineMarker).
  { rewrite Hcontent, app_assoc, <- length_app. apply take_app_length. }
  rewrite Hdrop in Hrun. rewrite sectionHTML_page in Hrun.
  fold dt rantId in Hrun. fold section in Hrun.
  exists result. eexists. split; [exact Hrun|].
  split; [|split; [exact Hcontent|split; [|split]]].
  - cbn [snd writeFileSync record files]. f_equal. f_equal.
    unfold content', splice, slice_to, slice_from, to_text.
    unfold anyDayRegex. rewrite exec_lit_split.
    change anyDayTag with Page.day_any.
    change timelineMarker with Page.marker in *.
    destruct (Page.split_at_first Page.day_any after)
      as [[gap rest]|] eqn:E.
    + apply split_at_first_Some in E as (Hafter & _).
      rewrite Hcontent, Hafter.
      rewrite (app_assoc before), (app_assoc _ gap), <- length_app.
      rewrite <- (length_app _ gap).
      rewrite take_app_length, drop_app_length.
      rewrite <- !app_assoc. reflexivity.
    + rewrite Htake, Hdrop. rewrite <- !app_assoc. reflexivity.
  - intros gap rest E. apply split_at_first_Some, E.
  - apply split_at_first_None.
  - intros Hc Hnoday Hnoentry. rewrite Hc in Hsplit.
    assert (Hh : Page.split_at_first Page.marker Page.marker
                 = Some ([], [])) by (vm_compute; reflexivity).
    rewrite Hh in Hsplit. apply Some_inj, pair_equal_spec in Hsplit as [<- <-].
    assert (Hpage : content' = Page.marker ++ section).
    { assert (Hnone : Page.split_at_first Page.day_any [] = None)
        by (vm_compute; reflexivity).
      unfold content'. rewrite Hnone, app_nil_r. reflexivity. }
    split; [exact Hpage|]. rewrite Hpage. unfold section.
    pose proof (date_chars now) as Hchars.
    pose proof (proj1 (displayDate_not_lt now)) as Hlabel.
    apply not_lt_not_In in Hlabel.
    split; [|split].
    + apply count_section_day_any;
        [exact Hchars|exact Hlabel|apply rantId_not_lt|apply time_not_lt
        |exact Hnoday].
    + apply count_section_day_tag;
        [exact Hchars|exact Hlabel|apply rantId_not_lt|apply time_not_lt
        |exact Hnoday].
    + apply count_section_entry_any;
        [exact Hchars|exact Hlabel|apply rantId_not_lt|apply time_not_lt
        |exact Hnoentry].
Qed.

End NewDay.

(** * Two entries of one day *)

Module NewestFirstFacts.

Lemma not_In_not_lt (s : jsstring) : ~ In 60 s -> forallb not_lt s = true.
Proof.
  intros H. apply forallb_forall. intros c Hc.
  unfold not_lt, just, char_eqb. change (chr "<") with 60.
  apply negb_true_iff, N.eqb_neq. intros <-. exact (H Hc).
Qed.

(** In a document with one opening tag of the day, the header block
    behind that tag is what the header pattern finds. *)
Lemma exec_header_shape (day before w1 w2 label w3 after : jsstring) :
  forallb space w1 = true -> forallb space w2 = true ->
  forallb space w3 = true ->
  label <> [] -> forallb not_lt label = true ->
  count_sub (dayTag day)
    (before ++ header_block day w1 w2 label w3 ++ after) = 1%nat ->
  exec (dateHeaderPattern day)
    (before ++ header_block day w1 w2 label w3 ++ after)
  = Some (before, header_block day w1 w2 label w3, after).
Proof.
  intros H1 H2 H3 Hne Hlabel Hcount.
  destruct (header_block_day day w1 w2 label w3) as (Hsw & Hlen & _).
  apply exec_intro.
  - rewrite header_here. apply header_scan_block; auto.
  - intros b1 b2 -> Hb2. rewrite header_here. unfold header_scan, eat.
    destruct (startsWith (b2 ++ header_block day w1 w2 label w3 ++ after)
                (dayTag day)) eqn:E; [exfalso|reflexivity].
    pose proof (count_sub_two (dayTag day) b1 b2
                  (header_block day w1 w2 label w3 ++ after) Hb2 E
                  (startsWith_app_l _ _ _ Hsw)) as Htwo.
    rewrite <- app_assoc in Hcount. lia.
Qed.

(** An entry without the opening tag of the day, put behind the header
    block, leaves the number of sections of the day as it was. *)
Lemma count_sub_entry (day before header after e : jsstring) :
  forallb date_char day = true ->
  (exists h, header = h ++ [62]) ->
  (exists x, e = x ++ [62]) ->
  includes e (dayTag day) = false ->
  count_sub (dayTag day) (before ++ header ++ e ++ after)
  = count_sub (dayTag day) (before ++ header ++ after).
Proof.
  intros Hday [h ->] [x ->] Hn.
  destruct (dayTag_frontier day Hday) as (t & Ht & Hin & Hne).
  rewrite Ht in *.
  assert (Hgroup : forall z : jsstring,
             before ++ (h ++ [62]) ++ z = ((before ++ h) ++ [62]) ++ z)
    by (intros z; rewrite <- !app_assoc; reflexivity).
  rewrite !Hgroup.
  rewrite !(count_sub_frontier 62 t (before ++ h)) by assumption.
  f_equal.
  rewrite (count_sub_frontier 62 t x) by assumption.
  rewrite (count_sub_zero _ _ Hn). reflexivity.
Qed.

End NewestFirstFacts.
Import NewestFirstFacts.

Section SameDay.
Variable path_join : jsstring -> jsstring -> jsstring.
Variable siteConfig : SiteConfig.
Variable nowA nowB : Date.
Variable stampA stampB : N.
Variable textA textB : jsstring.

Let rantsFile := path_join (path siteConfig) (file siteConfig).
Let day := day_of nowA.
Let entryA :=
  Page.entry (rantId_of nowA stampA) (time (getCurrentDateTime nowA))
    (autoLinkUrls textA).
Let entryB :=
  Page.entry (rantId_of nowB stampB) (time (getCurrentDateTime nowB))
    (autoLinkUrls textB).

(** C3: in a document with the marker before the one section of the day
    and with that section's header block, an entry is put right behind
    the header block.  Entry A and then entry B of the same day, neither
    of them with the opening tag of the day in its text, leave in the
    file the header block once, followed by B and then A, and still one
    opening tag of the day. *)
Theorem insertRant_same_day_newest_first (w : world)
    (before white1 white2 label white3 after : jsstring) :
  let header := Page.header day white1 white2 label white3 in
  text_at w rantsFile = Some (before ++ header ++ after) ->
  day_of nowB = day ->
  forallb space white1 = true ->
  forallb space white2 = true ->
  forallb space white3 = true ->
  label <> [] -> ~ In 60 label ->
  includes before Page.marker = true ->
  count_sub (Page.day_tag day) (before ++ header ++ after) = 1%nat ->
  includes textA (Page.day_tag day) = false ->
  includes textB (Page.day_tag day) = false ->
  exists resultA wA resultB wB,
    insertRant path_join nowA stampA textA siteConfig w
      = (Done resultA, wA) /\
    files wA =
      <[rantsFile := utf8_encode (before ++ header ++ entryA ++ after)]>
        (files w) /\
    insertRant path_join nowB stampB textB siteConfig wA
      = (Done resultB, wB) /\
    files wB =
      <[rantsFile :=
          utf8_encode (before ++ header ++ entryB ++ entryA ++ after)]>
        (files wA) /\
    count_sub (Page.day_tag day)
      (before ++ header ++ entryB ++ entryA ++ after) = 1%nat.
Proof.
  intros header Hfile HdayB H1 H2 H3 Hne Hlabel Hmarker Hcount HnA HnB.
  apply not_In_not_lt in Hlabel.
  pose proof (date_chars nowA) as Hchars. fold (day_of nowA) in Hchars.
  fold day in Hchars.
  assert (Hlast : exists h, header = h ++ [62]).
  { unfold header. rewrite <- header_block_page.
    destruct (header_block_day day white1 white2 label white3)
      as (_ & _ & Hl). exact Hl. }
  assert (Hcut : exists p, before ++ header = p ++ [62]).
  { destruct Hlast as [h ->]. exists (before ++ h).
    rewrite app_assoc. reflexivity. }
  assert (HsealA : includes entryA (dayTag day) = false).
  { apply includes_sealed; [discriminate|].
    apply sealed_entry_day_tag;
      [exact Hchars|apply rantId_not_lt|apply time_not_lt|exact HnA]. }
  assert (HsealB : includes entryB (dayTag day) = false).
  { apply includes_sealed; [discriminate|].
    apply sealed_entry_day_tag;
      [exact Hchars|apply rantId_not_lt|apply time_not_lt|exact HnB]. }
  (* what the second run reads *)
  set (entryA' := read_back entryA).
  assert (Hread : read_back (before ++ header ++ entryA ++ after)
                  = before ++ header ++ entryA' ++ after).
  { pose proof Hfile as Hdata.
    apply fmap_Some in Hdata as (data & _ & Hdata).
    pose proof (read_back_decode data) as Hsame. rewrite <- Hdata in Hsame.
    rewrite (app_assoc before header after) in Hsame.
    apply read_back_parts in Hsame as [HP HS]; [|exact Hcut].
    rewrite (app_assoc before header), (read_back_behind _ _ Hcut), HP.
    rewrite (read_back_behind entryA after (entry_page_last _ _ _)), HS.
    rewrite <- app_assoc. reflexivity. }
  assert (HsealA' : includes entryA' (dayTag day) = false)
    by (apply includes_read_back;
        [apply day_tag_plain, Hchars|exact HsealA]).
  assert (HlastA' : exists e, entryA' = e ++ [62])
    by apply read_back_last, entry_page_last.
  assert (HcountA : count_sub (dayTag day)
                      (before ++ header ++ entryA' ++ after) = 1%nat).
  { rewrite (count_sub_entry day before header after entryA');
      [exact Hcount|exact Hchars|exact Hlast|exact HlastA'|exact HsealA']. }
  assert (Hheader : exec (dateHeaderPattern day) (before ++ header ++ after)
                    = Some (before, header, after)).
  { unfold header. rewrite <- header_block_page.
    apply exec_header_shape;
      [exact H1|exact H2|exact H3|exact Hne|exact Hlabel|exact Hcount]. }
  assert (HheaderB : exec (dateHeaderPattern (day_of nowB))
                       (before ++ header ++ entryA' ++ after)
                     = Some (before, header, entryA' ++ after)).
  { rewrite HdayB. unfold header. rewrite <- header_block_page.
    apply exec_header_shape;
      [exact H1|exact H2|exact H3|exact Hne|exact Hlabel|exact HcountA]. }
  assert (HmarkerA : includes (before ++ header ++ after) timelineMarker
                     = true) by apply includes_app_l, Hmarker.
  destruct (insertRant_existing_day path_join siteConfig nowA stampA textA
              w _ before header after Hfile HmarkerA Hheader)
    as [resultA HrunA].
  unfold entry_of in HrunA. rewrite entryHTML_page in HrunA.
  fold entryA in HrunA.
  set (wA := snd (writeFileSync rantsFile
                    (before ++ header ++ entryA ++ after) w)) in *.
  assert (HfileA : text_at wA rantsFile
                   = Some (before ++ header ++ entryA' ++ after)).
  { unfold text_at, wA. cbn [snd writeFileSync record files].
    rewrite lookup_insert_eq. cbn [fmap option_fmap option_map].
    rewrite utf8_decode_encode, Hread. reflexivity. }
  assert (HmarkerB :
            includes (before ++ header ++ entryA' ++ after) timelineMarker
            = true) by apply includes_app_l, Hmarker.
  destruct (insertRant_existing_day path_join siteConfig nowB stampB textB
              wA _ before header (entryA' ++ after) HfileA HmarkerB HheaderB)
    as [resultB HrunB].
  unfold entry_of in HrunB. rewrite entryHTML_page in HrunB.
  fold entryB in HrunB.
  exists resultA, wA, resultB. eexists.
  split; [exact HrunA|]. split; [reflexivity|].
  split; [exact HrunB|]. split.
  - cbn [snd writeFileSync record files]. f_equal.
    assert (HcutB : exists p, before ++ header ++ entryB = p ++ [62]).
    { destruct (entry_page_last (rantId_of nowB stampB)
                  (time (getCurrentDateTime nowB)) (autoLinkUrls textB))
        as [e He]. fold entryB in He. rewrite He.
      exists (before ++ header ++ e). rewrite <- !app_assoc. reflexivity. }
    assert (Hgroup : forall x : jsstring,
               before ++ header ++ entryB ++ x ++ after
               = (before ++ header ++ entryB) ++ x ++ after)
      by (intros x; rewrite <- !app_assoc; reflexivity).
    rewrite !Hgroup, !(utf8_encode_behind _ _ HcutB).
    rewrite (utf8_encode_behind entryA' after HlastA').
    rewrite (utf8_encode_behind entryA after (entry_page_last _ _ _)).
    unfold entryA'. rewrite utf8_encode_read_back. reflexivity.
  - change (Page.day_tag day) with (dayTag day).
    rewrite (count_sub_entries day before header after entryB entryA);
      [exact Hcount|exact Hchars|exact Hlast|apply entry_page_last
      |apply entry_page_last|exact HsealB|exact HsealA].
Qed.

End SameDay.

(** * The command line *)

Module CliFacts.

Lemma is_case_inv (arg : jsstring) (labels : list string) :
  is_case arg labels = true -> exists l, In l labels /\ arg = str l.
Proof.
  unfold is_case. intros H. apply existsb_exists in H as (l & Hin & Hl).
  exists l. split; [exact Hin|].
  unfold jsstring_eqb in Hl. apply bool_decide_eq_true in Hl. exact Hl.
Qed.

(** An argument without a leading hyphen is none of the flags. *)
Lemma not_flag (arg : jsstring) (labels : list string) :
  startsWith arg (str "-") = false ->
  forallb (fun l => startsWith (str l) (str "-")) labels = true ->
  is_case arg labels = false.
Proof.
  intros Harg Hlabels.
  destruct (is_case arg labels) eqn:E; [|reflexivity].
  apply is_case_inv in E as (l & Hin & ->).
  rewrite forallb_forall in Hlabels. rewrite (Hlabels l Hin) in Harg.
  discriminate.
Qed.

Lemma takes_value_cases (arg : jsstring) :
  takes_value arg =
  is_case arg ["-m"; "--message"]%string
  || is_case arg ["-s"; "--site"]%string.
Proof.
  unfold takes_value, is_case. cbn [existsb].
  rewrite !orb_false_r, !orb_assoc. reflexivity.
Qed.

(** Deciding the cases of the [switch] for an argument that is known. *)
Ltac eval_cases :=
  repeat match goal with
         | |- context [is_case (str ?l) ?ls] =>
             let v := eval vm_compute in (is_case (str l) ls) in
             change (is_case (str l) ls) with v
         end.

End CliFacts.
Import CliFacts.

Section ParseArgsFacts.
Variable SITES : list (jsstring * SiteConfig).
Variable toLowerCase : jsstring -> jsstring.
Variable showHelp : io unit.

(** The loop at an argument without a leading hyphen: the default case
    joins what is left and leaves the loop. *)
Lemma parseLoop_positional (arg : jsstring) (rest : list jsstring)
    (options : Options) :
  startsWith arg (str "-") = false ->
  parseLoop SITES toLowerCase showHelp (arg :: rest) options =
  ret (set_rantText (join (str " ") (arg :: rest)) options).
Proof.
  intros Harg. cbn [Cli.parseLoop].
  rewrite !(not_flag arg) by (exact Harg || reflexivity).
  rewrite Harg. reflexivity.
Qed.

Lemma bind_ret_options (c : io Options) (f : Options -> Options)
    (w : world) :
  bind c (fun o => ret (f o)) w =
  match c w with
  | (Done o, w') => (Done (f o), w')
  | (Exit code, w') => (Exit code, w')
  | (Thrown e, w') => (Thrown e, w')
  end.
Proof. unfold bind, ret. destruct (c w) as [[o|code|e] w']; reflexivity. Qed.

(** C10, as amended: the first argument that neither starts with a
    hyphen nor is the value of a preceding message or site flag, and
    every argument after it, joined by single spaces, are the rant
    text; the other options are what the arguments before it make
    them, whatever comes after it. *)
Theorem parseLoop_rant_text (before : list jsstring) (arg : jsstring)
    (rest : list jsstring) (options : Options) (w : world) :
  flags_only before = true ->
  startsWith arg (str "-") = false ->
  parseLoop SITES toLowerCase showHelp (before ++ arg :: rest) options w
  = match parseLoop SITES toLowerCase showHelp before options w with
  | (Done o, w') =>
      (Done (set_rantText (join (str " ") (arg :: rest)) o), w')
  | (Exit code, w') => (Exit code, w')
  | (Thrown e, w') => (Thrown e, w')
  end.
Proof.
  intros Hflags Harg.
  remember (length before) as n eqn:Hn.
  revert before Hn options w Hflags.
  induction n as [n IH] using lt_wf_ind.
  intros before Hn options w Hflags.
  destruct before as [|a before].
  { cbn [app]. rewrite parseLoop_positional by exact Harg. reflexivity. }
  cbn [flags_only] in Hflags. simpl in Hn.
  destruct (takes_value a) eqn:Hvalue.
  - (* a flag with its value *)
    destruct before as [|value before]; [discriminate|].
    simpl in Hn.
    assert (Hnext : forall o w0,
               parseLoop SITES toLowerCase showHelp
                 (before ++ arg :: rest) o w0 =
               match parseLoop SITES toLowerCase showHelp before o w0 with
               | (Done o', w') =>
                   (Done (set_rantText (join (str " ") (arg :: rest)) o'),
                    w')
               | (Exit code, w') => (Exit code, w')
               | (Thrown e, w') => (Thrown e, w')
               end).
    { intros o w0. apply (IH (length before)); auto. lia. }
    apply is_case_inv in Hvalue as (l & Hin & ->).
    destruct Hin as [<-|[<-|[<-|[<-|[]]]]]; cbn [app Cli.parseLoop];
      eval_cases; cbn match; try apply Hnext.
    all: destruct (lookup_site (toLowerCase value) SITES);
      [apply Hnext | reflexivity].
  - (* a flag without a value *)
    apply andb_true_iff in Hflags as [Hdash Hflags].
    assert (Hnext : forall o w0,
               parseLoop SITES toLowerCase showHelp
                 (before ++ arg :: rest) o w0 =
               match parseLoop SITES toLowerCase showHelp before o w0 with
               | (Done o', w') =>
                   (Done (set_rantText (join (str " ") (arg :: rest)) o'),
                    w')
               | (Exit code, w') => (Exit code, w')
               | (Thrown e, w') => (Thrown e, w')
               end).
    { intros o w0. apply (IH (length before)); auto. lia. }
    rewrite takes_value_cases in Hvalue.
    apply orb_false_iff in Hvalue as [Hm Hs].
    cbn [app Cli.parseLoop]. rewrite Hm, Hs, Hdash. cbn [negb].
    repeat match goal with
           | |- context [if is_case a ?ls then _ else _] =>
               destruct (is_case a ls); [try apply Hnext|]
           end.
    + unfold bind, exit. destruct (showHelp w) as [[[]|code|e] w'];
        reflexivity.
    + apply Hnext.
Qed.
End ParseArgsFacts.

(** * The synchronisation sequence *)

Section SyncFacts.
Variable SITES : list (jsstring * SiteConfig).
Variable toLowerCase : jsstring -> jsstring.
Variable path_join : jsstring -> jsstring -> jsstring.
Variable spawn :
  jsstring -> jsstring -> gmap jsstring jsstring ->
  (jsstring + jsstring) * gmap jsstring jsstring.
Variable is_dir : jsstring -> bool.
Variable now : Date.
Variable stamp : N.
Variable showHelp showEnvironmentInfo manageConfig : io unit.
Variable readFromStdin : io (option jsstring).
Variable openEditor : bool -> io jsstring.
Variable formatWithAI : jsstring -> io jsstring.

(** A finished insertion has written the document, last of all. *)
Lemma insertRant_Done_wrote (rantText : jsstring) (siteConfig : SiteConfig)
    (w w1 : world) (result : InsertResult) :
  insertRant path_join now stamp rantText siteConfig w = (Done result, w1) ->
  exists content,
    trace w1 =
      trace w
      ++ [WriteFile (path_join (path siteConfig) (file siteConfig)) content]
    /\ files w1 =
       <[path_join (path siteConfig) (file siteConfig)
         := utf8_encode content]> (files w).
Proof.
  unfold insertRant, bind, existsSync, readFileSync.
  destruct (bool_decide _); cbn [negb]; [|discriminate].
  destruct (files w !! _) as [data|]; [|discriminate].
  destruct (exec timelineRegex (utf8_decode data))
    as [[[before marker] after]|]; [|discriminate].
  destruct (plan _ _ _ _ _ _ _) as [insertPosition newRantHTML].
  cbn. intros [= _ <-]. eexists. split; reflexivity.
Qed.

(** The git operations when the status does not name the file. *)
Lemma gitOperations_no_change (commit push : bool)
    (message : option jsstring) (siteConfig : SiteConfig) (w : world)
    (status : jsstring) (fs : gmap jsstring jsstring) :
  is_dir (path siteConfig) = true ->
  spawn (path siteConfig) git_status (files w) = (inl status, fs) ->
  includes status (file siteConfig) = false ->
  gitOperations spawn is_dir now commit push message siteConfig w =
  (Done tt,
   {| files := fs; cwd := path siteConfig;
      trace := trace w
               ++ [Chdir (path siteConfig); ExecSync git_status;
                   Log (colors.yellow ++ str "No changes to "
                          ++ file siteConfig ++ str " detected"
                          ++ colors.reset)] |}).
Proof.
  intros Hdir Hstatus Hnone.
  unfold gitOperations, try_catch, bind, chdir, execSync.
  rewrite Hdir. cbn [cwd files record]. rewrite Hstatus, Hnone.
  cbn [negb console_log emit]. unfold record. cbn [files cwd trace].
  rewrite <- !app_assoc. reflexivity.
Qed.

(** C8: after the insertion has written the document, the git operations
    ask for the status of the whole repository, with no path on the
    command line, and look for the name of the file anywhere in what the
    command prints; when the name does not occur there they stop: the
    status is the only command run, nothing is staged, committed or
    pushed, and the run ends normally. *)
Theorem sync_stops_without_change (options : Options)
    (siteConfig : SiteConfig) (rantText : jsstring) (w w1 : world)
    (result : InsertResult) (status : jsstring)
    (fs : gmap jsstring jsstring) :
  insertRant path_join now stamp (trim rantText) siteConfig
    (record (Log (colors.blue ++ str "Adding rant..." ++ colors.reset)) w)
    = (Done result, w1) ->
  commit options || push options = true ->
  is_dir (path siteConfig) = true ->
  spawn (path siteConfig) git_status (files w1) = (inl status, fs) ->
  includes status (file siteConfig) = false ->
  exists content w',
    main_insert path_join spawn is_dir now stamp options siteConfig
        rantText w = (Done tt, w') /\
    files w1 !! path_join (path siteConfig) (file siteConfig)
      = Some (utf8_encode content) /\
    commands (trace w') =
      commands (trace w) ++ [str "git status --porcelain"] /\
    writes (trace w') =
      writes (trace w)
      ++ [(path_join (path siteConfig) (file siteConfig), content)] /\
    files w' = fs.
Proof.
  intros Hinsert Hsync Hdir Hstatus Hnone.
  destruct (insertRant_Done_wrote _ _ _ _ _ Hinsert)
    as (content & Htrace & Hfiles).
  exists content. eexists. split.
  - unfold Main.main_insert, bind, console_log, emit.
    rewrite Hinsert. cbn [record files cwd trace]. rewrite Hsync.
    rewrite gitOperations_no_change with (status := status) (fs := fs);
      auto.
  - unfold record in *. cbn [trace files cwd] in *.
    rewrite Hfiles. split; [apply lookup_insert_eq|].
    rewrite Htrace, !commands_app, !writes_app.
    cbn [commands writes app]. rewrite ?app_nil_r, <- ?app_assoc. auto.
Qed.

End SyncFacts.

(** * The properties at the sample site *)

Lemma insertRant_missing_container_witness :
  exists w',
    insertRant Sample.join2 Sample.afternoon Sample.stampA (str "hello")
      Sample.site (Sample.on_disk Sample.no_marker) = (Exit 1, w') /\
    files w' = files (Sample.on_disk Sample.no_marker) /\
    files w' !! Sample.join2 (path Sample.site) (file Sample.site)
      = Some Sample.no_marker /\
    trace w' =
      trace (Sample.on_disk Sample.no_marker)
      ++ [Err (colors.red ++ str "Error: Could not find rants-timeline div"
                 ++ colors.reset)].
Proof.
  apply (insertRant_missing_container Sample.join2 Sample.afternoon
           Sample.stampA (str "hello") Sample.site
           (Sample.on_disk Sample.no_marker) Sample.no_marker);
    vm_compute; reflexivity.
Defined.

Lemma insertRant_splices_in_place_witness :
  exists (prefix suffix markup : bytes) result w',
    Sample.with_yesterday = prefix ++ suffix /\
    (markup = utf8_encode
                (Page.entry (rantId_of Sample.afternoon Sample.stampA)
                   (time (getCurrentDateTime Sample.afternoon))
                   (autoLinkUrls (str "hello"))) \/
     markup = utf8_encode
                (Page.section (day_of Sample.afternoon)
                   (displayDate (getCurrentDateTime Sample.afternoon))
                   (rantId_of Sample.afternoon Sample.stampA)
                   (time (getCurrentDateTime Sample.afternoon))
                   (autoLinkUrls (str "hello")))) /\
    insertRant Sample.join2 Sample.afternoon Sample.stampA (str "hello")
      Sample.site (Sample.on_disk Sample.with_yesterday)
      = (Done result, w') /\
    files w' =
      <[Sample.join2 (path Sample.site) (file Sample.site)
        := prefix ++ markup ++ suffix]>
        (files (Sample.on_disk Sample.with_yesterday)).
Proof.
  eapply (insertRant_splices_in_place Sample.join2 Sample.afternoon
            Sample.stampA (str "hello") Sample.site
            (Sample.on_disk Sample.with_yesterday) Sample.with_yesterday);
    vm_compute; reflexivity.
Defined.

(** C2 as first stated fails: the file is read as UTF-8 and the whole
    text is written back.  On a page with the marker whose comment holds
    the byte 233, that byte, far from the insertion point, comes back as
    the three bytes 239, 191, 189: the new file is not the old bytes
    with something put in at one place. *)
Lemma insertRant_rewrites_bytes_counterexample :
  exists result w',
    includes (utf8_decode Sample.latin1_page) Page.marker = true /\
    insertRant Sample.join2 Sample.afternoon Sample.stampA (str "hello")
      Sample.site (Sample.on_disk Sample.latin1_page) = (Done result, w') /\
    files w' !! Sample.rantsFile =
      Some (str "<!-- caf" ++ [239; 191; 189] ++ str " -->" ++ [10]
              ++ Page.marker
              ++ utf8_encode
                   (Page.section (str "2024-01-01") (str "January 01, 2024")
                      (str "rant-2024-01-01-1704121620000") (str "3:07 PM")
                      (str "hello"))) /\
    ~ exists (prefix markup suffix new : bytes),
        files w' !! Sample.rantsFile = Some new /\
        Sample.latin1_page = prefix ++ suffix /\
        new = prefix ++ markup ++ suffix.
Proof.
  do 2 eexists. split; [vm_compute; reflexivity|].
  split; [vm_compute; reflexivity|].
  split; [vm_compute; reflexivity|].
  intros (prefix & markup & suffix & new & Hnew & Hold & Hsplit).
  assert (Hin : In 233 new).
  { rewrite Hsplit. assert (H : In 233 (prefix ++ suffix)).
    { rewrite <- Hold. vm_compute. tauto. }
    apply in_app_or in H as [H|H]; apply in_or_app; [left; exact H|].
    right. apply in_or_app. right. exact H. }
  revert Hin. vm_compute in Hnew. apply Some_inj in Hnew. subst new.
  apply not_In_forallb. vm_compute. reflexivity.
Qed.

Lemma insertRant_same_day_newest_first_witness :
  exists resultA wA resultB wB,
    insertRant Sample.join2 Sample.afternoon Sample.stampA (str "A")
      Sample.site (Sample.on_disk Sample.with_today) = (Done resultA, wA) /\
    files wA =
      <[Sample.rantsFile :=
          utf8_encode
            ((html "<!-- rants -->" ++ [10] ++ Page.marker ++ [10]
                ++ str "  ")
               ++ Page.header (str "2024-01-01") [10] [10]
                    (str "January 01, 2024") [10]
               ++ Page.entry (str "rant-2024-01-01-1704121620000")
                    (str "3:07 PM") (str "A")
               ++ drop 167 Sample.with_today)]>
        (files (Sample.on_disk Sample.with_today)) /\
    insertRant Sample.join2 Sample.later Sample.stampB (str "B")
      Sample.site wA = (Done resultB, wB) /\
    files wB =
      <[Sample.rantsFile :=
          utf8_encode
            ((html "<!-- rants -->" ++ [10] ++ Page.marker ++ [10]
                ++ str "  ")
               ++ Page.header (str "2024-01-01") [10] [10]
                    (str "January 01, 2024") [10]
               ++ Page.entry (str "rant-2024-01-01-1704126600000")
                    (str "4:30 PM") (str "B")
               ++ Page.entry (str "rant-2024-01-01-1704121620000")
                    (str "3:07 PM") (str "A")
               ++ drop 167 Sample.with_today)]>
        (files wA) /\
    count_sub (Page.day_tag (str "2024-01-01"))
      ((html "<!-- rants -->" ++ [10] ++ Page.marker ++ [10] ++ str "  ")
         ++ Page.header (str "2024-01-01") [10] [10]
              (str "January 01, 2024") [10]
         ++ Page.entry (str "rant-2024-01-01-1704126600000")
              (str "4:30 PM") (str "B")
         ++ Page.entry (str "rant-2024-01-01-1704121620000")
              (str "3:07 PM") (str "A")
         ++ drop 167 Sample.with_today) = 1%nat.
Proof.
  apply (insertRant_same_day_newest_first Sample.join2 Sample.site
           Sample.afternoon Sample.later Sample.stampA Sample.stampB
           (str "A") (str "B") (Sample.on_disk Sample.with_today)
           (html "<!-- rants -->" ++ [10] ++ Page.marker ++ [10] ++ str "  ")
           [10] [10] (str "January 01, 2024") [10]
           (drop 167 Sample.with_today));
    try (vm_compute; reflexivity).
  - vm_compute. discriminate.
  - apply not_In_forallb. vm_compute. reflexivity.
Defined.

(** C3 as first stated fails: the text of an entry is put into the page
    as it is.  When the text of entry A is itself a header block of the
    day, the page holds two opening tags of the day and two header
    blocks of the day after the two insertions. *)
Lemma insertRant_tag_in_text_counterexample :
  exists resultA wA resultB wB page,
    count_sub (Page.day_tag (str "2024-01-01")) Sample.with_today = 1%nat /\
    insertRant Sample.join2 Sample.afternoon Sample.stampA
      (Page.header (str "2024-01-01") [10] [10] (str "January 01, 2024")
         [10])
      Sample.site (Sample.on_disk Sample.with_today) = (Done resultA, wA) /\
    insertRant Sample.join2 Sample.later Sample.stampB (str "B")
      Sample.site wA = (Done resultB, wB) /\
    text_at wB Sample.rantsFile = Some page /\
    count_sub (Page.day_tag (str "2024-01-01")) page = 2%nat /\
    count_sub
      (Page.header (str "2024-01-01") [10] [10] (str "January 01, 2024")
         [10]) page = 2%nat.
Proof.
  do 5 eexists. split; [vm_compute; reflexivity|].
  split; [vm_compute; reflexivity|].
  split; [vm_compute; reflexivity|].
  split; [vm_compute; reflexivity|].
  split; vm_compute; reflexivity.
Qed.

Lemma insertRant_new_day_section_witness :
  exists result w',
    insertRant Sample.join2 Sample.afternoon Sample.stampA (str "hello")
      Sample.site (Sample.on_disk Sample.with_yesterday)
      = (Done result, w') /\
    files w' !! Sample.rantsFile =
      Some (utf8_encode
              ((html "<!-- rants -->" ++ [10]) ++ Page.marker
                 ++ ([10] ++ str "  ")
                 ++ Page.section (str "2024-01-01") (str "January 01, 2024")
                      (str "rant-2024-01-01-1704121620000") (str "3:07 PM")
                      (str "hello")
                 ++ Page.day_any ++ drop 79 Sample.with_yesterday)).
Proof.
  destruct (insertRant_new_day_section Sample.join2 Sample.afternoon
              Sample.stampA (str "hello") Sample.site
              (Sample.on_disk Sample.with_yesterday) Sample.with_yesterday
              (html "<!-- rants -->" ++ [10])
              (drop 43 Sample.with_yesterday))
    as (result & w' & Hrun & Hfiles & _);
    [vm_compute; reflexivity ..|].
  exists result, w'. split; [exact Hrun|].
  rewrite Hfiles. vm_compute. reflexivity.
Defined.

(** The page that is the marker alone: after one insertion it is the
    marker and one section, with one opening tag of a day section, the
    one of the day, and one opening tag of an entry. *)
Lemma insertRant_empty_document_example :
  exists result w',
    insertRant Sample.join2 Sample.afternoon Sample.stampA (str "hello")
      Sample.site (Sample.on_disk Sample.only_marker) = (Done result, w') /\
    text_at w' Sample.rantsFile
      = Some (Page.marker
                ++ Page.section (str "2024-01-01") (str "January 01, 2024")
                     (str "rant-2024-01-01-1704121620000") (str "3:07 PM")
                     (str "hello")) /\
    count_sub Page.day_any
      (Page.marker
         ++ Page.section (str "2024-01-01") (str "January 01, 2024")
              (str "rant-2024-01-01-1704121620000") (str "3:07 PM")
              (str "hello")) = 1%nat /\
    count_sub Page.entry_any
      (Page.marker
         ++ Page.section (str "2024-01-01") (str "January 01, 2024")
              (str "rant-2024-01-01-1704121620000") (str "3:07 PM")
              (str "hello")) = 1%nat.
Proof.
  do 2 eexists. split; [vm_compute; reflexivity|].
  repeat split; vm_compute; reflexivity.
Qed.

(** C4 as first stated fails: the text of the entry is put into the new
    section as it is.  On the page that is the marker alone, a text that
    holds the opening tag of the day's section and the opening tag of an
    entry leaves two of each on the page. *)
Lemma insertRant_tags_in_new_section_counterexample :
  exists result w' page,
    insertRant Sample.join2 Sample.afternoon Sample.stampA
      (html "<div class='rant-day' data-date='2024-01-01'><div class='rant-entry' id='x'>")
      Sample.site (Sample.on_disk Sample.only_marker) = (Done result, w') /\
    text_at w' Sample.rantsFile = Some page /\
    count_sub (Page.day_tag (str "2024-01-01")) page = 2%nat /\
    count_sub Page.entry_any page = 2%nat.
Proof.
  do 3 eexists. split; [vm_compute; reflexivity|].
  split; [vm_compute; reflexivity|].
  split; vm_compute; reflexivity.
Qed.

(** C5: the code does not do what the claim says.  On the sample page
    whose section of the day has no header block the insertion reports
    success, and the page written to disk is the page, the text
    "undefined" and the page again. *)
Lemma insertRant_malformed_example :
  exists result w',
    insertRant Sample.join2 Sample.afternoon Sample.stampA (str "hello")
      Sample.site (Sample.on_disk Sample.malformed) = (Done result, w') /\
    files w' !! Sample.rantsFile
      = Some (Sample.malformed ++ str "undefined" ++ Sample.malformed) /\
    writes (trace w')
      = [(Sample.rantsFile,
          Sample.malformed ++ str "undefined" ++ Sample.malformed)].
Proof.
  destruct (insertRant_malformed_section Sample.join2 Sample.afternoon
              Sample.stampA (str "hello") Sample.site
              (Sample.on_disk Sample.malformed) Sample.malformed
              [] timelineMarker
              (drop (length timelineMarker) Sample.malformed))
    as (result & w' & Hrun & Hfiles & Htrace);
    [vm_compute; reflexivity ..|].
  exists result, w'. split; [exact Hrun|].
  rewrite Hfiles, Htrace. split; [|reflexivity].
  rewrite lookup_insert_eq. vm_compute. reflexivity.
Qed.

Lemma sync_stops_without_change_witness :
  exists content w',
    main_insert Sample.join2 Sample.quiet Sample.any_dir Sample.afternoon
      Sample.stampA (set_commit defaults) Sample.site (str "hello")
      (Sample.on_disk Sample.with_today) = (Done tt, w') /\
    commands (trace w') = [str "git status --porcelain"] /\
    writes (trace w') = [(Sample.rantsFile, content)].
Proof.
  destruct (insertRant Sample.join2 Sample.afternoon Sample.stampA
              (trim (str "hello")) Sample.site
              (record (Log (colors.blue ++ str "Adding rant..."
                              ++ colors.reset))
                 (Sample.on_disk Sample.with_today)))
    as [[result| |] w1] eqn:E; try (vm_compute in E; discriminate).
  destruct (sync_stops_without_change Sample.join2 Sample.quiet
              Sample.any_dir Sample.afternoon Sample.stampA
              (set_commit defaults) Sample.site (str "hello")
              (Sample.on_disk Sample.with_today) w1 result [] (files w1) E)
    as (content & w' & Hrun & _ & Hcommands & Hwrites & _);
    [reflexivity ..|].
  exists content, w'. auto.
Defined.

(** C8 as first stated fails: the status is not asked for the file alone,
    and a change to another path whose name holds the name of the file
    counts as a change to the file.  Here the status lists a backup only,
    no line of it names the rants file, and yet the file is staged,
    committed and pushed. *)
Lemma sync_stages_on_namesake_counterexample :
  ~ reports_change (str " M rants.qmd.bak" ++ [10]) (file Sample.site) /\
  exists w',
    main_insert Sample.join2 Sample.namesake Sample.any_dir Sample.afternoon
      Sample.stampA (set_commit (set_push defaults)) Sample.site
      (str "hello") (Sample.on_disk Sample.with_today) = (Done tt, w') /\
    commands (trace w') =
      [str "git status --porcelain"; str "git add rants.qmd";
       html "git commit -m 'Add rant: 1/1/2024, 3:07:00 PM'";
       str "git push origin main"].
Proof.
  split.
  - vm_compute. intros [H|[H|[]]]; discriminate.
  - eexists. split; vm_compute; reflexivity.
Qed.

Lemma parseLoop_rant_text_witness :
  parseLoop Sample.sites Sample.same_case Sample.nothing
    ([str "-s"; str "tourwithmark"; str "-m"; str "fix"; str "-p"]
       ++ str "hello" :: [str "-c"; str "world"])
    defaults (Sample.on_disk [])
  = (Done (set_rantText (str "hello -c world")
             (set_commit (set_push (set_message (str "fix")
                (set_site (str "tourwithmark") defaults))))),
     Sample.on_disk []).
Proof.
  rewrite (parseLoop_rant_text Sample.sites Sample.same_case Sample.nothing
             [str "-s"; str "tourwithmark"; str "-m"; str "fix"; str "-p"]
             (str "hello") [str "-c"; str "world"] defaults
             (Sample.on_disk []));
    vm_compute; reflexivity.
Defined.

(** C10 as first stated fails: the value of a message flag does not start
    with a hyphen, and it is not the start of the rant text. *)
Lemma parseArgs_first_plain_argument_counterexample :
  ~ (forall (before : list jsstring) (arg : jsstring) (rest : list jsstring)
            (options : Options) (w w' : world),
        forallb (fun a => startsWith a (str "-")) before = true ->
        startsWith arg (str "-") = false ->
        parseArgs Sample.sites Sample.same_case Sample.nothing
          (before ++ arg :: rest) w = (Done options, w') ->
        rantText options = Some (join (str " ") (arg :: rest))).
Proof.
  intros H.
  specialize (H [str "-m"] (str "fix") [str "hello"]
                (set_rantText (str "hello")
                   (set_message (str "fix") defaults))
                (Sample.on_disk []) (Sample.on_disk [])
                eq_refl eq_refl eq_refl).
  vm_compute in H. discriminate.
Qed.

(** * More of the program *)

(** * More of the command line *)



Section ParseArgsMore.
Variable SITES : list (jsstring * SiteConfig).
Variable toLowerCase : jsstring -> jsstring.
Variable showHelp : io unit.


(** A property of the options that every assignment of the loop keeps is
    kept by the loop. *)
Lemma parseLoop_keeps (P : Options -> Prop) :
  (forall o, P o -> P (set_commit o)) ->
  (forall o, P o -> P (set_commit (set_push o))) ->
  (forall o, P o -> P (set_editor o)) ->
  (forall o, P o -> P (set_editor (set_guiEditor o))) ->
  (forall o v, P o -> P (set_message v o)) ->
  (forall o, P o -> P (set_aiFormat o)) ->
  (forall o v cfg,
      lookup_site (toLowerCase v) SITES = Some cfg ->
      P o -> P (set_site (toLowerCase v) o)) ->
  (forall o, P o -> P (set_config o)) ->
  (forall o, P o -> P (set_showEnv o)) ->
  (forall o t, P o -> P (set_rantText t o)) ->
  forall args o w o' w',
    P o ->
    parseLoop SITES toLowerCase showHelp args o w = (Done o', w') ->
    P o'.
Proof.
  intros Hc Hp He Hg Hm Hf Hs Hcfg Henv Ht args.
  remember (length args) as n eqn:Hn. revert args Hn.
  induction n as [n IH] using lt_wf_ind.
  intros args Hn o w o' w' HP Hrun.
  destruct args as [|a rest]; [injection Hrun as <- _; exact HP|].
  simpl in Hn. cbn [Cli.parseLoop] in Hrun.
  assert (Hnext : forall o1, P o1 ->
             parseLoop SITES toLowerCase showHelp rest o1 w = (Done o', w') ->
             P o').
  { intros o1 H1 Hr. apply (IH (length rest) ltac:(lia) rest eq_refl o1 w o' w');
      assumption. }
  repeat match type of Hrun with
         | context [if is_case a ?ls then _ else _] =>
             destruct (is_case a ls);
             [try (eapply Hnext; [|exact Hrun]; auto; fail)|]
         end.
  - (* message *)
    destruct rest as [|v rest']; [eapply Hnext; eauto|].
    simpl in Hn.
    eapply (IH (length rest')); [lia|reflexivity| |exact Hrun]; auto.
  - (* site *)
    destruct rest as [|v rest']; [eapply Hnext; eauto|].
    simpl in Hn.
    destruct (lookup_site (toLowerCase v) SITES) as [cfg|] eqn:E;
      [|discriminate].
    eapply (IH (length rest')); [lia|reflexivity| |exact Hrun]; eauto.
  - (* help *)
    unfold bind, exit in Hrun.
    destruct (showHelp w) as [[[]|code|e] w0]; discriminate.
  - destruct (negb (startsWith a (str "-"))).
    + injection Hrun as <- _. auto.
    + eapply Hnext; eauto.
Qed.



(** X1: the options that [parseArgs] returns are consistent: when push
    is set so is commit, and when the GUI editor is set so is the editor
    mode, whatever the order and the number of the flags. *)
Theorem parseArgs_consistent (argv : list jsstring) (w w' : world)
    (options : Options) :
  parseArgs SITES toLowerCase showHelp argv w = (Done options, w') ->
  consistent options.
Proof.
  unfold parseArgs. intros Hrun.
  apply (parseLoop_keeps consistent) in Hrun; auto;
    try (intros [] ; unfold consistent; cbn; tauto);
    try (intros [] ? ; unfold consistent; cbn; tauto);
    try (intros [] ? ? ? ; unfold consistent; cbn; tauto).
  unfold consistent; cbn. split; discriminate.
Qed.


End ParseArgsMore.

Lemma parseArgs_consistent_witness :
  consistent
    (set_rantText (str "x")
       (set_editor (set_guiEditor (set_commit (set_push defaults))))).
Proof.
  apply (parseArgs_consistent Sample.sites Sample.same_case Sample.nothing
           [str "-p"; str "--gui"; str "x"] (Sample.on_disk [])
           (Sample.on_disk [])).
  vm_compute; reflexivity.
Defined.



(** * More of the entry formatter *)



(** X4: a text with neither a dot nor a colon holds nothing that the link
    pattern matches, so [autoLinkUrls] returns it unchanged, markup and
    line feeds included. *)
Theorem autoLinkUrls_leaves_plain_text (text : jsstring) :
  forallb plain_char text = true -> autoLinkUrls text = text.
Proof.
  intros H. apply replace_all_None, plain_text_no_url.
  - apply not_In_forallb. rewrite forallb_forall in *. intros c Hc.
    specialize (H c Hc). unfold plain_char in H.
    apply andb_true_iff in H as [H _]. exact H.
  - apply not_In_forallb. rewrite forallb_forall in *. intros c Hc.
    specialize (H c Hc). unfold plain_char in H.
    apply andb_true_iff in H as [_ H]. exact H.
Qed.

(** X5: whatever the link pattern matches in a text is made of visible
    ASCII characters other than the double quote and the angle brackets,
    and so is the part of it that [linkify] puts into the [href] attribute
    and between the anchor tags: a link can neither close its attribute nor
    open a tag. *)
Theorem urlRegex_match_safe (text before tok after : jsstring) :
  exec urlRegex text = Some (before, tok, after) ->
  forallb url_safe tok = true /\ forallb url_safe (cleaned tok) = true.
Proof.
  intros E. apply exec_Some in E as (_ & Hm & _).
  apply match_here_sound in Hm.
  pose proof (matches_within url_safe urlRegex urlRegex_within tok Hm) as Hs.
  split; [exact Hs|].
  destruct (cleaned_spec tok) as (trailing & Htok & _).
  rewrite Htok, forallb_app in Hs.
  apply andb_true_iff in Hs as [Hs _]. exact Hs.
Qed.


(** X7: [autoLinkUrls] only inserts markup: the text is a subsequence of
    the result, so no character of the text is dropped, changed or moved. *)
Theorem autoLinkUrls_keeps_text (text : jsstring) :
  text `sublist_of` autoLinkUrls text.
Proof.
  remember (length text) as n eqn:Hn.
  revert text Hn. induction n as [n IH] using lt_wf_ind. intros text Hn.
  unfold autoLinkUrls.
  destruct (exec urlRegex text) as [[[before tok] after]|] eqn:E.
  - pose proof E as E'.
    apply exec_Some in E' as (Htext & Hm & _).
    apply match_here_sound in Hm.
    destruct (url_head tok Hm) as (c & t & Htok & _).
    rewrite (replace_all_Some _ _ _ _ _ _ E) by (rewrite Htok; discriminate).
    rewrite Htext at 1.
    apply sublist_app; [reflexivity|].
    apply sublist_app.
    + destruct (cleaned_spec tok) as (trailing & Hc & _).
      rewrite (linkify_shape tok trailing Hm Hc).
      rewrite Hc at 1. apply sublist_app; [|reflexivity].
      unfold anchor.
      apply sublist_inserts_l, sublist_inserts_l, sublist_inserts_l,
        sublist_inserts_r.
      reflexivity.
    + apply (IH (length after)); [|reflexivity].
      rewrite Hn, Htext, !length_app, Htok. simpl. lia.
  - rewrite (replace_all_None _ _ _ E). reflexivity.
Qed.

(** * The clock *)

Module ClockFacts.

Lemma str_inj (s t : string) : str s = str t -> s = t.
Proof.
  unfold str. intros H.
  rewrite <- (string_of_list_ascii_of_string s),
    <- (string_of_list_ascii_of_string t).
  f_equal.
  revert H. generalize (list_ascii_of_string s) (list_ascii_of_string t).
  induction l as [|a l IH]; intros [|b k] H; try discriminate; [reflexivity|].
  simpl in H. injection H as Hab Hlk.
  rewrite <- (ascii_N_embedding a), <- (ascii_N_embedding b), Hab.
  f_equal. apply IH, Hlk.
Qed.

Lemma decimal_inj (n k : N) : decimal n = decimal k -> n = k.
Proof.
  unfold decimal. intros H. apply str_inj in H.
  assert (Hu : N.to_uint n = N.to_uint k).
  { pose proof (NilEmpty.usu (N.to_uint n)) as Hn.
    pose proof (NilEmpty.usu (N.to_uint k)) as Hk.
    rewrite H in Hn. congruence. }
  rewrite <- (DecimalN.Unsigned.of_to n), <- (DecimalN.Unsigned.of_to k), Hu.
  reflexivity.
Qed.

Lemma In_centum (n : N) : n < 100 -> In n centum.
Proof.
  intros H. unfold centum. apply in_map_iff. exists (N.to_nat n).
  split; [apply N2Nat.id|]. apply in_seq. lia.
Qed.

Lemma padStart2_length (n : N) :
  n < 100 -> length (padStart2 (decimal n)) = 2%nat.
Proof.
  intros H. apply In_centum in H.
  assert (Hall : forallb
            (fun n => Nat.eqb (length (padStart2 (decimal n))) 2) centum
          = true) by (vm_compute; reflexivity).
  rewrite forallb_forall in Hall. apply Nat.eqb_eq, Hall, H.
Qed.

Lemma padStart2_inj (n k : N) :
  n < 100 -> k < 100 ->
  padStart2 (decimal n) = padStart2 (decimal k) -> n = k.
Proof.
  intros Hn Hk H. apply In_centum in Hn, Hk.
  assert (Hall : forallb (fun n => forallb (fun k =>
            implb (jsstring_eqb (padStart2 (decimal n))
                     (padStart2 (decimal k))) (n =? k)) centum) centum
          = true) by (vm_compute; reflexivity).
  rewrite forallb_forall in Hall. specialize (Hall n Hn).
  rewrite forallb_forall in Hall. specialize (Hall k Hk).
  rewrite H in Hall. unfold jsstring_eqb in Hall.
  rewrite bool_decide_eq_true_2 in Hall by reflexivity.
  simpl in Hall. apply N.eqb_eq, Hall.
Qed.

End ClockFacts.
Import ClockFacts.

(** X8: the date key tells calendar days apart: two readings of the clock
    get the same key exactly when their year, month and day of the month
    are the same. *)
Theorem date_key_same_day (d1 d2 : Date) :
  calendar d1 -> calendar d2 ->
  (date (getCurrentDateTime d1) = date (getCurrentDateTime d2)
   <-> same_day d1 d2).
Proof.
  intros [Hm1 Hd1] [Hm2 Hd2]. unfold same_day. split.
  - cbn [getCurrentDateTime date]. intros H.
    rewrite !app_assoc in H.
    apply app_inj_2 in H as [H Hday];
      [|rewrite !padStart2_length by lia; reflexivity].
    rewrite <- !app_assoc in H.
    rewrite (app_assoc (decimal (getFullYear d1))) in H.
    rewrite (app_assoc (decimal (getFullYear d2))) in H.
    apply app_inj_2 in H as [H Hmonth];
      [|rewrite !length_app, !padStart2_length by lia; reflexivity].
    apply app_inj_2 in H as [Hyear _]; [|reflexivity].
    apply decimal_inj in Hyear.
    apply app_inj_1 in Hmonth as [Hmonth _];
      [|rewrite !padStart2_length by lia; reflexivity].
    apply padStart2_inj in Hmonth; [|lia|lia].
    apply padStart2_inj in Hday; [|lia|lia].
    repeat split; [exact Hyear|lia|exact Hday].
  - intros (Hy & Hm & Hd). cbn [getCurrentDateTime date].
    rewrite Hy, Hm, Hd. reflexivity.
Qed.

(** X9: the id of an entry is made of letters, digits and hyphens only,
    whatever the clock returns. *)
Theorem rantId_chars (now : Date) (stamp : N) :
  forallb label_char (rantId_of now stamp) = true.
Proof.
  assert (Hdigit : forall s, forallb digit s = true ->
                             forallb label_char s = true).
  { intros s Hs. rewrite forallb_forall in *. intros c Hc.
    unfold label_char, alnum. rewrite (Hs c Hc).
    rewrite orb_true_r. reflexivity. }
  assert (Hdate : forall s, forallb date_char s = true ->
                            forallb label_char s = true).
  { intros s Hs. rewrite forallb_forall in *. intros c Hc.
    specialize (Hs c Hc). unfold date_char in Hs. unfold label_char, alnum.
    apply orb_true_iff in Hs as [Hs|Hs]; rewrite Hs;
      rewrite ?orb_true_r; reflexivity. }
  unfold rantId_of, day_of. rewrite !forallb_app.
  rewrite (Hdate _ (date_chars now)), (Hdigit _ (decimal_digits stamp)).
  reflexivity.
Qed.

Lemma autoLinkUrls_leaves_plain_text_witness :
  autoLinkUrls (str "so <b>tired</b> of this") = str "so <b>tired</b> of this".
Proof.
  apply (autoLinkUrls_leaves_plain_text (str "so <b>tired</b> of this")).
  vm_compute. reflexivity.
Defined.

Lemma urlRegex_match_safe_witness :
  forallb url_safe (str "https://example.com/a,b.") = true /\
  forallb url_safe (cleaned (str "https://example.com/a,b.")) = true.
Proof.
  apply (urlRegex_match_safe (str "See https://example.com/a,b.")
           (str "See ") (str "https://example.com/a,b.") []).
  vm_compute. reflexivity.
Defined.


Lemma date_key_same_day_witness :
  date (getCurrentDateTime Sample.afternoon) =
    date (getCurrentDateTime Sample.later)
  <-> same_day Sample.afternoon Sample.later.
Proof.
  apply (date_key_same_day Sample.afternoon Sample.later);
    unfold calendar; simpl; lia.
Defined.

(** * More of the insertion *)

Module InsertMore.

(** A needle that ends in its only [g] survives an insertion behind a [g]
    or at the very start. *)
Lemma includes_insert (g : char) (t P M S : jsstring) :
  ~ In g t ->
  P = [] \/ (exists P', P = P' ++ [g]) ->
  includes (P ++ S) (t ++ [g]) = true ->
  includes (P ++ M ++ S) (t ++ [g]) = true.
Proof.
  intros Ht HP H. apply includes_spec in H as (a & b & H).
  apply app_eq_inv in H as [(k & HPk & Hk)|(k & Hak & HS)].
  - symmetry in Hk. apply app_eq_inv in Hk as [(k' & Hk' & Hb)|(k' & Hm & HS)].
    + apply includes_app_l, includes_spec. exists a, k'.
      rewrite HPk, Hk', <- !app_assoc. reflexivity.
    + destruct k as [|c k].
      * simpl in HS. apply includes_spec. exists (P ++ M), b.
        rewrite HS, Hm, <- !app_assoc. reflexivity.
      * destruct k' as [|c' k'].
        { apply includes_app_l, includes_spec. exists a, [].
          rewrite HPk, Hm, !app_nil_r. reflexivity. }
        exfalso. destruct HP as [HP|(P' & HP)].
        { rewrite HP in HPk. destruct a; discriminate. }
        destruct (exists_last (l:=c' :: k')) as (k'' & x & Hlast);
          [discriminate|].
        destruct (exists_last (l:=c :: k)) as (k0 & y & Hk0);
          [discriminate|].
        rewrite Hk0 in HPk. rewrite HP, app_assoc in HPk.
        apply app_inj_tail in HPk as [_ Hy]. subst y.
        rewrite Hk0, Hlast in Hm. rewrite !app_assoc in Hm.
        apply app_inj_tail in Hm as [Hm _].
        apply Ht. rewrite Hm, <- app_assoc. apply in_or_app. right.
        left. reflexivity.
  - apply includes_spec. exists (P ++ M ++ k), b.
    rewrite HS, <- !app_assoc. reflexivity.
Qed.

Lemma timelineMarker_frontier :
  exists t, timelineMarker = t ++ [62] /\ ~ In 62 t.
Proof.
  exists (removelast timelineMarker). split; [reflexivity|].
  apply not_In_forallb. vm_compute. reflexivity.
Qed.

End InsertMore.
Import InsertMore.

Section InsertRantMore.
Variable path_join : jsstring -> jsstring -> jsstring.
Variable now : Date.
Variable stamp : N.
Variable rantText : jsstring.
Variable siteConfig : SiteConfig.

(** The ways in which [insertRant] can end. *)
Lemma insertRant_cases (w : world) :
  let rantsFile := path_join (path siteConfig) (file siteConfig) in
  (files w !! rantsFile = None /\
   insertRant path_join now stamp rantText siteConfig w =
     (Exit 1,
      record (Log (colors.yellow
                     ++ str "Make sure the site path and file are correct."
                     ++ colors.reset))
        (record (Err (colors.red ++ str "Error: Rants file not found at "
                        ++ rantsFile ++ colors.reset)) w))) \/
  (exists content,
     text_at w rantsFile = Some content /\
     exec timelineRegex content = None /\
     insertRant path_join now stamp rantText siteConfig w =
       (Exit 1,
        record (Err (colors.red
                       ++ str "Error: Could not find rants-timeline div"
                       ++ colors.reset)) w)) \/
  (exists content before marker after insertPosition newRantHTML result,
     text_at w rantsFile = Some content /\
     exec timelineRegex content = Some (before, marker, after) /\
     plan content (day_of now) (displayDate (getCurrentDateTime now))
       (rantId_of now stamp) (time (getCurrentDateTime now)) rantText
       (length before + length marker) = (insertPosition, newRantHTML) /\
     insertRant path_join now stamp rantText siteConfig w =
       (Done result,
        snd (writeFileSync rantsFile
               (splice content insertPosition newRantHTML) w))).
Proof.
  intros rantsFile.
  destruct (files w !! rantsFile) as [data|] eqn:Hfile.
  - right.
    assert (Htext : text_at w rantsFile = Some (utf8_decode data))
      by (unfold text_at; rewrite Hfile; reflexivity).
    set (content := utf8_decode data) in *.
    destruct (exec timelineRegex content)
      as [[[before marker] after]|] eqn:Hmarker.
    + right.
      destruct (insertRant_run path_join now stamp rantText siteConfig w
                  content before marker after Htext Hmarker)
        as (result & Hrun).
      destruct (plan content (day_of now)
                  (displayDate (getCurrentDateTime now))
                  (rantId_of now stamp) (time (getCurrentDateTime now))
                  rantText (length before + length marker))
        as [insertPosition newRantHTML] eqn:Hplan.
      exists content, before, marker, after, insertPosition, newRantHTML,
        result.
      auto.
    + left. exists content. split; [exact Htext|]. split; [exact Hmarker|].
      unfold insertRant, bind, existsSync, readFileSync.
      fold rantsFile. rewrite Hfile.
      rewrite bool_decide_eq_true_2 by eauto. cbn [negb].
      rewrite ?Hfile. fold content. rewrite Hmarker. reflexivity.
  - left. split; [reflexivity|].
    unfold insertRant, bind, existsSync. fold rantsFile. rewrite Hfile.
    rewrite bool_decide_eq_false_2 by (intros [x Hx]; discriminate).
    reflexivity.
Qed.

(** X10: when the rants file of the site does not exist, the insertion
    ends the process with status 1 after two messages, the first one naming
    the path it looked at; no file is created. *)
Theorem insertRant_missing_file (w : world) :
  files w !! path_join (path siteConfig) (file siteConfig) = None ->
  exists w',
    insertRant path_join now stamp rantText siteConfig w = (Exit 1, w') /\
    files w' = files w /\
    trace w' =
      trace w ++
      [Err (colors.red ++ str "Error: Rants file not found at "
              ++ path_join (path siteConfig) (file siteConfig)
              ++ colors.reset);
       Log (colors.yellow
              ++ str "Make sure the site path and file are correct."
              ++ colors.reset)].
Proof.
  intros Hfile.
  destruct (insertRant_cases w)
    as [[_ Hrun]|[(content & Hc & _)|(content & b & m' & a & p & h & r & Hc & _)]];
    try (unfold text_at in Hc; rewrite Hfile in Hc; discriminate).
  eexists. split; [exact Hrun|]. split; [reflexivity|].
  cbn [record trace]. rewrite <- app_assoc. reflexivity.
Qed.

(** X11: however it ends, [insertRant] starts no command, stays in the
    working directory, and leaves every file other than the rants file of
    the site as it found it. *)
Theorem insertRant_frame (w w' : world) (out : outcome InsertResult) :
  insertRant path_join now stamp rantText siteConfig w = (out, w') ->
  cwd w' = cwd w /\
  commands (trace w') = commands (trace w) /\
  forall other,
    other <> path_join (path siteConfig) (file siteConfig) ->
    files w' !! other = files w !! other.
Proof.
  intros Hrun.
  destruct (insertRant_cases w)
    as [[_ E]|[(content & _ & _ & E)
              |(content & b & m' & a & p & h & r & _ & _ & _ & E)]];
    rewrite E in Hrun; injection Hrun as <- <-.
  - split; [reflexivity|]. split; [|auto].
    cbn [record trace]. rewrite !commands_app. cbn. rewrite !app_nil_r.
    reflexivity.
  - split; [reflexivity|]. split; [|auto].
    cbn [record trace]. rewrite !commands_app. cbn. rewrite !app_nil_r.
    reflexivity.
  - split; [reflexivity|]. split.
    + cbn. rewrite !commands_app. cbn. rewrite !app_nil_r. reflexivity.
    + intros other Hother. cbn. apply lookup_insert_ne. congruence.
Qed.

(** The text written by an insertion that returns still holds the
    container marker. *)
Lemma insertRant_writes_marker (w w' : world) (result : InsertResult) :
  insertRant path_join now stamp rantText siteConfig w = (Done result, w') ->
  exists content',
    files w' !! path_join (path siteConfig) (file siteConfig)
      = Some (utf8_encode content') /\
    includes content' timelineMarker = true.
Proof.
  intros Hrun.
  destruct (insertRant_cases w)
    as [[_ E]|[(content & _ & _ & E)
              |(content & before & marker & after & pos & markup & r
                & Hfile & Hmarker & Hplan & E)]];
    rewrite E in Hrun; try discriminate.
  injection Hrun as _ <-.
  eexists. split; [cbn; apply lookup_insert_eq|].
  apply exec_lit_Some in Hmarker as (-> & Hcontent & _).
  assert (Hinc : includes content timelineMarker = true).
  { apply includes_spec. eauto. }
  unfold plan in Hplan.
  destruct (exec (datePattern (day_of now)) content) as [found|].
  - destruct (exec (dateHeaderPattern (day_of now)) content)
      as [[[bh header] ah]|] eqn:Hheader.
    + injection Hplan as <- <-.
      apply exec_header_block in Hheader
        as (Hc & w1 & w2 & label & w3 & Hh & _).
      unfold splice, slice_to, slice_from, to_text.
      rewrite <- length_app.
      rewrite Hc, (app_assoc bh header ah).
      rewrite take_app_length, drop_app_length.
      destruct timelineMarker_frontier as (t & Ht & Hnot).
      rewrite Ht. apply includes_insert; [exact Hnot| |].
      * right. exists (bh ++ removelast header).
        rewrite <- app_assoc. f_equal. rewrite Hh. unfold header_block.
        rewrite !app_assoc. unfold divClose.
        change (html "</div>") with (str "</div" ++ [62]).
        rewrite !app_assoc, removelast_last. reflexivity.
      * rewrite <- Ht, <- app_assoc. rewrite Hc in Hinc. exact Hinc.
    + injection Hplan as <- <-.
      unfold splice, slice_to, slice_from. apply includes_app_l, Hinc.
  - injection Hplan as <- <-.
    unfold splice, slice_to, slice_from, to_text.
    apply includes_app_l.
    set (n := match exec anyDayRegex _ with
              | Some (gap, _, _) => (_ + length gap)%nat
              | None => _
              end).
    assert (Hn : exists k, n = (length (before ++ timelineMarker) + k)%nat).
    { subst n. rewrite length_app.
      destruct (exec anyDayRegex _) as [[[gap tag] rest]|];
        [exists (length gap) | exists 0%nat];
        change (length timelineMarker) with 28%nat; lia. }
    destruct Hn as (k & ->).
    rewrite Hcontent, app_assoc, take_app_add.
    apply includes_app_l, includes_spec. exists before, [].
    rewrite app_nil_r. reflexivity.
Qed.

(** X12: after an insertion that returns, the text of the rants file
    still holds the container marker, so that the next insertion finds
    it again. *)
Theorem insertRant_keeps_marker (w w' : world) (result : InsertResult) :
  insertRant path_join now stamp rantText siteConfig w = (Done result, w') ->
  exists content',
    text_at w' (path_join (path siteConfig) (file siteConfig))
      = Some content' /\
    includes content' timelineMarker = true.
Proof.
  intros Hrun.
  destruct (insertRant_writes_marker w w' result Hrun)
    as (written & Hfile & Hinc).
  exists (read_back written). split.
  - unfold text_at. rewrite Hfile. cbn [fmap option_fmap option_map].
    rewrite utf8_decode_encode. reflexivity.
  - apply includes_read_back_true; [reflexivity|exact Hinc].
Qed.

End InsertRantMore.

Lemma insertRant_missing_file_witness :
  exists w',
    insertRant Sample.join2 Sample.afternoon Sample.stampA (str "hello")
      Sample.site MoreSample.empty_disk = (Exit 1, w') /\
    files w' = files MoreSample.empty_disk /\
    trace w' =
      trace MoreSample.empty_disk ++
      [Err (colors.red ++ str "Error: Rants file not found at "
              ++ Sample.join2 (path Sample.site) (file Sample.site)
              ++ colors.reset);
       Log (colors.yellow
              ++ str "Make sure the site path and file are correct."
              ++ colors.reset)].
Proof.
  apply (insertRant_missing_file Sample.join2 Sample.afternoon Sample.stampA
           (str "hello") Sample.site MoreSample.empty_disk).
  vm_compute. reflexivity.
Defined.

Lemma insertRant_frame_witness :
  commands
    (trace (snd (insertRant Sample.join2 Sample.afternoon Sample.stampA
                   (str "hello") Sample.site
                   (Sample.on_disk Sample.with_yesterday))))
  = commands (trace (Sample.on_disk Sample.with_yesterday)).
Proof.
  apply (insertRant_frame Sample.join2 Sample.afternoon Sample.stampA
           (str "hello") Sample.site (Sample.on_disk Sample.with_yesterday)
           (snd (insertRant Sample.join2 Sample.afternoon Sample.stampA
                   (str "hello") Sample.site
                   (Sample.on_disk Sample.with_yesterday)))
           (fst (insertRant Sample.join2 Sample.afternoon Sample.stampA
                   (str "hello") Sample.site
                   (Sample.on_disk Sample.with_yesterday)))).
  vm_compute. reflexivity.
Defined.

Lemma insertRant_keeps_marker_witness :
  exists content',
    text_at (snd (insertRant Sample.join2 Sample.afternoon Sample.stampA
                    (str "hello") Sample.site
                    (Sample.on_disk Sample.with_today)))
      (Sample.join2 (path Sample.site) (file Sample.site))
      = Some content' /\
    includes content' timelineMarker = true.
Proof.
  apply (insertRant_keeps_marker Sample.join2 Sample.afternoon Sample.stampA
           (str "hello") Sample.site (Sample.on_disk Sample.with_today)
           (snd (insertRant Sample.join2 Sample.afternoon Sample.stampA
                   (str "hello") Sample.site
                   (Sample.on_disk Sample.with_today)))
           {| res_date := str "January 01, 2024"; res_time := str "3:07 PM";
              preview := str "hello";
              id := str "rant-2024-01-01-1704121620000";
              res_site := str "/srv/tour" |}).
  vm_compute. reflexivity.
Defined.

(** * More of the synchronisation *)

Ltac destruct_bools :=
  repeat match goal with
         | |- context [if ?b then _ else _] => destruct b
         end;
  lia.

Section GitOperationsMore.
Variable spawn :
  jsstring -> jsstring -> gmap jsstring jsstring ->
  (jsstring + jsstring) * gmap jsstring jsstring.
Variable is_dir : jsstring -> bool.
Variable now : Date.

(** Running [gitOperations] by cases on what the children return. *)
Ltac git_cases H :=
  unfold gitOperations, try_catch, bind, chdir, execSync, console_log,
    console_error, emit, exit, ret in H;
  repeat (cbn [cwd files trace record negb fst snd] in H;
          match type of H with
          | context [is_dir ?d] => destruct (is_dir d) eqn:?
          | context [spawn ?d ?c ?f] =>
              destruct (spawn d c f) as [[?out|?err] ?fs] eqn:?
          | context [includes ?a ?b] => destruct (includes a b) eqn:?
          | context [if ?b then _ else _] => destruct b eqn:?
          end);
  cbn [cwd files trace record negb fst snd] in H.

(** X13: however the children behave, [gitOperations] returns or ends the
    process with status 1, never with an exception; the commands it starts
    are the first few of status, add, commit and push in this order, add at
    most when neither commit nor push follows from the flag, no push
    without the push flag; and it writes no file itself. *)
Theorem gitOperations_outcomes (commit push : bool)
    (message : option jsstring) (siteConfig : SiteConfig) (w w' : world)
    (out : outcome unit) :
  gitOperations spawn is_dir now commit push message siteConfig w
    = (out, w') ->
  (out = Done tt \/ out = Exit 1) /\
  writes (trace w') = writes (trace w) /\
  exists n,
    commands (trace w') =
      commands (trace w) ++ take n (git_sequence now message siteConfig) /\
    (n <= steps commit push)%nat.
Proof.
  intros H. git_cases H; injection H as <- <-;
    (split; [auto|]); unfold record; cbn [trace files cwd];
    rewrite ?writes_app, ?commands_app; cbn [writes commands];
    rewrite ?app_nil_r;
    (split; [reflexivity|]);
    rewrite <- ?app_assoc;
    first
      [ exists 0%nat; split; [symmetry; apply app_nil_r | lia]
      | exists 1%nat; split; [reflexivity | unfold steps; destruct_bools]
      | exists 2%nat; split; [reflexivity | unfold steps; destruct_bools]
      | exists 3%nat; split; [reflexivity | unfold steps; destruct_bools]
      | exists 4%nat; split; [reflexivity | unfold steps; destruct_bools] ].
Qed.



End GitOperationsMore.

Lemma gitOperations_outcomes_witness :
  writes (trace (snd (gitOperations MoreSample.commit_fails Sample.any_dir
                        Sample.afternoon true true None Sample.site
                        (Sample.on_disk Sample.with_today))))
  = writes (trace (Sample.on_disk Sample.with_today)).
Proof.
  apply (gitOperations_outcomes MoreSample.commit_fails Sample.any_dir
           Sample.afternoon true true None Sample.site
           (Sample.on_disk Sample.with_today)
           (snd (gitOperations MoreSample.commit_fails Sample.any_dir
                   Sample.afternoon true true None Sample.site
                   (Sample.on_disk Sample.with_today)))
           (Exit 1)).
  vm_compute. reflexivity.
Defined.



(** * The editor and the reformatting *)

Module EditorFacts.

Lemma split_not_nil (sep : char) (s : jsstring) : split sep s <> [].
Proof.
  destruct s as [|c s]; simpl; [discriminate|].
  destruct (char_eqb c sep); [discriminate|].
  destruct (split sep s); discriminate.
Qed.

(** Joining the pieces with the separator gives the string back. *)
Lemma join_split (sep : char) (s : jsstring) :
  join [sep] (split sep s) = s.
Proof.
  induction s as [|c s IH]; [reflexivity|].
  cbn [split]. destruct (char_eqb c sep) eqn:Hc.
  - apply char_eqb_eq in Hc. subst c.
    pose proof (split_not_nil sep s) as Hne.
    destruct (split sep s) as [|part parts]; [congruence|].
    cbn [join]. cbn [join] in IH. rewrite IH. reflexivity.
  - pose proof (split_not_nil sep s) as Hne.
    destruct (split sep s) as [|part parts]; [congruence|].
    destruct parts as [|part' parts].
    + cbn [join] in *. rewrite IH. reflexivity.
    + cbn [join] in *. rewrite <- IH. reflexivity.
Qed.

(** A first line without the separator is the first piece. *)
Lemma split_line (sep : char) (line rest : jsstring) :
  ~ In sep line ->
  split sep (line ++ sep :: rest) = line :: split sep rest.
Proof.
  induction line as [|c line IH]; intros Hnot.
  - cbn [app split]. rewrite char_eqb_refl. reflexivity.
  - cbn [app split].
    destruct (char_eqb c sep) eqn:Hc.
    + apply char_eqb_eq in Hc. subst c. exfalso. apply Hnot. left.
      reflexivity.
    + rewrite IH; [reflexivity|]. intros Hin. apply Hnot. right. exact Hin.
Qed.

End EditorFacts.
Import EditorFacts.

Section EditorMore.
Variable path_join : jsstring -> jsstring -> jsstring.
Variable tmpdir : jsstring.
Variable stamp : N.
Variable EDITOR : option jsstring.
Variable spawn :
  jsstring -> jsstring -> gmap jsstring jsstring ->
  (jsstring + jsstring) * gmap jsstring jsstring.


(** X16: the terminal editor.  When the editor returns and leaves, in the
    temporary file, two lines and then a body, the result is the body
    without the white space at its ends, whatever the two lines are; the
    only command started is the editor on the temporary file, and the
    temporary file is removed. *)
Theorem openEditor_returns_body (w : world) (out line1 line2 body : jsstring)
    (data : bytes) (fs : gmap jsstring bytes) :
  let file := tempFile path_join tmpdir stamp in
  let editor := or_default EDITOR (str "nano") in
  let command := editor ++ html " '" ++ file ++ html "'" in
  spawn (cwd w) command
    (<[file := utf8_encode (str "# Type your rant below this line" ++ nl
                              ++ nl)]> (files w))
    = (inl out, fs) ->
  fs !! file = Some data ->
  utf8_decode data = line1 ++ nl ++ line2 ++ nl ++ body ->
  ~ In 10 line1 -> ~ In 10 line2 ->
  exists w',
    openEditor path_join tmpdir stamp EDITOR spawn false w
      = (Done (trim body), w') /\
    files w' = delete file fs /\
    commands (trace w') = commands (trace w) ++ [command].
Proof.
  intros file editor command Hspawn Hfile Htext H1 H2.
  unfold openEditor, bind, try_catch, writeFileSync, ret, console_log, emit,
    execSync, readFileSync, unlinkSync.
  fold file. cbn [cwd files record trace].
  fold editor. fold command. rewrite Hspawn.
  cbn [cwd files record trace]. rewrite Hfile.
  cbn [cwd files record trace]. rewrite Hfile.
  cbn [cwd files record trace]. rewrite Htext.
  eexists. split.
  { unfold nl. cbn [app].
    rewrite <- app_assoc. cbn [app].
    rewrite (split_line 10 line1) by exact H1.
    rewrite (split_line 10 line2) by exact H2.
    cbn [drop]. rewrite drop_0, join_split. reflexivity. }
  split; [reflexivity|].
  cbn [trace]. rewrite !commands_app. cbn. rewrite !app_nil_r.
  reflexivity.
Qed.



(** X18: [formatWithAI] always returns: with the answer of the child
    without the white space at its ends when the child succeeds and the
    prompt file is still there to remove, and with the text it was given
    in every other case.  The prompt it writes is [ai_prompt] of the text. *)
Theorem formatWithAI_returns (text : jsstring) (w : world) :
  let file := tempPromptFile path_join tmpdir stamp in
  let command := html "cat '" ++ file ++ html "' | claude" in
  exists result w',
    formatWithAI path_join tmpdir stamp spawn text w = (Done result, w') /\
    writes (trace w') = writes (trace w) ++ [(file, ai_prompt text)] /\
    commands (trace w') = commands (trace w) ++ [command] /\
    match spawn (cwd w) command
            (<[file := utf8_encode (ai_prompt text)]> (files w)) with
    | (inl out, fs) =>
        if bool_decide (is_Some (fs !! file))
        then result = trim out /\ files w' = delete file fs
        else result = text /\ files w' = fs
    | (inr _, fs) => result = text /\ files w' = fs
    end.
Proof.
  intros file command.
  unfold formatWithAI, bind, try_catch, writeFileSync, ret, console_log,
    console_error, emit, execSync, unlinkSync.
  fold file. cbn [cwd files record trace]. fold command.
  destruct (spawn (cwd w) command _) as [[out|err] fs].
  - cbn [cwd files record trace].
    destruct (fs !! file) as [data|] eqn:Hdata.
    + rewrite bool_decide_eq_true_2 by eauto.
      eexists _, _. split; [reflexivity|]. cbn [cwd files record trace].
      rewrite !writes_app, !commands_app. cbn. rewrite !app_nil_r. auto.
    + rewrite bool_decide_eq_false_2 by (intros [x Hx]; discriminate).
      eexists _, _. split; [reflexivity|]. cbn [cwd files record trace].
      rewrite !writes_app, !commands_app. cbn. rewrite !app_nil_r. auto.
  - eexists _, _. split; [reflexivity|]. cbn [cwd files record trace].
    rewrite !writes_app, !commands_app. cbn. rewrite !app_nil_r. auto.
Qed.

End EditorMore.

Lemma openEditor_returns_body_witness :
  exists w',
    openEditor Sample.join2 EditorSample.tmp Sample.stampA None
      EditorSample.typist false (Sample.on_disk Sample.only_marker)
    = (Done (str "first line" ++ nl ++ str "second line"), w').
Proof.
  destruct (openEditor_returns_body Sample.join2 EditorSample.tmp
              Sample.stampA None EditorSample.typist
              (Sample.on_disk Sample.only_marker) []
              (str "# Type your rant below this line") []
              (str "  first line" ++ nl ++ str "second line" ++ nl)
              (str "# Type your rant below this line" ++ nl ++ nl
                 ++ str "  first line" ++ nl ++ str "second line" ++ nl)
              (snd (EditorSample.typist [] []
                      (<[tempFile Sample.join2 EditorSample.tmp Sample.stampA
                         := str "# Type your rant below this line" ++ nl
                              ++ nl]>
                         (files (Sample.on_disk Sample.only_marker))))))
    as (w' & Hrun & _).
  - vm_compute. reflexivity.
  - vm_compute. reflexivity.
  - vm_compute. reflexivity.
  - apply not_In_forallb. vm_compute. reflexivity.
  - intros [].
  - exists w'. exact Hrun.
Defined.


(** * The environment *)

(** X19: the base directory is [Developer] under the home directory on
    macOS and [projects] under it everywhere else: neither the host name
    nor [DROPLET_ENV], which tell a droplet from another Linux machine,
    changes it. *)
Theorem getBaseDirectory_by_platform (platform hostname homedir : jsstring)
    (DROPLET_ENV : option jsstring)
    (path_join : jsstring -> jsstring -> jsstring) :
  getBaseDirectory platform hostname homedir DROPLET_ENV path_join =
  path_join homedir
    (if jsstring_eqb platform (str "darwin") then str "Developer"
     else str "projects").
Proof.
  unfold getBaseDirectory, getEnvironment.
  destruct (jsstring_eqb platform (str "linux")) eqn:Hlinux.
  - unfold jsstring_eqb in Hlinux. apply bool_decide_eq_true_1 in Hlinux.
    subst platform.
    destruct (includes hostname (str "droplet") || negb (falsy DROPLET_ENV));
      reflexivity.
  - cbn [andb].
    destruct (jsstring_eqb platform (str "darwin")); reflexivity.
Qed.

(** * More of the main function *)

Section MainMore.
Variable SITES : list (jsstring * SiteConfig).
Variable toLowerCase : jsstring -> jsstring.
Variable path_join : jsstring -> jsstring -> jsstring.
Variable spawn :
  jsstring -> jsstring -> gmap jsstring jsstring ->
  (jsstring + jsstring) * gmap jsstring jsstring.
Variable is_dir : jsstring -> bool.
Variable now : Date.
Variable stamp : N.
Variable showHelp showEnvironmentInfo manageConfig : io unit.
Variable readFromStdin : io (option jsstring).
Variable openEditor : bool -> io jsstring.
Variable formatWithAI : jsstring -> io jsstring.

(** X20: without the reformatting flag, the text that [main] goes on with
    is never blank: whatever the command line, the standard input or the
    editor gave, a text that is empty or all white space ends the process
    instead. *)
Theorem main_text_never_blank (options : Options) (w w' : world)
    (text : jsstring) :
  main_text readFromStdin openEditor formatWithAI options w
    = (Done text, w') ->
  aiFormat options = false ->
  trim text <> [].
Proof.
  unfold main_text, bind, ret. intros Hrun Hai. rewrite Hai in Hrun.
  destruct (if falsy (rantText options) && negb (editor options)
            then readFromStdin else fun w => (Done (rantText options), w))
    as [[first| |] w1]; try discriminate.
  destruct (if falsy first && editor options then _ else _)
    as [[second| |] w2]; try discriminate.
  destruct second as [[|c rest]|]; try discriminate.
  destruct (jsstring_eqb (trim (c :: rest)) []) eqn:Hblank;
    [discriminate|].
  injection Hrun as <- _.
  unfold jsstring_eqb in Hblank. apply bool_decide_eq_false_1 in Hblank.
  exact Hblank.
Qed.


End MainMore.

Lemma main_text_never_blank_witness : trim (str "hello") <> [].
Proof.
  apply (main_text_never_blank Sample.no_stdin Sample.no_editor
           Sample.no_format (set_rantText (str "hello") defaults)
           (Sample.on_disk []) (Sample.on_disk []) (str "hello"));
    vm_compute; reflexivity.
Defined.


(** * More of the templates and the clock *)

(** X22: the two templates of [insertRant] give the markup of the page
    format, an entry and a section with one entry, around the linked
    text: the replacement of line feeds by line feeds that both apply to
    the linked text changes nothing. *)
Theorem templates_give_page_markup
    (date displayDate rantId time rantText : jsstring) :
  entryHTML rantId time rantText
    = Page.entry rantId time (autoLinkUrls rantText) /\
  sectionHTML date displayDate rantId time rantText
    = Page.section date displayDate rantId time (autoLinkUrls rantText).
Proof. split; [apply entryHTML_page|apply sectionHTML_page]. Qed.

(** X23: linking adds no opening tag of a division: a text without a
    given tag of that shape is still without it after [autoLinkUrls],
    whatever links were made in it. *)
Theorem autoLinkUrls_adds_no_tag (needle text : jsstring) :
  tag_shaped needle ->
  includes text needle = false ->
  includes (autoLinkUrls text) needle = false.
Proof.
  intros Hn Htext. apply includes_sealed.
  - destruct Hn as (n' & -> & _). discriminate.
  - apply sealed_autoLinkUrls; [exact Hn|exact Htext|exact I].
Qed.

Lemma autoLinkUrls_adds_no_tag_witness :
  includes (autoLinkUrls (str "see www.example.com/div, <b>now</b>"))
    Page.day_any = false.
Proof.
  apply (autoLinkUrls_adds_no_tag Page.day_any
           (str "see www.example.com/div, <b>now</b>")).
  - exists (drop 2 Page.day_any). split; [reflexivity|].
    split; apply not_In_forallb; vm_compute; reflexivity.
  - vm_compute. reflexivity.
Defined.

(** X24: what the header pattern of a day finds in a document is a
    header block of that day: the opening tag of the day, the header
    division and the date label, with white space only between the
    elements and a label without an opening angle bracket. *)
Theorem dateHeaderPattern_finds_header_block
    (day content before header after : jsstring) :
  exec (dateHeaderPattern day) content = Some (before, header, after) ->
  content = before ++ header ++ after /\
  exists white1 white2 label white3,
    header = Page.header day white1 white2 label white3 /\
    forallb space white1 = true /\ forallb space white2 = true /\
    forallb space white3 = true /\
    label <> [] /\ ~ In 60 label.
Proof.
  intros H.
  destruct (exec_header_block _ _ _ _ _ H)
    as (Hc & w1 & w2 & label & w3 & Hh & H1 & H2 & H3 & Hne & Hlabel).
  split; [exact Hc|]. exists w1, w2, label, w3.
  rewrite <- header_block_page.
  repeat (split; [assumption|]). apply not_lt_not_In, Hlabel.
Qed.

Lemma dateHeaderPattern_finds_header_block_witness :
  Sample.with_today
    = take 46 Sample.with_today
        ++ take 121 (drop 46 Sample.with_today)
        ++ drop 167 Sample.with_today /\
  exists white1 white2 label white3,
    take 121 (drop 46 Sample.with_today)
      = Page.header (str "2024-01-01") white1 white2 label white3 /\
    forallb space white1 = true /\ forallb space white2 = true /\
    forallb space white3 = true /\
    label <> [] /\ ~ In 60 label.
Proof.
  apply (dateHeaderPattern_finds_header_block (str "2024-01-01")
           Sample.with_today (take 46 Sample.with_today)
           (take 121 (drop 46 Sample.with_today))
           (drop 167 Sample.with_today)).
  vm_compute. reflexivity.
Defined.

(** X25: the time of day that [getCurrentDateTime] returns is an hour
    from 1 to 12, a colon, the minutes in two digits at least, a space
    and AM or PM, PM from noon on. *)
Theorem time_of_day_shape (now : Date) :
  exists hour,
    1 <= hour <= 12 /\
    (hour = 12 \/ hour = getHours now mod 12) /\
    time (getCurrentDateTime now) =
      decimal hour ++ str ":" ++ padStart2 (decimal (getMinutes now))
        ++ str " "
        ++ (if 12 <=? getHours now then str "PM" else str "AM").
Proof.
  cbn [getCurrentDateTime time].
  pose proof (N.mod_lt (getHours now) 12 ltac:(lia)) as Hlt.
  remember (getHours now mod 12) as h eqn:Hh.
  destruct (h =? 0) eqn:E.
  - exists 12. split; [lia|]. split; [left; reflexivity|reflexivity].
  - apply N.eqb_neq in E. exists h.
    split; [lia|]. split; [right; reflexivity|reflexivity].
Qed.

(** X26: the environment is a droplet on Linux when the host name holds
    "droplet" or DROPLET_ENV is set to a non-empty value, macOS on
    darwin, and Linux in every other case. *)
Theorem getEnvironment_cases (platform hostname : jsstring)
    (DROPLET_ENV : option jsstring) :
  getEnvironment platform hostname DROPLET_ENV =
  if jsstring_eqb platform (str "linux") then
    if includes hostname (str "droplet") then str "droplet"
    else
      match DROPLET_ENV with
      | Some (_ :: _) => str "droplet"
      | _ => str "linux"
      end
  else if jsstring_eqb platform (str "darwin") then str "macos"
  else str "linux".
Proof.
  unfold getEnvironment.
  destruct (jsstring_eqb platform (str "linux")) eqn:Hl; cbn [andb].
  - destruct (includes hostname (str "droplet")); cbn [orb]; [reflexivity|].
    destruct DROPLET_ENV as [[|c v]|]; cbn; try reflexivity.
    all: destruct (jsstring_eqb platform (str "darwin")) eqn:Hd;
      [|reflexivity].
    all: apply bool_decide_eq_true_1 in Hl, Hd; rewrite Hl in Hd;
      vm_compute in Hd; discriminate.
  - reflexivity.
Qed.

Section InsertRantResult.
Variable path_join : jsstring -> jsstring -> jsstring.
Variable now : Date.
Variable stamp : N.
Variable rantText : jsstring.
Variable siteConfig : SiteConfig.

(** X27: what [insertRant] returns after an insertion: the display date
    and the time of the clock reading, the id made of the date key and
    the time stamp, the path of the site, and as preview the first fifty
    code units of the text, followed by three dots when the text is
    longer, so fifty-three code units at most. *)
Theorem insertRant_result (w w' : world) (result : InsertResult) :
  insertRant path_join now stamp rantText siteConfig w = (Done result, w') ->
  res_date result = displayDate (getCurrentDateTime now) /\
  res_time result = time (getCurrentDateTime now) /\
  id result
    = str "rant-" ++ date (getCurrentDateTime now) ++ str "-"
        ++ decimal stamp /\
  res_site result = path siteConfig /\
  preview result
    = take 50 rantText
        ++ (if (50 <? length rantText)%nat then str "..." else []) /\
  (length (preview result) <= 53)%nat.
Proof.
  unfold insertRant, bind, existsSync, readFileSync, console_error,
    console_log, emit, exit, writeFileSync, ret.
  destruct (files w !! path_join (path siteConfig) (file siteConfig))
    as [data|] eqn:Hfile.
  2:{ rewrite bool_decide_eq_false_2 by (intros [x Hx]; discriminate).
      cbn [negb]. intros H. discriminate H. }
  rewrite bool_decide_eq_true_2 by eauto. cbn [negb].
  cbv beta iota zeta. rewrite Hfile.
  destruct (exec timelineRegex (utf8_decode data))
    as [[[before marker] after]|]; [|intros H; discriminate H].
  destruct (plan _ _ _ _ _ _ _) as [insertPosition newRantHTML].
  intros H. apply pair_equal_spec in H as [H _].
  apply (f_equal (fun o => match o with Done r => Some r | _ => None end))
    in H.
  apply Some_inj in H. subst result.
  cbn [res_date res_time id res_site preview].
  repeat (split; [reflexivity|]).
  rewrite length_app, length_take.
  destruct (50 <? length rantText)%nat;
    [change (length (str "...")) with 3%nat|cbn [length]]; lia.
Qed.
End InsertRantResult.

Lemma insertRant_result_witness :
  preview
    {| res_date := str "January 01, 2024"; res_time := str "3:07 PM";
       preview := str "hello";
       id := str "rant-2024-01-01-1704121620000";
       res_site := str "/srv/tour" |}
  = take 50 (str "hello")
      ++ (if (50 <? length (str "hello"))%nat then str "..." else []).
Proof.
  apply (insertRant_result Sample.join2 Sample.afternoon Sample.stampA
           (str "hello") Sample.site (Sample.on_disk Sample.with_today)
           (snd (insertRant Sample.join2 Sample.afternoon Sample.stampA
                   (str "hello") Sample.site
                   (Sample.on_disk Sample.with_today)))
           {| res_date := str "January 01, 2024"; res_time := str "3:07 PM";
              preview := str "hello";
              id := str "rant-2024-01-01-1704121620000";
              res_site := str "/srv/tour" |}).
  vm_compute. reflexivity.
Defined.
